(** * react-hooks-core: browser monitor hooks

    A shallow embedding of the browser hooks of the repository
    ([useNetworkSpeed], [useBattery]) together with the platform objects
    they talk to, and the lifecycle properties of the specification.

    The hooks are thin adapters: they read a platform object, subscribe to
    its change notifications, mirror the reading into component state and
    unsubscribe at teardown.  The embedding therefore models
    - JavaScript values with their truthiness and [typeof],
    - the platform objects as mutable records with a listener registry,
    - React state, refs and effect closures as fields of a world record,
    - exceptions and [try]/[catch] with a small state-and-exception monad,
    - the event loop as a step function over macrotasks, each followed by a
      microtask checkpoint. *)

From Stdlib Require Import List String Bool Arith NArith Lia PrimFloat.
Import ListNotations.
Local Open Scope string_scope.
Local Open Scope list_scope.

(* ===================================================================== *)
(** * Part I: definitions *)
(* ===================================================================== *)

(** ** JavaScript values *)

Module Js.

(** Primitive values.  Numbers are IEEE-754 binary64, as in the
    language. *)
Inductive value : Type :=
| VUndefined
| VNull
| VBool (b : bool)
| VNumber (x : float)
| VString (s : string).

(** [ToBoolean]: [undefined], [null], [false], [+0], [-0], [NaN] and the
    empty string are falsy. *)
Definition truthy (v : value) : bool :=
  match v with
  | VUndefined | VNull => false
  | VBool b => b
  | VNumber x => negb (PrimFloat.is_zero x || PrimFloat.is_nan x)
  | VString s => negb (String.eqb s "")
  end.

(** [a || b] *)
Definition or (a b : value) : value := if truthy a then a else b.

Inductive type_tag : Type :=
| TUndefined | TObject | TBoolean | TNumber | TString.

(** [typeof v] on primitives ([typeof null] is ["object"]). *)
Definition typeof (v : value) : type_tag :=
  match v with
  | VUndefined => TUndefined
  | VNull => TObject
  | VBool _ => TBoolean
  | VNumber _ => TNumber
  | VString _ => TString
  end.

(** A user-supplied callback.  It is opaque to the hook: all the hook can
    observe is its identity and whether a call returns or throws. *)
Record Callback : Type := { cb_id : nat; cb_throws : bool }.

Definition callback_eqb (a b : Callback) : bool :=
  Nat.eqb (cb_id a) (cb_id b) && Bool.eqb (cb_throws a) (cb_throws b).

(** Identity comparison of an optional callback ([undefined] when the
    option is not supplied), as React compares effect dependencies. *)
Definition same_dep (a b : option Callback) : bool :=
  match a, b with
  | None, None => true
  | Some x, Some y => callback_eqb x y
  | _, _ => false
  end.

End Js.

(** ** Computations with state and exceptions *)

Module Eff.

(** How a statement completes: normally with a value, or abruptly with a
    thrown error.  State changes made before a throw persist. *)
Inductive Completion (A : Type) : Type :=
| Normal (a : A)
| Thrown (e : string).
Arguments Normal {A} a.
Arguments Thrown {A} e.

Definition M (W A : Type) : Type := W -> Completion A * W.

Definition ret {W A} (a : A) : M W A := fun w => (Normal a, w).

Definition bind {W A B} (m : M W A) (k : A -> M W B) : M W B :=
  fun w =>
    match m w with
    | (Normal a, w') => k a w'
    | (Thrown e, w') => (Thrown e, w')
    end.

Definition throw {W A} (e : string) : M W A := fun w => (Thrown e, w).

(** [try { body } catch (error) { handler }] *)
Definition try_catch {W A} (body : M W A) (handler : string -> M W A)
  : M W A :=
  fun w =>
    match body w with
    | (Normal a, w') => (Normal a, w')
    | (Thrown e, w') => handler e w'
    end.

Definition get {W} : M W W := fun w => (Normal w, w).
Definition gets {W A} (f : W -> A) : M W A := fun w => (Normal (f w), w).
Definition modify {W} (f : W -> W) : M W unit := fun w => (Normal tt, f w).

Definition when {W} (b : bool) (m : M W unit) : M W unit :=
  if b then m else ret tt.

(** The world a computation leaves behind. *)
Definition exec {W A} (m : M W A) (w : W) : W := snd (m w).

Module Notations.
Declare Scope eff_scope.
Delimit Scope eff_scope with eff.
Notation "x <- m ;; k" := (bind m (fun x => k))
  (at level 61, m at next level, right associativity) : eff_scope.
Notation "m ;; k" := (bind m (fun _ => k))
  (at level 61, right associativity) : eff_scope.
End Notations.

End Eff.

Import Eff.Notations.
Local Open Scope eff_scope.

(** ** Event targets

    Platform objects keep a registry of [(type, listener)] pairs.
    Registering a pair that is already present is a no-op, removing deletes
    the matching pair, and dispatching runs the listeners registered for the
    event type in registration order. *)

Module EventTarget.
Section Registry.
Variable H : Type.
Variable H_eqb : H -> H -> bool.

Definition registry : Type := list (string * H).

Definition same_entry (a b : string * H) : bool :=
  String.eqb (fst a) (fst b) && H_eqb (snd a) (snd b).

Definition add (type : string) (h : H) (r : registry) : registry :=
  if existsb (same_entry (type, h)) r then r else r ++ [(type, h)].

Definition remove (type : string) (h : H) (r : registry) : registry :=
  filter (fun e => negb (same_entry (type, h) e)) r.

Definition listeners_for (type : string) (r : registry) : list H :=
  map snd (filter (fun e => String.eqb (fst e) type) r).
End Registry.
Arguments add {H} H_eqb type h r.
Arguments remove {H} H_eqb type h r.
Arguments listeners_for {H} type r.
End EventTarget.

(** ** useNetworkSpeed (connection-quality monitor) *)

Module NetworkSpeed.

Import Js.

(** [NetworkSpeedInfo].  The fields are whatever the platform object
    holds: the hook only applies [||] to them. *)
Record NetworkSpeedInfo : Type := {
  effectiveType : value;
  downlink : value;
  rtt : value;
  saveData : value
}.

Definition defaultInfo : NetworkSpeedInfo :=
  {| effectiveType := VString "unknown";
     downlink := VNumber PrimFloat.zero;
     rtt := VNumber PrimFloat.zero;
     saveData := VBool false |}.

Definition ObjId : Type := nat.

(** A listener closure: [handleChange] together with the [conn] it
    captured. *)
Inductive Handler : Type := HandleChange (conn : ObjId).

Definition handler_eqb (a b : Handler) : bool :=
  match a, b with HandleChange x, HandleChange y => Nat.eqb x y end.

(** A platform connection-information object: its four attributes (an
    absent attribute reads as [undefined]) and its listeners. *)
Record Connection : Type := {
  c_effectiveType : value;
  c_downlink : value;
  c_rtt : value;
  c_saveData : value;
  c_listeners : EventTarget.registry Handler
}.

(** The ambient environment.  [window_defined] is
    [typeof window !== 'undefined'], [connection_in_navigator] is
    ['connection' in navigator]; the three navigator properties hold a
    reference to a connection object or a falsy value ([None]). *)
Record Env : Type := {
  window_defined : bool;
  connection_in_navigator : bool;
  nav_connection : option ObjId;
  nav_mozConnection : option ObjId;
  nav_webkitConnection : option ObjId
}.

Record World : Type := {
  env : Env;
  heap : ObjId -> Connection;
  (* component-local React state and refs *)
  networkInfo : NetworkSpeedInfo;
  onChangeRef : option Callback;
  onChangeDep : option Callback;
  (* the cleanup closure returned by the subscription effect, with the
     [conn] it captured *)
  effectCleanup : option ObjId;
  (* observations *)
  published : list NetworkSpeedInfo;
  calls : list (Callback * NetworkSpeedInfo);
  console : list string;
  uncaught : list string
}.

Definition M := Eff.M World.

Definition set_heap (h : ObjId -> Connection) (w : World) : World :=
  {| env := env w; heap := h; networkInfo := networkInfo w;
     onChangeRef := onChangeRef w; onChangeDep := onChangeDep w;
     effectCleanup := effectCleanup w; published := published w;
     calls := calls w; console := console w; uncaught := uncaught w |}.

Definition update_obj (o : ObjId) (c : Connection)
           (h : ObjId -> Connection) : ObjId -> Connection :=
  fun o' => if Nat.eqb o' o then c else h o'.

Definition set_listeners (r : EventTarget.registry Handler)
           (c : Connection) : Connection :=
  {| c_effectiveType := c_effectiveType c; c_downlink := c_downlink c;
     c_rtt := c_rtt c; c_saveData := c_saveData c; c_listeners := r |}.

(** [setNetworkInfo(info)]: replaces the state and is recorded. *)
Definition setNetworkInfo (info : NetworkSpeedInfo) : M unit :=
  Eff.modify (fun w =>
    {| env := env w; heap := heap w; networkInfo := info;
       onChangeRef := onChangeRef w; onChangeDep := onChangeDep w;
       effectCleanup := effectCleanup w;
       published := published w ++ [info];
       calls := calls w; console := console w; uncaught := uncaught w |}).

(** Calling a user callback: the call is recorded, then it returns or
    throws. *)
Definition invoke (cb : Callback) (info : NetworkSpeedInfo) : M unit :=
  Eff.modify (fun w =>
    {| env := env w; heap := heap w; networkInfo := networkInfo w;
       onChangeRef := onChangeRef w; onChangeDep := onChangeDep w;
       effectCleanup := effectCleanup w; published := published w;
       calls := calls w ++ [(cb, info)];
       console := console w; uncaught := uncaught w |}) ;;
  if cb_throws cb then Eff.throw "callback error" else Eff.ret tt.

(** [onChangeRef.current?.(info)] *)
Definition call_onChangeRef (info : NetworkSpeedInfo) : M unit :=
  r <- Eff.gets onChangeRef ;;
  match r with
  | Some cb => invoke cb info
  | None => Eff.ret tt
  end.

Definition console_warn (msg : string) : M unit :=
  Eff.modify (fun w =>
    {| env := env w; heap := heap w; networkInfo := networkInfo w;
       onChangeRef := onChangeRef w; onChangeDep := onChangeDep w;
       effectCleanup := effectCleanup w; published := published w;
       calls := calls w; console := console w ++ [msg];
       uncaught := uncaught w |}).

Definition set_onChangeRef (cb : option Callback) : M unit :=
  Eff.modify (fun w =>
    {| env := env w; heap := heap w; networkInfo := networkInfo w;
       onChangeRef := cb; onChangeDep := cb;
       effectCleanup := effectCleanup w; published := published w;
       calls := calls w; console := console w; uncaught := uncaught w |}).

Definition set_effectCleanup (c : option ObjId) : M unit :=
  Eff.modify (fun w =>
    {| env := env w; heap := heap w; networkInfo := networkInfo w;
       onChangeRef := onChangeRef w; onChangeDep := onChangeDep w;
       effectCleanup := c; published := published w;
       calls := calls w; console := console w; uncaught := uncaught w |}).

(** [navigator.connection || navigator.mozConnection ||
    navigator.webkitConnection] *)
Definition select_conn (e : Env) : option ObjId :=
  match nav_connection e with
  | Some o => Some o
  | None =>
      match nav_mozConnection e with
      | Some o => Some o
      | None => nav_webkitConnection e
      end
  end.

(** The object literal built from a connection object:
    [{ effectiveType: conn.effectiveType || 'unknown',
       downlink: conn.downlink || 0, rtt: conn.rtt || 0,
       saveData: conn.saveData || false }] *)
Definition read_info (c : Connection) : NetworkSpeedInfo :=
  {| effectiveType := Js.or (c_effectiveType c) (VString "unknown");
     downlink := Js.or (c_downlink c) (VNumber PrimFloat.zero);
     rtt := Js.or (c_rtt c) (VNumber PrimFloat.zero);
     saveData := Js.or (c_saveData c) (VBool false) |}.

(** The same literal with optional chaining, [conn?.x || d]: every
    [conn?.x] is [undefined] when [conn] is. *)
Definition read_info_opt (h : ObjId -> Connection) (conn : option ObjId)
  : NetworkSpeedInfo :=
  match conn with
  | Some o => read_info (h o)
  | None =>
      {| effectiveType := Js.or VUndefined (VString "unknown");
         downlink := Js.or VUndefined (VNumber PrimFloat.zero);
         rtt := Js.or VUndefined (VNumber PrimFloat.zero);
         saveData := Js.or VUndefined (VBool false) |}
  end.

(** The lazy initial state of [useState]. *)
Definition initialState : M NetworkSpeedInfo :=
  e <- Eff.gets env ;;
  if negb (window_defined e) || negb (connection_in_navigator e) then
    Eff.ret defaultInfo
  else
    Eff.try_catch
      (h <- Eff.gets heap ;;
       Eff.ret (read_info_opt h (select_conn e)))
      (fun error =>
         console_warn "Error reading network information:" ;;
         Eff.ret defaultInfo).

(** [handleChange], closed over [conn]. *)
Definition handleChange (conn : ObjId) : M unit :=
  h <- Eff.gets heap ;;
  let newInfo := read_info (h conn) in
  setNetworkInfo newInfo ;;
  call_onChangeRef newInfo.

Definition run_handler (h : Handler) : M unit :=
  match h with HandleChange conn => handleChange conn end.

Definition addEventListener (o : ObjId) (type : string) (h : Handler)
  : M unit :=
  Eff.modify (fun w =>
    set_heap (update_obj o
                (set_listeners
                   (EventTarget.add handler_eqb type h
                      (c_listeners (heap w o))) (heap w o))
                (heap w)) w).

Definition removeEventListener (o : ObjId) (type : string) (h : Handler)
  : M unit :=
  Eff.modify (fun w =>
    set_heap (update_obj o
                (set_listeners
                   (EventTarget.remove handler_eqb type h
                      (c_listeners (heap w o))) (heap w o))
                (heap w)) w).

(** The effect that refreshes the ref, [useEffect(() => {
    onChangeRef.current = onChange }, [onChange])]: it runs after a render
    whose [onChange] differs from the one it last ran with. *)
Definition refresh_effect (first : bool) (onChange : option Callback)
  : M unit :=
  d <- Eff.gets onChangeDep ;;
  if first || negb (same_dep d onChange)
  then set_onChangeRef onChange
  else Eff.ret tt.

(** The subscription effect, [useEffect(() => { ... }, [])].  The cleanup
    closure it returns (if any) is stored in [effectCleanup]. *)
Definition subscribe_effect : M unit :=
  e <- Eff.gets env ;;
  if negb (window_defined e) || negb (connection_in_navigator e) then
    Eff.ret tt
  else
    Eff.try_catch
      (match select_conn e with
       | None => Eff.ret tt
       | Some conn =>
           addEventListener conn "change" (HandleChange conn) ;;
           set_effectCleanup (Some conn)
       end)
      (fun error =>
         console_warn "Error setting up network speed monitoring:").

(** The cleanup closure: [() => conn.removeEventListener('change',
    handleChange)]. *)
Definition run_cleanup : M unit :=
  c <- Eff.gets effectCleanup ;;
  match c with
  | Some conn =>
      removeEventListener conn "change" (HandleChange conn) ;;
      set_effectCleanup None
  | None => Eff.ret tt
  end.

(** The world before the component is rendered. *)
Definition blank (e : Env) (h : ObjId -> Connection) : World :=
  {| env := e; heap := h; networkInfo := defaultInfo;
     onChangeRef := None; onChangeDep := None; effectCleanup := None;
     published := []; calls := []; console := []; uncaught := [] |}.

(** First render and commit: [useState] initialiser, [useRef(onChange)],
    then both effects in order. *)
Definition first_render (onChange : option Callback) : M unit :=
  s <- initialState ;;
  Eff.modify (fun w =>
    {| env := env w; heap := heap w; networkInfo := s;
       onChangeRef := onChange; onChangeDep := onChangeDep w;
       effectCleanup := effectCleanup w; published := published w;
       calls := calls w; console := console w; uncaught := uncaught w |}) ;;
  refresh_effect true onChange ;;
  subscribe_effect.

(** New attribute values of a connection object. *)
Record Reading : Type := {
  r_effectiveType : value;
  r_downlink : value;
  r_rtt : value;
  r_saveData : value
}.

(** A connection object nobody listens to yet. *)
Definition fresh (r : Reading) : Connection :=
  {| c_effectiveType := r_effectiveType r; c_downlink := r_downlink r;
     c_rtt := r_rtt r; c_saveData := r_saveData r; c_listeners := [] |}.

(** Mounting the component in environment [e], where the platform
    objects hold the attribute values [h]. *)
Definition mount (e : Env) (h : ObjId -> Reading)
           (onChange : option Callback) : World :=
  Eff.exec (first_render onChange) (blank e (fun o => fresh (h o))).

(** What [useNetworkSpeed] returns on the current render. *)
Definition useNetworkSpeed (w : World) : NetworkSpeedInfo := networkInfo w.

Definition store (r : Reading) (c : Connection) : Connection :=
  {| c_effectiveType := r_effectiveType r; c_downlink := r_downlink r;
     c_rtt := r_rtt r; c_saveData := r_saveData r;
     c_listeners := c_listeners c |}.

(** The platform reports an exception thrown by a listener and goes on
    with the next one. *)
Definition report (m : M unit) : M unit :=
  Eff.try_catch m (fun e =>
    Eff.modify (fun w =>
      {| env := env w; heap := heap w; networkInfo := networkInfo w;
         onChangeRef := onChangeRef w; onChangeDep := onChangeDep w;
         effectCleanup := effectCleanup w; published := published w;
         calls := calls w; console := console w;
         uncaught := uncaught w ++ [e] |})).

Fixpoint run_all (hs : list Handler) : M unit :=
  match hs with
  | [] => Eff.ret tt
  | h :: rest => report (run_handler h) ;; run_all rest
  end.

(** [o.dispatchEvent(new Event(type))]: the listeners registered at the
    time of the dispatch are run. *)
Definition dispatch (o : ObjId) (type : string) : M unit :=
  h <- Eff.gets heap ;;
  run_all (EventTarget.listeners_for type (c_listeners (h o))).

(** What can happen to a mounted component. *)
Inductive Event : Type :=
| Render (onChange : option Callback)
    (* re-render with a (possibly new) [onChange] option *)
| Notify (o : ObjId) (r : Reading)
    (* the platform updates object [o] and fires ['change'] on it *)
| Unmount.

Definition handle (ev : Event) : M unit :=
  match ev with
  | Render onChange => refresh_effect false onChange
  | Notify o r =>
      Eff.modify (fun w => set_heap (update_obj o (store r (heap w o))
                                        (heap w)) w) ;;
      dispatch o "change"
  | Unmount => run_cleanup
  end.

Definition step (w : World) (ev : Event) : World := Eff.exec (handle ev) w.

Definition run (w : World) (evs : list Event) : World :=
  fold_left step evs w.

(** The [onChange] option of the latest render. *)
Definition latest_onChange (cb0 : option Callback) (evs : list Event)
  : option Callback :=
  fold_left (fun acc ev =>
               match ev with Render cb => cb | _ => acc end) evs cb0.

(** The snapshot the claim expects for a reading. *)
Definition snapshot_of (r : Reading) : NetworkSpeedInfo :=
  {| effectiveType := Js.or (r_effectiveType r) (VString "unknown");
     downlink := Js.or (r_downlink r) (VNumber PrimFloat.zero);
     rtt := Js.or (r_rtt r) (VNumber PrimFloat.zero);
     saveData := Js.or (r_saveData r) (VBool false) |}.

End NetworkSpeed.

(** ** useBattery (battery monitor) *)

Module Battery.

Import Js.

(** [BatteryStatus] *)
Record BatteryStatus : Type := {
  level : float;
  charging : bool;
  chargingTime : float;
  dischargingTime : float;
  supported : bool
}.

(** The unsupported-feature default, which is also the initial state. *)
Definition unsupported : BatteryStatus :=
  {| level := PrimFloat.one; charging := false;
     chargingTime := PrimFloat.infinity;
     dischargingTime := PrimFloat.infinity;
     supported := false |}.

(** The four listener closures created by [initBattery]. *)
Inductive Handler : Type :=
| HandleLevelChange
| HandleChargingChange
| HandleChargingTimeChange
| HandleDischargingTimeChange.

Definition handler_eqb (a b : Handler) : bool :=
  match a, b with
  | HandleLevelChange, HandleLevelChange
  | HandleChargingChange, HandleChargingChange
  | HandleChargingTimeChange, HandleChargingTimeChange
  | HandleDischargingTimeChange, HandleDischargingTimeChange => true
  | _, _ => false
  end.

(** The object behind [navigator.getBattery()].  Its attributes may hold
    anything (the hook checks them with [typeof]); [b_eventTarget] tells
    whether it has [addEventListener]/[removeEventListener]. *)
Record BatteryManager : Type := {
  b_level : value;
  b_charging : value;
  b_chargingTime : value;
  b_dischargingTime : value;
  b_eventTarget : bool;
  b_listeners : EventTarget.registry Handler
}.

(** What the [getBattery()] promise can be fulfilled with: a primitive, or
    a reference to the battery object. *)
Inductive resolved : Type :=
| RPrim (v : value)
| RBattery.

Inductive Settlement : Type :=
| Fulfill (v : resolved)
| Reject (e : string).

(** The call [navigator.getBattery()] itself throws, or returns a promise
    that settles later. *)
Inductive GetBattery : Type :=
| GetBatteryThrows (e : string)
| GetBatteryPromise.

Record Env : Type := {
  window_defined : bool;
  getBattery_in_navigator : bool;
  getBattery : GetBattery
}.

(** The closure returned by [initBattery] on success; it removes the four
    listeners. *)
Inductive CleanupFn : Type := RemoveListeners.

Inductive Promise (A : Type) : Type :=
| Pending
| Fulfilled (a : A)
| Rejected (e : string).
Arguments Pending {A}.
Arguments Fulfilled {A} a.
Arguments Rejected {A} e.

(** The reaction [cleanup.then(cleanupFn => cleanupFn?.())]. *)
Inductive Reaction : Type := NoReaction | Registered | Done.

(** Component-local React state and refs. *)
Record Hook : Type := {
  batteryStatus : BatteryStatus;
  onChangeRef : option Callback;
  onChangeDep : option Callback;
  batteryRef : option resolved
}.

(** The variables of one run of the battery effect. *)
Record Activation : Type := {
  mounted : bool;                          (* [let mounted] *)
  awaiting : bool;                         (* [initBattery] is at its [await] *)
  cleanup : Promise (option CleanupFn);    (* [const cleanup = initBattery()] *)
  reaction : Reaction;
  effectCleanup : bool                     (* the effect returned a cleanup *)
}.

(** Observations. *)
Record Log : Type := {
  published : list BatteryStatus;               (* [setBatteryStatus] calls *)
  calls : list (Callback * BatteryStatus);      (* [onChange] calls *)
  console : list (string * string);             (* [console.warn] calls *)
  uncaught : list string                        (* errors nobody caught *)
}.

Record World : Type := {
  env : Env;
  battery : BatteryManager;
  hook : Hook;
  act : Activation;
  log : Log
}.

Definition M := Eff.M World.

Definition with_battery (f : BatteryManager -> BatteryManager) (w : World)
  : World :=
  {| env := env w; battery := f (battery w); hook := hook w; act := act w;
     log := log w |}.

Definition with_hook (f : Hook -> Hook) (w : World) : World :=
  {| env := env w; battery := battery w; hook := f (hook w); act := act w;
     log := log w |}.

Definition with_act (f : Activation -> Activation) (w : World) : World :=
  {| env := env w; battery := battery w; hook := hook w; act := f (act w);
     log := log w |}.

Definition with_log (f : Log -> Log) (w : World) : World :=
  {| env := env w; battery := battery w; hook := hook w; act := act w;
     log := f (log w) |}.

Definition set_listeners (r : EventTarget.registry Handler)
           (b : BatteryManager) : BatteryManager :=
  {| b_level := b_level b; b_charging := b_charging b;
     b_chargingTime := b_chargingTime b;
     b_dischargingTime := b_dischargingTime b;
     b_eventTarget := b_eventTarget b; b_listeners := r |}.

Definition set_mounted (b : bool) (a : Activation) : Activation :=
  {| mounted := b; awaiting := awaiting a; cleanup := cleanup a;
     reaction := reaction a; effectCleanup := effectCleanup a |}.

Definition set_awaiting (b : bool) (a : Activation) : Activation :=
  {| mounted := mounted a; awaiting := b; cleanup := cleanup a;
     reaction := reaction a; effectCleanup := effectCleanup a |}.

Definition set_cleanup (p : Promise (option CleanupFn)) (a : Activation)
  : Activation :=
  {| mounted := mounted a; awaiting := awaiting a; cleanup := p;
     reaction := reaction a; effectCleanup := effectCleanup a |}.

Definition set_reaction (r : Reaction) (a : Activation) : Activation :=
  {| mounted := mounted a; awaiting := awaiting a; cleanup := cleanup a;
     reaction := r; effectCleanup := effectCleanup a |}.

Definition set_effectCleanup (b : bool) (a : Activation) : Activation :=
  {| mounted := mounted a; awaiting := awaiting a; cleanup := cleanup a;
     reaction := reaction a; effectCleanup := b |}.

(** [setBatteryStatus(status)] *)
Definition setBatteryStatus (status : BatteryStatus) : M unit :=
  Eff.modify (fun w =>
    with_log (fun l =>
      {| published := published l ++ [status]; calls := calls l;
         console := console l; uncaught := uncaught l |})
    (with_hook (fun h =>
      {| batteryStatus := status; onChangeRef := onChangeRef h;
         onChangeDep := onChangeDep h; batteryRef := batteryRef h |}) w)).

Definition invoke (cb : Callback) (status : BatteryStatus) : M unit :=
  Eff.modify (with_log (fun l =>
    {| published := published l; calls := calls l ++ [(cb, status)];
       console := console l; uncaught := uncaught l |})) ;;
  if cb_throws cb then Eff.throw "callback error" else Eff.ret tt.

(** [onChangeRef.current?.(status)] *)
Definition call_onChangeRef (status : BatteryStatus) : M unit :=
  r <- Eff.gets (fun w => onChangeRef (hook w)) ;;
  match r with
  | Some cb => invoke cb status
  | None => Eff.ret tt
  end.

(** [console.warn(msg, error)] *)
Definition console_warn (msg error : string) : M unit :=
  Eff.modify (with_log (fun l =>
    {| published := published l; calls := calls l;
       console := console l ++ [(msg, error)]; uncaught := uncaught l |})).

Definition log_uncaught (e : string) : M unit :=
  Eff.modify (with_log (fun l =>
    {| published := published l; calls := calls l;
       console := console l; uncaught := uncaught l ++ [e] |})).

Definition set_onChangeRef (cb : option Callback) : M unit :=
  Eff.modify (with_hook (fun h =>
    {| batteryStatus := batteryStatus h; onChangeRef := cb;
       onChangeDep := cb; batteryRef := batteryRef h |})).

Definition set_batteryRef (b : option resolved) : M unit :=
  Eff.modify (with_hook (fun h =>
    {| batteryStatus := batteryStatus h; onChangeRef := onChangeRef h;
       onChangeDep := onChangeDep h; batteryRef := b |})).

(** [!battery] and [typeof battery]. *)
Definition truthy_r (b : resolved) : bool :=
  match b with RPrim v => truthy v | RBattery => true end.

Definition typeof_r (b : resolved) : type_tag :=
  match b with RPrim v => typeof v | RBattery => TObject end.

Definition is_object (t : type_tag) : bool :=
  match t with TObject => true | _ => false end.

(** [battery.x]: an attribute of the battery object, [undefined] on a
    primitive. *)
Definition prop (b : resolved) (f : BatteryManager -> value) (w : World)
  : value :=
  match b with RBattery => f (battery w) | RPrim _ => VUndefined end.

(** The object literal [newStatus]. *)
Definition newStatus (b : resolved) (w : World) : BatteryStatus :=
  {| level := match prop b b_level w with
              | VNumber x => x | _ => PrimFloat.one end;
     charging := match prop b b_charging w with
                 | VBool c => c | _ => false end;
     chargingTime := match prop b b_chargingTime w with
                     | VNumber x => x | _ => PrimFloat.infinity end;
     dischargingTime := match prop b b_dischargingTime w with
                        | VNumber x => x | _ => PrimFloat.infinity end;
     supported := true |}.

(** [updateBatteryStatus(battery)] *)
Definition updateBatteryStatus (b : resolved) : M unit :=
  w <- Eff.get ;;
  if negb (mounted (act w)) || negb (truthy_r b) then Eff.ret tt
  else
    let status := newStatus b w in
    setBatteryStatus status ;;
    call_onChangeRef status.

Definition run_handler (h : Handler) : M unit :=
  match h with
  | HandleLevelChange => updateBatteryStatus RBattery
  | HandleChargingChange => updateBatteryStatus RBattery
  | HandleChargingTimeChange => updateBatteryStatus RBattery
  | HandleDischargingTimeChange => updateBatteryStatus RBattery
  end.

(** [battery.addEventListener(type, h)]: a [TypeError] when the value has
    no such method. *)
Definition addEventListener (b : resolved) (type : string) (h : Handler)
  : M unit :=
  w <- Eff.get ;;
  match b with
  | RBattery =>
      if b_eventTarget (battery w) then
        Eff.modify (with_battery (fun o =>
          set_listeners
            (EventTarget.add handler_eqb type h (b_listeners o)) o))
      else Eff.throw "TypeError: battery.addEventListener is not a function"
  | RPrim _ =>
      Eff.throw "TypeError: battery.addEventListener is not a function"
  end.

Definition removeEventListener (b : resolved) (type : string) (h : Handler)
  : M unit :=
  w <- Eff.get ;;
  match b with
  | RBattery =>
      if b_eventTarget (battery w) then
        Eff.modify (with_battery (fun o =>
          set_listeners
            (EventTarget.remove handler_eqb type h (b_listeners o)) o))
      else
        Eff.throw "TypeError: battery.removeEventListener is not a function"
  | RPrim _ =>
      Eff.throw "TypeError: battery.removeEventListener is not a function"
  end.

(** The [catch] block of [initBattery]. *)
Definition on_error (error : string) : M (option CleanupFn) :=
  console_warn "Error accessing battery status:" error ;;
  m <- Eff.gets (fun w => mounted (act w)) ;;
  Eff.when m (setBatteryStatus unsupported) ;;
  Eff.ret None.

(** [await p]: the value of a fulfilled promise, a throw for a rejected
    one. *)
Definition awaited (s : Settlement) : M resolved :=
  match s with
  | Fulfill v => Eff.ret v
  | Reject e => Eff.throw e
  end.

(** The [try] block of [initBattery] from the [await] on. *)
Definition after_await (s : Settlement) : M (option CleanupFn) :=
  b <- awaited s ;;
  if negb (truthy_r b) || negb (is_object (typeof_r b)) then
    Eff.throw "Invalid battery object"
  else
    set_batteryRef (Some b) ;;
    m <- Eff.gets (fun w => mounted (act w)) ;;
    if negb m then Eff.ret None
    else
      updateBatteryStatus b ;;
      addEventListener b "levelchange" HandleLevelChange ;;
      addEventListener b "chargingchange" HandleChargingChange ;;
      addEventListener b "chargingtimechange" HandleChargingTimeChange ;;
      addEventListener b "dischargingtimechange"
        HandleDischargingTimeChange ;;
      Eff.ret (Some RemoveListeners).

(** The closure [RemoveListeners], closed over [battery]. *)
Definition run_cleanupFn (b : resolved) : M unit :=
  removeEventListener b "levelchange" HandleLevelChange ;;
  removeEventListener b "chargingchange" HandleChargingChange ;;
  removeEventListener b "chargingtimechange" HandleChargingTimeChange ;;
  removeEventListener b "dischargingtimechange" HandleDischargingTimeChange.

(** An [async] function settles its promise with the completion of its
    body. *)
Definition settle_cleanup (body : M (option CleanupFn)) : M unit :=
  fun w =>
    match body w with
    | (Eff.Normal r, w') =>
        (Eff.Normal tt, with_act (set_cleanup (Fulfilled r)) w')
    | (Eff.Thrown e, w') =>
        (Eff.Normal tt, with_act (set_cleanup (Rejected e)) w')
    end.

(** [initBattery()] up to its [await].  A synchronous throw of
    [navigator.getBattery()] is already inside the [try]. *)
Definition initBattery : M unit :=
  e <- Eff.gets env ;;
  match getBattery e with
  | GetBatteryThrows err =>
      settle_cleanup (Eff.try_catch (Eff.throw err) on_error)
  | GetBatteryPromise =>
      Eff.modify (with_act (set_awaiting true))
  end.

(** [initBattery] resumed when the awaited promise settles. *)
Definition initBattery_resume (s : Settlement) : M unit :=
  Eff.modify (with_act (set_awaiting false)) ;;
  settle_cleanup (Eff.try_catch (after_await s) on_error).

(** The platform reports an exception thrown by a listener or a promise
    reaction and goes on. *)
Definition report (m : M unit) : M unit := Eff.try_catch m log_uncaught.

(** The microtask checkpoint: the reaction registered on [cleanup] runs
    once [cleanup] is settled. *)
Definition microtasks : M unit :=
  w <- Eff.get ;;
  match reaction (act w), cleanup (act w) with
  | Registered, Fulfilled fn =>
      Eff.modify (with_act (set_reaction Done)) ;;
      report (match fn with
              | Some RemoveListeners => run_cleanupFn RBattery
              | None => Eff.ret tt
              end)
  | Registered, Rejected e =>
      Eff.modify (with_act (set_reaction Done)) ;;
      log_uncaught e
  | _, _ => Eff.ret tt
  end.

(** [useEffect(() => { onChangeRef.current = onChange }, [onChange])] *)
Definition refresh_effect (first : bool) (onChange : option Callback)
  : M unit :=
  d <- Eff.gets (fun w => onChangeDep (hook w)) ;;
  if first || negb (same_dep d onChange)
  then set_onChangeRef onChange
  else Eff.ret tt.

(** The battery effect, [useEffect(() => { ... }, [])]. *)
Definition battery_effect : M unit :=
  e <- Eff.gets env ;;
  if negb (window_defined e) || negb (getBattery_in_navigator e) then
    Eff.ret tt
  else
    Eff.modify (with_act (set_mounted true)) ;;
    initBattery ;;
    Eff.modify (with_act (set_effectCleanup true)).

(** The cleanup returned by the battery effect:
    [() => { mounted = false; cleanup.then(cleanupFn => cleanupFn?.()) }] *)
Definition run_cleanup : M unit :=
  c <- Eff.gets (fun w => effectCleanup (act w)) ;;
  if c then
    Eff.modify (with_act (set_effectCleanup false)) ;;
    Eff.modify (with_act (set_mounted false)) ;;
    Eff.modify (with_act (set_reaction Registered))
  else Eff.ret tt.

(** Attribute values of the battery object. *)
Record Reading : Type := {
  r_level : value;
  r_charging : value;
  r_chargingTime : value;
  r_dischargingTime : value
}.

Definition store (r : Reading) (b : BatteryManager) : BatteryManager :=
  {| b_level := r_level r; b_charging := r_charging r;
     b_chargingTime := r_chargingTime r;
     b_dischargingTime := r_dischargingTime r;
     b_eventTarget := b_eventTarget b; b_listeners := b_listeners b |}.

(** The world before the component is rendered: the state of
    [useState], [useRef(onChange)], [useRef(null)], and a battery object
    nobody listens to yet. *)
Definition blank (e : Env) (r : Reading) (eventTarget : bool)
           (onChange : option Callback) : World :=
  {| env := e;
     battery := {| b_level := r_level r; b_charging := r_charging r;
                   b_chargingTime := r_chargingTime r;
                   b_dischargingTime := r_dischargingTime r;
                   b_eventTarget := eventTarget; b_listeners := [] |};
     hook := {| batteryStatus := unsupported; onChangeRef := onChange;
                onChangeDep := None; batteryRef := None |};
     act := {| mounted := false; awaiting := false; cleanup := Pending;
               reaction := NoReaction; effectCleanup := false |};
     log := {| published := []; calls := []; console := [];
               uncaught := [] |} |}.

(** First render and commit: both effects in order, then the microtask
    checkpoint. *)
Definition first_render (onChange : option Callback) : M unit :=
  refresh_effect true onChange ;;
  battery_effect ;;
  microtasks.

Definition mount (e : Env) (r : Reading) (eventTarget : bool)
           (onChange : option Callback) : World :=
  Eff.exec (first_render onChange) (blank e r eventTarget onChange).

(** What [useBattery] returns on the current render. *)
Definition useBattery (w : World) : BatteryStatus := batteryStatus (hook w).

Fixpoint run_all (hs : list Handler) : M unit :=
  match hs with
  | [] => Eff.ret tt
  | h :: rest => report (run_handler h) ;; run_all rest
  end.

Definition dispatch (type : string) : M unit :=
  w <- Eff.get ;;
  run_all (EventTarget.listeners_for type (b_listeners (battery w))).

(** What can happen to a mounted component.  Every event is one task of
    the event loop and ends with a microtask checkpoint. *)
Inductive Event : Type :=
| Render (onChange : option Callback)
| Settle (s : Settlement)
    (* the promise returned by [getBattery()] settles *)
| BatteryEvent (type : string) (r : Reading)
    (* the platform updates the battery object and fires [type] on it *)
| Unmount.

Definition handle (ev : Event) : M unit :=
  match ev with
  | Render onChange => refresh_effect false onChange
  | Settle s =>
      a <- Eff.gets (fun w => awaiting (act w)) ;;
      if a then initBattery_resume s ;; microtasks else Eff.ret tt
  | BatteryEvent type r =>
      Eff.modify (with_battery (store r)) ;;
      dispatch type ;;
      microtasks
  | Unmount => run_cleanup ;; microtasks
  end.

Definition step (w : World) (ev : Event) : World := Eff.exec (handle ev) w.

Definition run (w : World) (evs : list Event) : World :=
  fold_left step evs w.

Definition latest_onChange (cb0 : option Callback) (evs : list Event)
  : option Callback :=
  fold_left (fun acc ev =>
               match ev with Render cb => cb | _ => acc end) evs cb0.

Definition is_settle (ev : Event) : bool :=
  match ev with Settle _ => true | _ => false end.

(** The listeners [initBattery] registers. *)
Definition four_listeners : EventTarget.registry Handler :=
  [("levelchange", HandleLevelChange);
   ("chargingchange", HandleChargingChange);
   ("chargingtimechange", HandleChargingTimeChange);
   ("dischargingtimechange", HandleDischargingTimeChange)].

End Battery.

(** ** Idle/activity detector

    The source of the idle detector is not among the sources of the
    repository that are at hand (only its documentation is); the
    definitions of this module follow section 4.1 of the specification. *)

Module Idle.

Local Open Scope N_scope.

Record Config : Type := {
  timeoutMs : N;
  events : list string;       (* tracked event names *)
  initialState : bool;
  interactive : bool          (* an input surface is available *)
}.

Definition default_events : list string :=
  ["mousemove"; "mousedown"; "keydown"; "touchstart"; "scroll"].

Inductive Callback : Type := OnIdle | OnActive.

Inductive Transition : Type := BecameIdle | BecameActive.

Record State : Type := {
  isIdle : bool;
  now : N;                          (* milliseconds *)
  deadline : option N;              (* the single pending deadline timer *)
  listeners : list string;          (* registered event names *)
  callbacks : list Callback;        (* lifecycle callbacks, in order *)
  transitions : list Transition     (* changes of the idle flag, in order *)
}.

(** Modelled from the spec: activation of the idle detector (the hook's
    source is missing).  With an input surface, a listener is registered
    per tracked event name and the deadline timer starts; the detector
    is not idle until the first deadline elapses, whatever the initial
    state flag.  Without one, it stays in its configured state and no
    timer is started. *)
Definition activate (c : Config) (t0 : N) : State :=
  if interactive c then
    {| isIdle := false; now := t0; deadline := Some (t0 + timeoutMs c);
       listeners := events c; callbacks := []; transitions := [] |}
  else
    {| isIdle := initialState c; now := t0; deadline := None;
       listeners := []; callbacks := []; transitions := [] |}.

(** Modelled from the spec: a tracked event (the hook's source is
    missing) cancels and reschedules the deadline timer and, if the state
    is idle, makes it active and invokes the active-callback. *)
Definition tracked_event (c : Config) (s : State) : State :=
  if isIdle s then
    {| isIdle := false; now := now s;
       deadline := Some (now s + timeoutMs c);
       listeners := listeners s;
       callbacks := callbacks s ++ [OnActive];
       transitions := transitions s ++ [BecameActive] |}
  else
    {| isIdle := false; now := now s;
       deadline := Some (now s + timeoutMs c);
       listeners := listeners s;
       callbacks := callbacks s;
       transitions := transitions s |}.

(** Modelled from the spec: the deadline timer fires (the hook's source
    is missing); the state becomes idle and the idle-callback is invoked,
    once per transition. *)
Definition deadline_fired (s : State) : State :=
  if isIdle s then
    {| isIdle := true; now := now s; deadline := None;
       listeners := listeners s; callbacks := callbacks s;
       transitions := transitions s |}
  else
    {| isIdle := true; now := now s; deadline := None;
       listeners := listeners s;
       callbacks := callbacks s ++ [OnIdle];
       transitions := transitions s ++ [BecameIdle] |}.

Definition set_now (t : N) (s : State) : State :=
  {| isIdle := isIdle s; now := t; deadline := deadline s;
     listeners := listeners s; callbacks := callbacks s;
     transitions := transitions s |}.

Inductive Event : Type :=
| Elapse (ms : N)             (* time passes *)
| Input (name : string)       (* an event on the input surface *)
| Unmount.

(** Modelled from the spec: one step of the idle detector (the hook's
    source is missing).  Teardown cancels the pending timer and removes
    every listener. *)
Definition step (c : Config) (s : State) (ev : Event) : State :=
  match ev with
  | Elapse ms =>
      let t := now s + ms in
      match deadline s with
      | Some d => if N.leb d t then set_now t (deadline_fired s)
                  else set_now t s
      | None => set_now t s
      end
  | Input name =>
      if existsb (String.eqb name) (listeners s) then tracked_event c s
      else s
  | Unmount =>
      {| isIdle := isIdle s; now := now s; deadline := None;
         listeners := []; callbacks := callbacks s;
         transitions := transitions s |}
  end.

Definition run (c : Config) (s : State) (evs : list Event) : State :=
  fold_left (step c) evs s.

(** The time that passes during a list of events. *)
Fixpoint elapsed (evs : list Event) : N :=
  match evs with
  | [] => 0
  | Elapse ms :: rest => ms + elapsed rest
  | _ :: rest => elapsed rest
  end.

(** No tracked event and no teardown. *)
Definition no_activity (c : Config) (ev : Event) : bool :=
  match ev with
  | Elapse _ => true
  | Input name => negb (existsb (String.eqb name) (events c))
  | Unmount => false
  end.

End Idle.

(** ** Geolocation accessor

    The source of the geolocation accessor is not among the sources at
    hand; the definitions of this module follow section 4.2 of the
    specification. *)

Module Geolocation.

Record Coordinates : Type := {
  latitude : float;
  longitude : float;
  accuracy : float;
  altitude : option float;
  altitudeAccuracy : option float;
  heading : option float;
  speed : option float
}.

Record PositionError : Type := { code : nat; message : string }.

(** [GeolocationState] *)
Record GeolocationState : Type := {
  loading : bool;
  error : option PositionError;
  coordinates : option Coordinates
}.

Definition Disabled : GeolocationState :=
  {| loading := false; error := None; coordinates := None |}.

Definition Loading : GeolocationState :=
  {| loading := true; error := None; coordinates := None |}.

Definition Success (c : Coordinates) : GeolocationState :=
  {| loading := false; error := None; coordinates := Some c |}.

Definition Failure (e : PositionError) : GeolocationState :=
  {| loading := false; error := Some e; coordinates := None |}.

Definition unsupported_error : PositionError :=
  {| code := 0; message := "not supported" |}.

Record Options : Type := {
  enabled : bool;
  watch : bool;
  enableHighAccuracy : bool;
  timeout : N;
  maximumAge : N
}.

(** What the accessor asks of the platform. *)
Inductive Request : Type :=
| GetCurrentPosition (o : Options)
| WatchPosition (o : Options)
| ClearWatch.

Record Machine : Type := {
  interactive : bool;
  options : Options;
  state : GeolocationState;
  pending : bool;              (* a one-shot request is outstanding *)
  watching : bool;             (* a continuous subscription is open *)
  requests : list Request
}.

(** Modelled from the spec: the start of a request cycle (the accessor's
    source is missing).  Outside an interactive context an "unsupported"
    error is reported and nothing is requested; otherwise one position
    request or one continuous subscription is issued and the state is
    [Loading]. *)
Definition start (m : Machine) : Machine :=
  if interactive m then
    if watch (options m) then
      {| interactive := true; options := options m; state := Loading;
         pending := false; watching := true;
         requests := requests m ++ [WatchPosition (options m)] |}
    else
      {| interactive := true; options := options m; state := Loading;
         pending := true; watching := false;
         requests := requests m ++ [GetCurrentPosition (options m)] |}
  else
    {| interactive := false; options := options m;
       state := Failure unsupported_error;
       pending := false; watching := false; requests := requests m |}.

(** Modelled from the spec: cancellation (the accessor's source is
    missing).  Any state collapses to [Disabled]; an open subscription is
    released. *)
Definition cancel (m : Machine) : Machine :=
  {| interactive := interactive m; options := options m;
     state := Disabled; pending := false; watching := false;
     requests := if watching m then requests m ++ [ClearWatch]
                 else requests m |}.

Definition set_options (o : Options) (m : Machine) : Machine :=
  {| interactive := interactive m; options := o; state := state m;
     pending := pending m; watching := watching m;
     requests := requests m |}.

Definition publish (s : GeolocationState) (m : Machine) : Machine :=
  {| interactive := interactive m; options := options m; state := s;
     pending := false; watching := watching m; requests := requests m |}.

(** Modelled from the spec: mounting the accessor (its source is
    missing).  While [enabled] is false no request is issued and the
    state is [Disabled]. *)
Definition mount (inter : bool) (o : Options) : Machine :=
  let m := {| interactive := inter; options := o; state := Disabled;
              pending := false; watching := false; requests := [] |} in
  if enabled o then start m else m.

Inductive Event : Type :=
| Configure (o : Options)            (* re-render with these options *)
| Retry
| PlatformSuccess (c : Coordinates)  (* the platform's success callback *)
| PlatformError (e : PositionError)  (* the platform's error callback *)
| Unmount.

(** Modelled from the spec: one step of the accessor (its source is
    missing).  A platform callback that arrives when nothing is
    outstanding is ignored. *)
Definition step (m : Machine) (ev : Event) : Machine :=
  match ev with
  | Configure o =>
      if enabled o then
        if enabled (options m) then set_options o m
        else start (set_options o m)
      else set_options o (cancel m)
  | Retry =>
      if enabled (options m) then start (cancel m) else m
  | PlatformSuccess c =>
      if pending m || watching m then publish (Success c) m else m
  | PlatformError e =>
      if pending m || watching m then publish (Failure e) m else m
  | Unmount => cancel m
  end.

Definition run (m : Machine) (evs : list Event) : Machine :=
  fold_left step evs m.

(** What [useGeolocation] returns. *)
Definition useGeolocation (m : Machine) : GeolocationState := state m.

(** The event keeps [enabled] false. *)
Definition keeps_disabled (ev : Event) : bool :=
  match ev with
  | Configure o => negb (enabled o)
  | _ => true
  end.

End Geolocation.

(** ** Device/OS classifier

    The source of the classifier is not among the sources at hand; the
    definitions of this module follow section 4.5 of the specification,
    with the device names of the hook's documentation as patterns. *)

Module DeviceDetect.

Fixpoint contains (pat s : string) : bool :=
  String.prefix pat s
  || match s with
     | EmptyString => false
     | String _ rest => contains pat rest
     end.

Definition any_of (pats : list string) (ua : string) : bool :=
  existsb (fun p => contains p ua) pats.

Inductive DeviceClass : Type := Phone | Tablet | Desktop.

Inductive OS : Type := IOS | Android | Windows | MacOS | Linux | OtherOS.

(** Mobile phones: iPhone, iPod, Android phones. *)
Definition phone_pattern (ua : string) : bool :=
  any_of ["iPhone"; "iPod"] ua
  || (contains "Android" ua && contains "Mobile" ua).

(** Tablets: iPad, Android tablets. *)
Definition tablet_pattern (ua : string) : bool :=
  any_of ["iPad"; "Android"; "Tablet"] ua.

(** Modelled from the spec: the ordered category rules of the classifier
    (its source is missing): mobile-phone patterns are checked before
    tablet patterns, and what matches neither is a desktop. *)
Definition device_rules : list ((string -> bool) * DeviceClass) :=
  [(phone_pattern, Phone); (tablet_pattern, Tablet)].

(** Modelled from the spec: the ordered OS rules of the classifier (its
    source is missing); the phone and tablet systems come before the
    generic ones whose names their user agents also contain. *)
Definition os_rules : list ((string -> bool) * OS) :=
  [(any_of ["iPhone"; "iPad"; "iPod"], IOS);
   (contains "Android", Android);
   (contains "Windows", Windows);
   (any_of ["Macintosh"; "Mac OS X"], MacOS);
   (contains "Linux", Linux)].

(** The first rule that matches decides. *)
Fixpoint first_match {A : Type} (rules : list ((string -> bool) * A))
         (default : A) (ua : string) : A :=
  match rules with
  | [] => default
  | (p, a) :: rest => if p ua then a else first_match rest default ua
  end.

(** [DeviceDetectResult] *)
Record DeviceDetectResult : Type := {
  isMobile : bool;
  isTablet : bool;
  isDesktop : bool;
  isIOS : bool;
  isAndroid : bool;
  isWindows : bool;
  isMacOS : bool;
  isLinux : bool;
  isBrowser : bool;
  userAgent : string
}.

(** Modelled from the spec: the classifier (its source is missing), a
    function of the user-agent string alone. *)
Definition classify (ua : string) : DeviceDetectResult :=
  let d := first_match device_rules Desktop ua in
  let o := first_match os_rules OtherOS ua in
  {| isMobile := match d with Phone => true | _ => false end;
     isTablet := match d with Tablet => true | _ => false end;
     isDesktop := match d with Desktop => true | _ => false end;
     isIOS := match o with IOS => true | _ => false end;
     isAndroid := match o with Android => true | _ => false end;
     isWindows := match o with Windows => true | _ => false end;
     isMacOS := match o with MacOS => true | _ => false end;
     isLinux := match o with Linux => true | _ => false end;
     isBrowser := true;
     userAgent := ua |}.

(** The safe default outside an interactive context. *)
Definition ssr_default : DeviceDetectResult :=
  {| isMobile := false; isTablet := false; isDesktop := true;
     isIOS := false; isAndroid := false; isWindows := false;
     isMacOS := false; isLinux := false; isBrowser := false;
     userAgent := "" |}.

(** Modelled from the spec: [useDeviceDetect] (its source is missing).
    [ambient] is [navigator.userAgent] when there is a navigator. *)
Definition useDeviceDetect (ambient : option string)
           (override : option string) (ssrMode : bool)
  : DeviceDetectResult :=
  if ssrMode then ssr_default
  else match override, ambient with
       | Some ua, _ => classify ua
       | None, Some ua => classify ua
       | None, None => ssr_default
       end.

End DeviceDetect.

(* ===================================================================== *)
(** * Part II: properties *)
(* ===================================================================== *)

(** ** Callback identity *)

Module JsFacts.

Import Js.

Lemma callback_eqb_eq a b : callback_eqb a b = true -> a = b.
Proof.
  destruct a as [i t], b as [j u]. unfold callback_eqb. cbn.
  intros H. apply andb_prop in H. destruct H as [H1 H2].
  apply Nat.eqb_eq in H1. apply Bool.eqb_prop in H2. congruence.
Qed.

Lemma callback_eqb_refl a : callback_eqb a a = true.
Proof.
  destruct a as [i t]. unfold callback_eqb. cbn.
  rewrite Nat.eqb_refl, Bool.eqb_reflx. reflexivity.
Qed.

Lemma same_dep_eq a b : same_dep a b = true -> a = b.
Proof.
  destruct a, b; cbn; intros H; try discriminate; try reflexivity.
  f_equal. apply callback_eqb_eq, H.
Qed.

Lemma same_dep_refl a : same_dep a a = true.
Proof. destruct a; cbn; [apply callback_eqb_refl | reflexivity]. Qed.

End JsFacts.

Module NetworkSpeedFacts.

Import Js JsFacts NetworkSpeed.

Definition cb1 : Callback := {| cb_id := 1; cb_throws := false |}.
Definition cb2 : Callback := {| cb_id := 2; cb_throws := false |}.

Definition browser : Env :=
  {| window_defined := true; connection_in_navigator := true;
     nav_connection := Some 0; nav_mozConnection := None;
     nav_webkitConnection := None |}.

Definition wifi : Reading :=
  {| r_effectiveType := VString "4g"; r_downlink := VNumber 10%float;
     r_rtt := VNumber 50%float; r_saveData := VBool false |}.

Definition slow : Reading :=
  {| r_effectiveType := VString "2g"; r_downlink := VNumber 0.25%float;
     r_rtt := VNumber 1800%float; r_saveData := VBool true |}.

Example mount_reads_platform :
  useNetworkSpeed (mount browser (fun _ => wifi) (Some cb1))
  = snapshot_of wifi.
Proof. reflexivity. Qed.

Example notify_publishes :
  let w := step (mount browser (fun _ => wifi) (Some cb1)) (Notify 0 slow) in
  useNetworkSpeed w = snapshot_of slow
  /\ calls w = [(cb1, snapshot_of slow)].
Proof. split; reflexivity. Qed.

(** *** What one notification does *)

(** The world after [handleChange] ran under the platform's error
    reporting, given explicitly. *)
Definition after_handleChange (conn : ObjId) (w : World) : World :=
  let info := read_info (heap w conn) in
  {| env := env w; heap := heap w; networkInfo := info;
     onChangeRef := onChangeRef w; onChangeDep := onChangeDep w;
     effectCleanup := effectCleanup w;
     published := published w ++ [info];
     calls := calls w ++ match onChangeRef w with
                         | Some cb => [(cb, info)]
                         | None => []
                         end;
     console := console w;
     uncaught := uncaught w ++ match onChangeRef w with
                               | Some cb => if cb_throws cb
                                            then ["callback error"] else []
                               | None => []
                               end |}.

Lemma world_eta (w : World) :
  w = {| env := env w; heap := heap w; networkInfo := networkInfo w;
         onChangeRef := onChangeRef w; onChangeDep := onChangeDep w;
         effectCleanup := effectCleanup w; published := published w;
         calls := calls w; console := console w; uncaught := uncaught w |}.
Proof. destruct w; reflexivity. Qed.

Lemma report_handleChange (conn : ObjId) (w : World) :
  report (handleChange conn) w = (Eff.Normal tt, after_handleChange conn w).
Proof.
  destruct w as [e h ni r d c p cl co u].
  destruct r as [[id thr]|]; [destruct thr|];
    cbv [report handleChange Eff.try_catch Eff.bind Eff.gets setNetworkInfo
         call_onChangeRef invoke Eff.modify Eff.throw Eff.ret
         after_handleChange]; cbn; rewrite ?app_nil_r; reflexivity.
Qed.

Lemma dispatch_subscribed (o : ObjId) (w : World) :
  c_listeners (heap w o) = [("change", HandleChange o)] ->
  Eff.exec (dispatch o "change") w = after_handleChange o w.
Proof.
  intros Hl. unfold Eff.exec, dispatch, Eff.bind, Eff.gets.
  rewrite Hl. cbn. unfold Eff.bind. rewrite report_handleChange.
  reflexivity.
Qed.

Lemma dispatch_unsubscribed (o : ObjId) (w : World) :
  c_listeners (heap w o) = [] ->
  Eff.exec (dispatch o "change") w = w.
Proof.
  intros Hl. unfold Eff.exec, dispatch, Eff.bind, Eff.gets.
  rewrite Hl. reflexivity.
Qed.

(** *** The listener invariant

    At any time the only listener in the world is the one of the live
    subscription, on the object the subscription captured. *)
Definition expected_listeners (w : World) (o : ObjId)
  : EventTarget.registry Handler :=
  match effectCleanup w with
  | Some c => if Nat.eqb o c then [("change", HandleChange c)] else []
  | None => []
  end.

Definition listeners_ok (w : World) : Prop :=
  forall o, c_listeners (heap w o) = expected_listeners w o.

Lemma mount_listeners_ok e h cb : listeners_ok (mount e h cb).
Proof.
  intros o. unfold expected_listeners.
  destruct e as [wd cin c1 c2 c3].
  destruct wd, cin; try reflexivity;
    destruct c1 as [a|]; [| destruct c2 as [a|]; [| destruct c3 as [a|]]];
    cbn; unfold update_obj; try reflexivity;
    destruct (Nat.eqb o a); reflexivity.
Qed.

Lemma step_listeners_ok w ev : listeners_ok w -> listeners_ok (step w ev).
Proof.
  intros Hw o. destruct ev as [cb | o' r | ].
  - (* Render *)
    specialize (Hw o). unfold step, Eff.exec, handle, refresh_effect,
      Eff.bind, Eff.gets. cbn.
    destruct (negb (same_dep (onChangeDep w) cb)); cbn; exact Hw.
  - (* Notify *)
    unfold step, Eff.exec, handle, Eff.bind, Eff.modify.
    set (w1 := set_heap _ w).
    assert (H1 : listeners_ok w1).
    { intros o1. specialize (Hw o1). subst w1. unfold expected_listeners in *.
      cbn. unfold update_obj.
      destruct (Nat.eqb o1 o') eqn:E; [| exact Hw].
      apply Nat.eqb_eq in E. subst o1. cbn. exact Hw. }
    change (c_listeners (heap (Eff.exec (dispatch o' "change") w1) o)
            = expected_listeners (Eff.exec (dispatch o' "change") w1) o).
    pose proof (H1 o') as Ho'. unfold expected_listeners in Ho'.
    destruct (effectCleanup w1) as [c|] eqn:Ec.
    + destruct (Nat.eqb o' c) eqn:E.
      * apply Nat.eqb_eq in E. subst c.
        rewrite (dispatch_subscribed _ _ Ho').
        specialize (H1 o). unfold expected_listeners in *. cbn.
        exact H1.
      * rewrite (dispatch_unsubscribed _ _ Ho'). apply H1.
    + rewrite (dispatch_unsubscribed _ _ Ho'). apply H1.
  - (* Unmount *)
    pose proof (Hw o) as Ho. unfold expected_listeners in Ho.
    unfold step, Eff.exec, handle, run_cleanup, Eff.bind, Eff.gets.
    unfold expected_listeners.
    destruct (effectCleanup w) as [c|] eqn:Ec; cbn; [| rewrite Ec; exact Ho].
    unfold update_obj. destruct (Nat.eqb o c) eqn:E; [| exact Ho].
    apply Nat.eqb_eq in E. subst c. cbn.
    pose proof (Hw o) as Hoo. unfold expected_listeners in Hoo.
    rewrite Ec, Nat.eqb_refl in Hoo. rewrite Hoo. cbn.
    rewrite Nat.eqb_refl. reflexivity.
Qed.

Lemma run_listeners_ok evs : forall w,
  listeners_ok w -> listeners_ok (run w evs).
Proof.
  induction evs as [| ev evs IH]; intros w Hw; [exact Hw |].
  apply IH, step_listeners_ok, Hw.
Qed.

(** *** Steps, one by one *)

Definition stored (o : ObjId) (r : Reading) (w : World) : World :=
  set_heap (update_obj o (store r (heap w o)) (heap w)) w.

Lemma stored_listeners_ok o r w : listeners_ok w -> listeners_ok (stored o r w).
Proof.
  intros Hw o1. specialize (Hw o1). unfold expected_listeners in *.
  cbn. unfold update_obj.
  destruct (Nat.eqb o1 o) eqn:E; [| exact Hw].
  apply Nat.eqb_eq in E. subst o1. cbn. exact Hw.
Qed.

Lemma step_notify w o r :
  listeners_ok w ->
  step w (Notify o r) =
  match effectCleanup w with
  | Some c => if Nat.eqb o c then after_handleChange o (stored o r w)
              else stored o r w
  | None => stored o r w
  end.
Proof.
  intros Hw.
  pose proof (stored_listeners_ok o r w Hw o) as Ho.
  unfold expected_listeners in Ho.
  change (effectCleanup (stored o r w)) with (effectCleanup w) in Ho.
  change (step w (Notify o r))
    with (Eff.exec (dispatch o "change") (stored o r w)).
  destruct (effectCleanup w) as [c|].
  - destruct (Nat.eqb o c) eqn:E.
    + apply Nat.eqb_eq in E. subst c. apply dispatch_subscribed, Ho.
    + apply dispatch_unsubscribed, Ho.
  - apply dispatch_unsubscribed, Ho.
Qed.

Lemma step_unmount_cleanup w : effectCleanup (step w Unmount) = None.
Proof.
  unfold step, Eff.exec, handle, run_cleanup, Eff.bind, Eff.gets.
  destruct (effectCleanup w) eqn:E; cbn; [reflexivity | exact E].
Qed.

Lemma step_keeps_cleanup w ev :
  listeners_ok w -> ev <> Unmount ->
  effectCleanup (step w ev) = effectCleanup w.
Proof.
  intros Hw Hev. destruct ev as [cb | o r |]; [| | congruence].
  - unfold step, Eff.exec, handle, refresh_effect, Eff.bind, Eff.gets. cbn.
    destruct (negb (same_dep (onChangeDep w) cb)); reflexivity.
  - rewrite (step_notify w o r Hw).
    destruct (effectCleanup w) as [c|] eqn:Ec; [destruct (Nat.eqb o c) |];
      cbn; assumption.
Qed.

Lemma step_stays_unsubscribed w ev :
  listeners_ok w -> effectCleanup w = None ->
  effectCleanup (step w ev) = None.
Proof.
  intros Hw Hc. destruct ev as [cb | o r |].
  - rewrite step_keeps_cleanup by (assumption || discriminate). exact Hc.
  - rewrite step_keeps_cleanup by (assumption || discriminate). exact Hc.
  - apply step_unmount_cleanup.
Qed.

(** What the component shows and what its user and the platform observed. *)
Definition observed (w : World)
  : NetworkSpeedInfo * list NetworkSpeedInfo
    * list (Callback * NetworkSpeedInfo) * list string :=
  (networkInfo w, published w, calls w, uncaught w).

(** Once there is no subscription, nothing is published any more. *)
Lemma net_step_quiet w ev :
  listeners_ok w -> effectCleanup w = None ->
  observed (step w ev) = observed w.
Proof.
  intros Hw Hc. destruct ev as [cb | o r |].
  - unfold step, Eff.exec, handle, refresh_effect, Eff.bind, Eff.gets. cbn.
    destruct (negb (same_dep (onChangeDep w) cb)); reflexivity.
  - rewrite (step_notify w o r Hw), Hc. reflexivity.
  - unfold step, Eff.exec, handle, run_cleanup, Eff.bind, Eff.gets.
    rewrite Hc. reflexivity.
Qed.

Lemma net_run_quiet evs : forall w,
  listeners_ok w -> effectCleanup w = None ->
  observed (run w evs) = observed w /\ effectCleanup (run w evs) = None.
Proof.
  induction evs as [| ev evs IH]; intros w Hw Hc; [cbn; auto |].
  cbn [run fold_left]. fold (run (step w ev) evs).
  destruct (IH (step w ev) (step_listeners_ok w ev Hw)
               (step_stays_unsubscribed w ev Hw Hc)) as (I1 & I2).
  rewrite I1, (net_step_quiet w ev Hw Hc). auto.
Qed.

Lemma net_run_app w evs1 evs2 : run w (evs1 ++ evs2) = run (run w evs1) evs2.
Proof. apply fold_left_app. Qed.

Lemma run_keeps_cleanup evs : forall w,
  listeners_ok w -> ~ In Unmount evs ->
  effectCleanup (run w evs) = effectCleanup w.
Proof.
  induction evs as [| ev evs IH]; intros w Hw Hn; [reflexivity |].
  cbn [run fold_left]. fold (run (step w ev) evs).
  rewrite IH.
  - apply step_keeps_cleanup; [exact Hw |].
    intros ->. apply Hn. left. reflexivity.
  - apply step_listeners_ok, Hw.
  - intros Hin. apply Hn. right. exact Hin.
Qed.

Lemma mount_subscribes e h cb conn :
  window_defined e = true -> connection_in_navigator e = true ->
  select_conn e = Some conn ->
  effectCleanup (mount e h cb) = Some conn.
Proof.
  destruct e as [wd cin c1 c2 c3]. cbn. intros -> -> Hs.
  unfold mount, Eff.exec, first_render, initialState, subscribe_effect,
    Eff.bind, Eff.gets, Eff.try_catch. cbn.
  unfold select_conn in *. cbn in *.
  destruct c1 as [a|]; [| destruct c2 as [a|]; [| destruct c3 as [a|]]];
    cbn; congruence.
Qed.

(** Without the platform feature the subscription effect returns
    early. *)
Lemma net_mount_without_feature e h cb :
  window_defined e = false \/ connection_in_navigator e = false ->
  first_render cb (blank e (fun o => fresh (h o)))
  = (Eff.Normal tt,
     {| env := e; heap := fun o => fresh (h o); networkInfo := defaultInfo;
        onChangeRef := cb; onChangeDep := cb; effectCleanup := None;
        published := []; calls := []; console := []; uncaught := [] |}).
Proof.
  destruct e as [wd cin c1 c2 c3]. cbn.
  intros [-> | ->]; [| destruct wd]; reflexivity.
Qed.

(** *** The ref follows the renders *)

Definition ref_current (w : World) (cb : option Callback) : Prop :=
  onChangeRef w = cb /\ onChangeDep w = cb.

Lemma net_mount_ref e h cb : ref_current (mount e h cb) cb.
Proof.
  destruct e as [wd cin c1 c2 c3].
  destruct wd, cin; try (split; reflexivity);
    destruct c1 as [a|]; [| destruct c2 as [a|]; [| destruct c3 as [a|]]];
    split; reflexivity.
Qed.

Lemma net_step_ref w ev cb :
  listeners_ok w -> ref_current w cb ->
  ref_current (step w ev) (latest_onChange cb [ev]).
Proof.
  intros Hw [Hr Hd]. destruct ev as [cb' | o r |]; cbn [latest_onChange fold_left].
  - unfold step, Eff.exec, handle, refresh_effect, Eff.bind, Eff.gets. cbn.
    destruct (same_dep (onChangeDep w) cb') eqn:E; cbn.
    + apply same_dep_eq in E. split; congruence.
    + split; reflexivity.
  - rewrite (step_notify w o r Hw).
    destruct (effectCleanup w) as [c|]; [destruct (Nat.eqb o c) |];
      split; assumption.
  - unfold step, Eff.exec, handle, run_cleanup, Eff.bind, Eff.gets.
    destruct (effectCleanup w); split; assumption.
Qed.

Lemma net_latest_onChange_app cb evs1 evs2 :
  latest_onChange cb (evs1 ++ evs2)
  = latest_onChange (latest_onChange cb evs1) evs2.
Proof. apply fold_left_app. Qed.

Lemma net_run_ref evs : forall w cb,
  listeners_ok w -> ref_current w cb ->
  ref_current (run w evs) (latest_onChange cb evs).
Proof.
  induction evs as [| ev evs IH]; intros w cb Hw Hr; [exact Hr |].
  change (ev :: evs) with ([ev] ++ evs).
  rewrite net_latest_onChange_app, net_run_app.
  apply IH; [apply step_listeners_ok, Hw | apply net_step_ref; assumption].
Qed.

(** Every call made during a step goes to the callback the ref holds. *)
Definition made_with (cb : option Callback)
           (l : list (Callback * NetworkSpeedInfo)) : Prop :=
  Forall (fun c => cb = Some (fst c)) l.

Lemma net_step_calls w ev :
  listeners_ok w ->
  exists l, calls (step w ev) = calls w ++ l
            /\ made_with (onChangeRef w) l.
Proof.
  intros Hw.
  assert (Hnil : forall w', calls w' = calls w ->
            exists l, calls w' = calls w ++ l
                      /\ made_with (onChangeRef w) l).
  { intros w' E. exists []. rewrite app_nil_r. split; [exact E | constructor]. }
  destruct ev as [cb | o r |].
  - apply Hnil.
    unfold step, Eff.exec, handle, refresh_effect, Eff.bind, Eff.gets. cbn.
    destruct (negb (same_dep (onChangeDep w) cb)); reflexivity.
  - rewrite (step_notify w o r Hw).
    destruct (effectCleanup w) as [c|]; [destruct (Nat.eqb o c) |];
      try (apply Hnil; reflexivity).
    cbn. eexists. split; [reflexivity |].
    destruct (onChangeRef w); repeat constructor.
  - apply Hnil.
    unfold step, Eff.exec, handle, run_cleanup, Eff.bind, Eff.gets.
    destruct (effectCleanup w); reflexivity.
Qed.

(** *** The subscription, from the history *)

Definition is_unmount (ev : Event) : bool :=
  match ev with Unmount => true | _ => false end.

Definition no_unmount (evs : list Event) : Prop :=
  Forall (fun ev => is_unmount ev = false) evs.

Lemma no_unmount_not_in evs : no_unmount evs -> ~ In Unmount evs.
Proof.
  intros Hn Hin. unfold no_unmount in Hn. rewrite Forall_forall in Hn.
  specialize (Hn Unmount Hin). discriminate.
Qed.

(** In a browser that has a connection object, and until the teardown,
    the hook is subscribed to the object it selected. *)
Lemma subscribed e h cb evs conn :
  window_defined e = true -> connection_in_navigator e = true ->
  select_conn e = Some conn -> no_unmount evs ->
  effectCleanup (run (mount e h cb) evs) = Some conn.
Proof.
  intros Hw Hc Hs Hn.
  rewrite run_keeps_cleanup.
  - apply mount_subscribes; assumption.
  - apply mount_listeners_ok.
  - apply no_unmount_not_in, Hn.
Qed.

Lemma reachable_ok e h cb evs : listeners_ok (run (mount e h cb) evs).
Proof. apply run_listeners_ok, mount_listeners_ok. Qed.

(** The attribute values of an object after a history. *)
Lemma stored_reading o r w :
  read_info (heap (stored o r w) o) = snapshot_of r.
Proof.
  unfold stored, read_info, snapshot_of. cbn. unfold update_obj.
  rewrite Nat.eqb_refl. reflexivity.
Qed.

(** What a field of the snapshot must be for an attribute value [v] of the
    platform object: [v] itself, unless [v] is [undefined], [null],
    [false], a zero, [NaN] or the empty string, which give the field's
    default [d]. *)
Definition reading_or (v d : value) : value :=
  match v with
  | VUndefined => d
  | VNull => d
  | VBool true => v
  | VBool false => d
  | VNumber x =>
      if PrimFloat.eqb x PrimFloat.zero then d
      else if PrimFloat.eqb x x then v else d
  | VString EmptyString => d
  | VString (String _ _) => v
  end.

Lemma or_reading_or v d : Js.or v d = reading_or v d.
Proof.
  destruct v as [| | [|] | x | [| a s]]; try reflexivity.
  unfold Js.or, truthy, reading_or, PrimFloat.is_zero, PrimFloat.is_nan.
  destruct (PrimFloat.eqb x PrimFloat.zero); [reflexivity |].
  destruct (PrimFloat.eqb x x); reflexivity.
Qed.

(** The snapshot a reading must give, field by field. *)
Definition expected_snapshot (r : Reading) : NetworkSpeedInfo :=
  {| effectiveType := reading_or (r_effectiveType r) (VString "unknown");
     downlink := reading_or (r_downlink r) (VNumber PrimFloat.zero);
     rtt := reading_or (r_rtt r) (VNumber PrimFloat.zero);
     saveData := reading_or (r_saveData r) (VBool false) |}.

Lemma snapshot_of_expected r : snapshot_of r = expected_snapshot r.
Proof.
  unfold snapshot_of, expected_snapshot. rewrite !or_reading_or. reflexivity.
Qed.

(** A change notification on the object the hook is subscribed to. *)
Lemma notify_subscribed e h cb evs conn r :
  window_defined e = true -> connection_in_navigator e = true ->
  select_conn e = Some conn -> ~ In Unmount evs ->
  let w := run (mount e h cb) evs in
  let w' := step w (Notify conn r) in
  networkInfo w' = snapshot_of r
  /\ published w' = published w ++ [snapshot_of r]
  /\ calls w' = calls w ++ match latest_onChange cb evs with
                           | Some f => [(f, snapshot_of r)]
                           | None => []
                           end
  /\ uncaught w' = uncaught w ++ match latest_onChange cb evs with
                                 | Some f => if cb_throws f
                                             then ["callback error"] else []
                                 | None => []
                                 end
  /\ effectCleanup w' = Some conn.
Proof.
  intros Hw Hc Hs Hn w w'.
  assert (Hsub : effectCleanup w = Some conn).
  { unfold w. rewrite run_keeps_cleanup.
    - apply mount_subscribes; assumption.
    - apply mount_listeners_ok.
    - exact Hn. }
  pose proof (reachable_ok e h cb evs) as Hok. fold w in Hok.
  destruct (net_run_ref evs (mount e h cb) cb (mount_listeners_ok e h cb)
              (net_mount_ref e h cb)) as [Href _].
  fold w in Href.
  subst w'. rewrite (step_notify w conn r Hok), Hsub, Nat.eqb_refl.
  unfold after_handleChange.
  cbn [networkInfo published calls uncaught onChangeRef effectCleanup
       stored set_heap].
  rewrite stored_reading, Href, Hsub. repeat split.
Qed.

End NetworkSpeedFacts.

Module BatteryFacts.

Import Js JsFacts Battery.

Definition cb1 : Callback := {| cb_id := 1; cb_throws := false |}.
Definition cb2 : Callback := {| cb_id := 2; cb_throws := false |}.

Definition browser : Env :=
  {| window_defined := true; getBattery_in_navigator := true;
     getBattery := GetBatteryPromise |}.

Definition server : Env :=
  {| window_defined := false; getBattery_in_navigator := false;
     getBattery := GetBatteryPromise |}.

Definition half : Reading :=
  {| r_level := VNumber 0.5%float; r_charging := VBool true;
     r_chargingTime := VNumber 1200%float;
     r_dischargingTime := VNumber PrimFloat.infinity |}.

Definition low : Reading :=
  {| r_level := VNumber 0.125%float; r_charging := VBool false;
     r_chargingTime := VNumber PrimFloat.infinity;
     r_dischargingTime := VNumber 900%float |}.

Definition half_status : BatteryStatus :=
  {| level := 0.5%float; charging := true; chargingTime := 1200%float;
     dischargingTime := PrimFloat.infinity; supported := true |}.

Definition low_status : BatteryStatus :=
  {| level := 0.125%float; charging := false;
     chargingTime := PrimFloat.infinity; dischargingTime := 900%float;
     supported := true |}.

Example mounted_waits :
  let w := mount browser half true (Some cb1) in
  useBattery w = unsupported /\ b_listeners (battery w) = []
  /\ awaiting (act w) = true.
Proof. repeat split. Qed.

Example resolved_publishes :
  let w := run (mount browser half true (Some cb1))
               [Settle (Fulfill RBattery)] in
  useBattery w = half_status
  /\ b_listeners (battery w) = four_listeners
  /\ calls (log w) = [(cb1, half_status)].
Proof. repeat split. Qed.

Example event_publishes :
  let w := run (mount browser half true (Some cb1))
               [Settle (Fulfill RBattery); BatteryEvent "levelchange" low] in
  useBattery w = low_status
  /\ calls (log w) = [(cb1, half_status); (cb1, low_status)].
Proof. repeat split. Qed.

Example unmount_removes :
  let w := run (mount browser half true (Some cb1))
               [Settle (Fulfill RBattery); Unmount;
                BatteryEvent "levelchange" low] in
  useBattery w = half_status
  /\ b_listeners (battery w) = []
  /\ calls (log w) = [(cb1, half_status)].
Proof. repeat split. Qed.

Example late_resolution :
  let w := run (mount browser half true (Some cb1))
               [Unmount; Settle (Fulfill RBattery);
                BatteryEvent "levelchange" low] in
  useBattery w = unsupported
  /\ b_listeners (battery w) = []
  /\ published (log w) = [] /\ calls (log w) = [].
Proof. repeat split. Qed.

Example rejection_degrades :
  let w := run (mount browser half true (Some cb1))
               [Settle (Reject "NotAllowedError")] in
  useBattery w = unsupported
  /\ console (log w) = [("Error accessing battery status:", "NotAllowedError")]
  /\ cleanup (act w) = Fulfilled None
  /\ uncaught (log w) = [].
Proof. repeat split. Qed.

Example not_an_event_target :
  let w := run (mount browser half false (Some cb1))
               [Settle (Fulfill RBattery)] in
  useBattery w = unsupported
  /\ published (log w) = [half_status; unsupported]
  /\ b_listeners (battery w) = [].
Proof. repeat split. Qed.

(** *** The activation invariant *)

#[local] Arguments newStatus : simpl never.

(** The four listeners are registered exactly while [initBattery] has
    handed out its cleanup closure and teardown has not started. *)
Definition listening (w : World) : bool :=
  match cleanup (act w), reaction (act w) with
  | Fulfilled (Some _), NoReaction => true
  | _, _ => false
  end.

Record inv (w : World) : Prop := {
  inv_listeners :
    b_listeners (battery w) = if listening w then four_listeners else [];
  inv_target : listening w = true ->
               b_eventTarget (battery w) = true /\ mounted (act w) = true;
  inv_mounted : mounted (act w) = effectCleanup (act w);
  inv_reaction : mounted (act w) = true -> reaction (act w) = NoReaction;
  inv_awaiting : awaiting (act w) = true -> cleanup (act w) = Pending;
  inv_registered : reaction (act w) = Registered -> awaiting (act w) = true;
  inv_pending : cleanup (act w) = Pending -> awaiting (act w) = false ->
                effectCleanup (act w) = false;
  inv_rejected : forall e, cleanup (act w) <> Rejected e;
  inv_waiting : awaiting (act w) = true ->
                published (log w) = [] /\ calls (log w) = []
                /\ batteryStatus (hook w) = unsupported
                /\ console (log w) = [] /\ uncaught (log w) = []
}.

Lemma invalid_prim v :
  negb (truthy_r (RPrim v)) || negb (is_object (typeof_r (RPrim v))) = true.
Proof. destruct v; cbn; rewrite ?orb_true_r; reflexivity. Qed.

Lemma mount_inv e r t cb : inv (mount e r t cb).
Proof.
  destruct e as [wd gin [err|]]; destruct wd, gin;
    split; cbn; try reflexivity; try congruence; try discriminate; auto.
Qed.

(** The world after a battery listener ran under the platform's error
    reporting. *)
Definition after_update (w : World) : World :=
  if mounted (act w) then
    let status := newStatus RBattery w in
    {| env := env w; battery := battery w;
       hook := {| batteryStatus := status;
                  onChangeRef := onChangeRef (hook w);
                  onChangeDep := onChangeDep (hook w);
                  batteryRef := batteryRef (hook w) |};
       act := act w;
       log := {| published := published (log w) ++ [status];
                 calls := calls (log w) ++
                          match onChangeRef (hook w) with
                          | Some cb => [(cb, status)]
                          | None => []
                          end;
                 console := console (log w);
                 uncaught := uncaught (log w) ++
                             match onChangeRef (hook w) with
                             | Some cb => if cb_throws cb
                                          then ["callback error"] else []
                             | None => []
                             end |} |}
  else w.

Lemma report_update (h : Handler) (w : World) :
  report (run_handler h) w = (Eff.Normal tt, after_update w).
Proof.
  destruct w as [e b hk a l]. destruct a as [m aw c r ec].
  destruct hk as [st ref dep bref]. destruct l as [pub cl co un].
  unfold after_update.
  destruct h, m, ref as [[id []]|]; cbn; rewrite ?app_nil_r; reflexivity.
Qed.

Fixpoint updates (n : nat) (w : World) : World :=
  match n with
  | O => w
  | S k => updates k (after_update w)
  end.

Lemma run_all_updates (hs : list Handler) : forall w,
  run_all hs w = (Eff.Normal tt, updates (List.length hs) w).
Proof.
  induction hs as [| h hs IH]; intros w; [reflexivity |].
  cbn [run_all List.length updates]. unfold Eff.bind.
  rewrite report_update. apply IH.
Qed.

Lemma resume_invalid v w :
  Eff.try_catch (after_await (Fulfill (RPrim v))) on_error w
  = on_error "Invalid battery object" w.
Proof.
  unfold Eff.try_catch, after_await, awaited, Eff.bind, Eff.ret.
  rewrite invalid_prim. reflexivity.
Qed.

Lemma step_settle w s :
  step w (Settle s) =
  if awaiting (act w) then
    Eff.exec microtasks
      (Eff.exec (settle_cleanup (Eff.try_catch (after_await s) on_error))
         (with_act (set_awaiting false) w))
  else w.
Proof.
  unfold step, Eff.exec, handle, initBattery_resume, Eff.bind, Eff.gets,
    Eff.modify.
  destruct (awaiting (act w)); [| reflexivity].
  unfold settle_cleanup.
  destruct (Eff.try_catch (after_await s) on_error _) as [[r|e] w'];
    reflexivity.
Qed.

Lemma step_event w type rd :
  step w (BatteryEvent type rd) =
  Eff.exec microtasks
    (updates (List.length (EventTarget.listeners_for type
                             (b_listeners (battery w))))
       (with_battery (store rd) w)).
Proof.
  unfold step, Eff.exec, handle, dispatch, Eff.bind, Eff.modify, Eff.get.
  rewrite run_all_updates. reflexivity.
Qed.

Lemma microtasks_idle w :
  inv w -> microtasks w = (Eff.Normal tt, w).
Proof.
  intros [Hl Ht Hm Hr Ha Hg Hp Hj Hw].
  unfold microtasks, Eff.bind, Eff.get.
  destruct (reaction (act w)) eqn:Er; try reflexivity.
  rewrite (Ha (Hg eq_refl)). reflexivity.
Qed.

Lemma store_inv rd w : inv w -> inv (with_battery (store rd) w).
Proof. intros [Hl Ht Hm Hr Ha Hg Hp Hj Hw]. split; assumption. Qed.

Lemma after_update_inv w :
  inv w -> awaiting (act w) = false -> inv (after_update w).
Proof.
  intros [Hl Ht Hm Hr Ha Hg Hp Hj Hw] Hna. unfold after_update.
  destruct (mounted (act w)) eqn:Em; split; try assumption;
    cbn; try assumption; try (intros; congruence); auto;
    intros HH; destruct (Ht HH); split; congruence.
Qed.

Lemma after_update_act w : act (after_update w) = act w.
Proof. unfold after_update. destruct (mounted (act w)); reflexivity. Qed.

Lemma updates_inv n : forall w,
  inv w -> awaiting (act w) = false -> inv (updates n w).
Proof.
  induction n as [| n IH]; intros w Hi Hna; [exact Hi |].
  cbn [updates]. apply IH; [apply after_update_inv; assumption |].
  rewrite after_update_act. exact Hna.
Qed.

Lemma waiting_no_listeners w :
  inv w -> awaiting (act w) = true -> b_listeners (battery w) = [].
Proof.
  intros [Hl Ht Hm Hr Ha Hg Hp Hj Hw] Haw. rewrite Hl.
  unfold listening. rewrite (Ha Haw). reflexivity.
Qed.

(** The world a step leaves behind, evaluated once. *)
Ltac evaluate_world :=
  match goal with
  | |- inv ?W =>
      let W' := eval vm_compute in W in
      let H := fresh "Hworld" in
      assert (H : W = W') by (vm_compute; reflexivity);
      rewrite H; clear H
  end.

Lemma step_inv w ev : inv w -> inv (step w ev).
Proof.
  intros Hi.
  assert (He : forall type rd, inv (step w (BatteryEvent type rd))).
  { intros type rd. rewrite step_event.
    assert (H1 : inv (updates
               (List.length (EventTarget.listeners_for type
                               (b_listeners (battery w))))
               (with_battery (store rd) w))).
    { destruct (awaiting (act w)) eqn:Haw.
      - rewrite (waiting_no_listeners w Hi Haw). cbn.
        apply store_inv, Hi.
      - apply updates_inv; [apply store_inv, Hi | exact Haw]. }
    unfold Eff.exec. rewrite (microtasks_idle _ H1). exact H1. }
  destruct Hi as [Hl Ht Hm Hr Ha Hg Hp Hj Hw].
  destruct w as [e b h a l]. destruct a as [m aw c r ec].
  destruct b as [bl bc bct bdt et ls]. destruct h as [st ref dep bref].
  destruct l as [pub cl co un].
  cbn in *. subst ec.
  destruct ev as [cb | s | type rd |].
  - unfold step, Eff.exec, handle, refresh_effect, Eff.bind, Eff.gets. cbn.
    destruct (negb (same_dep dep cb)); cbn; split; cbn; auto.
  - destruct aw; [| cbn; split; cbn; auto].
    specialize (Ha eq_refl).
    destruct (Hw eq_refl) as (E1 & E2 & E3 & E4 & E5).
    subst c pub cl st co un.
    cbn in Hl. subst ls. clear Ht Hp Hj Hw.
    destruct s as [[v|]|err].
    + rewrite step_settle. cbn [awaiting act].
      unfold settle_cleanup, Eff.exec. rewrite resume_invalid.
      destruct m, r; try (specialize (Hr eq_refl); discriminate);
        evaluate_world;
        split; cbn; auto; try congruence; try discriminate.
    + destruct m, r, et, ref as [[id []]|];
        try (specialize (Hr eq_refl); discriminate);
        evaluate_world;
        split; cbn; auto; try congruence; try discriminate.
    + destruct m, r; try (specialize (Hr eq_refl); discriminate);
        evaluate_world;
        split; cbn; auto; try congruence; try discriminate.
  - apply He.
  - clear He.
    destruct m, aw, r, c as [|[[]|]|e'];
      cbn in Hl, Ht, Hr, Ha, Hg, Hp, Hj, Hw;
      try (specialize (Hj e'); congruence);
      try (specialize (Hr eq_refl); discriminate);
      try (specialize (Ha eq_refl); discriminate);
      try (specialize (Hg eq_refl); discriminate);
      try (specialize (Hp eq_refl eq_refl); discriminate);
      try (destruct (Ht eq_refl) as [Ht1 Ht2]); subst;
      evaluate_world;
      split; cbn; auto; try congruence; try discriminate.
Qed.

Lemma run_inv evs : forall w, inv w -> inv (run w evs).
Proof.
  induction evs as [| ev evs IH]; intros w Hi; [exact Hi |].
  apply IH, step_inv, Hi.
Qed.

Lemma bat_run_app w evs1 evs2 : run w (evs1 ++ evs2) = run (run w evs1) evs2.
Proof. apply fold_left_app. Qed.

(** *** After teardown *)

Lemma after_update_unmounted w :
  mounted (act w) = false -> after_update w = w.
Proof. intros H. unfold after_update. rewrite H. reflexivity. Qed.

Lemma updates_unmounted n : forall w,
  mounted (act w) = false -> updates n w = w.
Proof.
  induction n as [| n IH]; intros w H; [reflexivity |].
  cbn [updates]. rewrite after_update_unmounted by exact H. apply IH, H.
Qed.

Lemma step_unmount_unmounted w :
  inv w -> mounted (act (step w Unmount)) = false.
Proof.
  intros [Hl Ht Hm Hr Ha Hg Hp Hj Hw].
  destruct w as [e b h a l]. destruct a as [m aw c r ec].
  destruct b as [bl bc bct bdt et ls].
  cbn in *. subst ec.
  destruct m, r, c as [|[[]|]|e'], et; reflexivity.
Qed.

(** What the component shows and what its user observed. *)
Definition observed (w : World)
  : BatteryStatus * list BatteryStatus * list (Callback * BatteryStatus)
    * list string :=
  (batteryStatus (hook w), published (log w), calls (log w),
   uncaught (log w)).

Lemma step_unmount_observed w :
  inv w -> observed (step w Unmount) = observed w.
Proof.
  intros [Hl Ht Hm Hr Ha Hg Hp Hj Hw].
  destruct w as [e b h a l]. destruct a as [m aw c r ec].
  destruct b as [bl bc bct bdt et ls].
  cbn in Hl, Ht, Hm, Hr, Ha, Hg, Hp, Hj, Hw. subst ec.
  destruct m, r, c as [|[[]|]|e'];
    try reflexivity;
    try (specialize (Hr eq_refl); discriminate);
    try (exfalso; apply (Hj e'); reflexivity);
    try (specialize (Ha (Hg eq_refl)); discriminate).
  destruct (Ht eq_refl) as [-> _]. reflexivity.
Qed.

Lemma bat_step_quiet w ev :
  inv w -> mounted (act w) = false ->
  observed (step w ev) = observed w
  /\ mounted (act (step w ev)) = false.
Proof.
  intros Hi Hu. destruct ev as [cb | s | type rd |].
  - unfold step, Eff.exec, handle, refresh_effect, Eff.bind, Eff.gets. cbn.
    destruct (negb (same_dep (onChangeDep (hook w)) cb)); cbn; auto.
  - rewrite step_settle. destruct (awaiting (act w)) eqn:Haw; [| auto].
    destruct Hi as [Hl Ht Hm Hr Ha Hg Hp Hj Hw].
    destruct w as [e b h a l]. destruct a as [m aw c r ec].
    cbn in *. subst. specialize (Ha eq_refl). subst c.
    destruct s as [[v|]|err].
    + unfold settle_cleanup, Eff.exec. rewrite resume_invalid.
      destruct r; cbn; auto.
    + destruct r; cbn; auto.
    + destruct r; cbn; auto.
  - rewrite step_event, updates_unmounted by exact Hu.
    unfold Eff.exec. rewrite (microtasks_idle _ (store_inv rd w Hi)).
    cbn. auto.
  - destruct Hi as [Hl Ht Hm Hr Ha Hg Hp Hj Hw].
    destruct w as [e b h a l]. destruct a as [m aw c r ec].
    cbn in *. subst.
    destruct r, c as [|[[]|]|e']; cbn; auto;
      specialize (Ha (Hg eq_refl)); discriminate.
Qed.

Lemma bat_run_quiet evs : forall w,
  inv w -> mounted (act w) = false ->
  observed (run w evs) = observed w
  /\ mounted (act (run w evs)) = false.
Proof.
  induction evs as [| ev evs IH]; intros w Hi Hu; [auto |].
  destruct (bat_step_quiet w ev Hi Hu) as [H1 H2].
  destruct (IH (step w ev) (step_inv w ev Hi) H2) as [I1 I2].
  cbn [run fold_left]. fold (run (step w ev) evs).
  rewrite I1, H1. auto.
Qed.

Lemma unmounted_no_listeners w :
  inv w -> mounted (act w) = false -> b_listeners (battery w) = [].
Proof.
  intros [Hl Ht Hm Hr Ha Hg Hp Hj Hw] Hu. rewrite Hl.
  destruct (listening w); [| reflexivity].
  destruct (Ht eq_refl) as [_ H]. congruence.
Qed.

Lemma listeners_cases w :
  inv w ->
  b_listeners (battery w) = four_listeners \/ b_listeners (battery w) = [].
Proof.
  intros [Hl _ _ _ _ _ _ _ _]. rewrite Hl.
  destruct (listening w); auto.
Qed.

(** *** Before the promise settles *)

Lemma updates_act n : forall w, act (updates n w) = act w.
Proof.
  induction n as [| n IH]; intros w; [reflexivity |].
  cbn [updates]. rewrite IH. apply after_update_act.
Qed.

Lemma step_keeps_promise w ev :
  inv w -> is_settle ev = false ->
  cleanup (act (step w ev)) = cleanup (act w)
  /\ awaiting (act (step w ev)) = awaiting (act w).
Proof.
  intros Hi Hs. destruct ev as [cb | s | type rd |]; [| discriminate | |].
  - unfold step, Eff.exec, handle, refresh_effect, Eff.bind, Eff.gets. cbn.
    destruct (negb (same_dep (onChangeDep (hook w)) cb)); cbn; auto.
  - rewrite step_event.
    set (n := List.length _).
    assert (Hu : act (updates n (with_battery (store rd) w)) = act w)
      by (rewrite updates_act; reflexivity).
    assert (Hn : inv (updates n (with_battery (store rd) w))).
    { destruct (awaiting (act w)) eqn:Haw.
      - subst n. rewrite (waiting_no_listeners w Hi Haw). cbn.
        apply store_inv, Hi.
      - apply updates_inv; [apply store_inv, Hi | exact Haw]. }
    unfold Eff.exec. rewrite (microtasks_idle _ Hn). cbn [snd].
    rewrite Hu. auto.
  - destruct Hi as [Hl Ht Hm Hr Ha Hg Hp Hj Hw].
    destruct w as [e b h a l]. destruct a as [m aw c r ec].
    destruct b as [bl bc bct bdt et ls].
    cbn in *. subst.
    destruct ec, r, c as [|[[]|]|e'], et; cbn; auto;
      try (specialize (Hr eq_refl); discriminate);
      try (destruct (Ht eq_refl); discriminate).
Qed.

Definition no_settle (evs : list Event) : Prop :=
  Forall (fun ev => is_settle ev = false) evs.

Lemma run_keeps_promise evs : forall w,
  inv w -> no_settle evs ->
  cleanup (act (run w evs)) = cleanup (act w)
  /\ awaiting (act (run w evs)) = awaiting (act w).
Proof.
  induction evs as [| ev evs IH]; intros w Hi Hn; [auto |].
  inversion Hn as [| ? ? Hev Hrest]; subst.
  destruct (step_keeps_promise w ev Hi Hev) as [H1 H2].
  destruct (IH (step w ev) (step_inv w ev Hi) Hrest) as [I1 I2].
  cbn [run fold_left]. fold (run (step w ev) evs).
  rewrite I1, I2. auto.
Qed.


Lemma mount_awaiting e r t cb :
  window_defined e = true -> getBattery_in_navigator e = true ->
  getBattery e = GetBatteryPromise ->
  awaiting (act (mount e r t cb)) = true
  /\ mounted (act (mount e r t cb)) = true.
Proof.
  destruct e as [wd gin g]. cbn. intros -> -> ->. split; reflexivity.
Qed.

(** *** Failure of the platform call *)

(** The awaited promise is rejected, or fulfilled with something that
    fails the validation [!battery || typeof battery !== 'object']. *)
Definition rejected_or_invalid (s : Settlement) : bool :=
  match s with
  | Reject _ => true
  | Fulfill (RPrim _) => true
  | Fulfill RBattery => false
  end.

Definition warning : string := "Error accessing battery status:".


(** The error a failed settlement raises inside [initBattery]. *)
Definition settle_error (s : Settlement) : string :=
  match s with
  | Reject err => err
  | Fulfill _ => "Invalid battery object"
  end.

Lemma settle_failure w s :
  inv w -> awaiting (act w) = true -> rejected_or_invalid s = true ->
  let w' := step w (Settle s) in
  batteryStatus (hook w') = unsupported
  /\ console (log w') = console (log w) ++ [(warning, settle_error s)]
  /\ cleanup (act w') = Fulfilled None
  /\ uncaught (log w') = uncaught (log w).
Proof.
  intros Hi Haw Hs. cbv zeta. rewrite step_settle, Haw.
  destruct Hi as [Hl Ht Hm Hr Ha Hg Hp Hj Hw].
  destruct (Hw Haw) as (_ & _ & Hst & Hco & Hun).
  destruct w as [e b h a l]. destruct a as [m aw c r ec].
  cbn in *. subst.
  destruct s as [[v|]|err]; [| discriminate |].
  - unfold settle_cleanup, Eff.exec. rewrite resume_invalid.
    destruct ec, r; cbn; repeat split; auto.
  - destruct ec, r; cbn; repeat split; auto.
Qed.

Lemma mount_sync_throw e r t cb err :
  window_defined e = true -> getBattery_in_navigator e = true ->
  getBattery e = GetBatteryThrows err ->
  let w := mount e r t cb in
  batteryStatus (hook w) = unsupported
  /\ console (log w) = [(warning, err)]
  /\ cleanup (act w) = Fulfilled None
  /\ uncaught (log w) = [].
Proof.
  destruct e as [wd gin g]. cbn. intros -> -> ->. repeat split.
Qed.

(** Once [initBattery] has given up, the state stays where it is. *)
Lemma step_failed w ev :
  inv w -> cleanup (act w) = Fulfilled None ->
  batteryStatus (hook (step w ev)) = batteryStatus (hook w)
  /\ console (log (step w ev)) = console (log w)
  /\ uncaught (log (step w ev)) = uncaught (log w)
  /\ cleanup (act (step w ev)) = Fulfilled None.
Proof.
  intros Hi Hc.
  assert (Hnl : b_listeners (battery w) = []).
  { destruct Hi as [Hl _ _ _ _ _ _ _ _]. rewrite Hl. unfold listening.
    rewrite Hc. reflexivity. }
  assert (Hna : awaiting (act w) = false).
  { destruct Hi as [_ _ _ _ Ha _ _ _ _].
    destruct (awaiting (act w)); [| reflexivity].
    rewrite (Ha eq_refl) in Hc. discriminate. }
  destruct ev as [cb | s | type rd |].
  - unfold step, Eff.exec, handle, refresh_effect, Eff.bind, Eff.gets. cbn.
    destruct (negb (same_dep (onChangeDep (hook w)) cb)); cbn; auto.
  - rewrite step_settle, Hna. auto.
  - rewrite step_event, Hnl. cbn [EventTarget.listeners_for filter map
                                   List.length updates].
    unfold Eff.exec. rewrite (microtasks_idle _ (store_inv rd w Hi)).
    cbn. auto.
  - destruct w as [e b h a l]. destruct a as [m aw c r ec].
    cbn in *. subst.
    destruct ec, r; cbn; auto.
Qed.

Lemma run_failed evs : forall w,
  inv w -> cleanup (act w) = Fulfilled None ->
  batteryStatus (hook (run w evs)) = batteryStatus (hook w)
  /\ console (log (run w evs)) = console (log w)
  /\ uncaught (log (run w evs)) = uncaught (log w)
  /\ cleanup (act (run w evs)) = Fulfilled None.
Proof.
  induction evs as [| ev evs IH]; intros w Hi Hc; [auto |].
  destruct (step_failed w ev Hi Hc) as (H1 & H2 & H3 & H4).
  destruct (IH (step w ev) (step_inv w ev Hi) H4) as (I1 & I2 & I3 & I4).
  cbn [run fold_left]. fold (run (step w ev) evs).
  rewrite I1, I2, I3, H1, H2, H3. auto.
Qed.

(** *** The ref follows the renders *)

Definition ref_current (w : World) (cb : option Callback) : Prop :=
  onChangeRef (hook w) = cb /\ onChangeDep (hook w) = cb.

Lemma bat_mount_ref e r t cb : ref_current (mount e r t cb) cb.
Proof.
  destruct e as [wd gin [err|]]; destruct wd, gin; split; reflexivity.
Qed.

Lemma after_update_refs w :
  onChangeRef (hook (after_update w)) = onChangeRef (hook w)
  /\ onChangeDep (hook (after_update w)) = onChangeDep (hook w).
Proof. unfold after_update. destruct (mounted (act w)); auto. Qed.

Lemma updates_refs n : forall w,
  onChangeRef (hook (updates n w)) = onChangeRef (hook w)
  /\ onChangeDep (hook (updates n w)) = onChangeDep (hook w).
Proof.
  induction n as [| n IH]; intros w; [auto |].
  cbn [updates]. destruct (IH (after_update w)) as [I1 I2].
  destruct (after_update_refs w) as [A1 A2]. rewrite I1, I2. auto.
Qed.

Lemma step_refs w ev :
  inv w -> (forall cb, ev <> Render cb) ->
  onChangeRef (hook (step w ev)) = onChangeRef (hook w)
  /\ onChangeDep (hook (step w ev)) = onChangeDep (hook w).
Proof.
  intros Hi Hev. destruct ev as [cb | s | type rd |].
  - exfalso. apply (Hev cb). reflexivity.
  - rewrite step_settle. destruct (awaiting (act w)) eqn:Haw; [| auto].
    destruct Hi as [Hl Ht Hm Hr Ha Hg Hp Hj Hw].
    destruct w as [e b h a l]. destruct a as [m aw c r ec].
    destruct b as [bl bc bct bdt et ls]. destruct h as [st ref dep bref].
    cbn in *. subst. specialize (Ha eq_refl). subst c.
    destruct s as [[v|]|err].
    + unfold settle_cleanup, Eff.exec. rewrite resume_invalid.
      destruct ec, r; cbn; auto.
    + destruct ec, r, et, ref as [[id []]|]; cbn; auto.
    + destruct ec, r; cbn; auto.
  - rewrite step_event. set (n := List.length _).
    assert (Hn : inv (updates n (with_battery (store rd) w))).
    { destruct (awaiting (act w)) eqn:Haw.
      - subst n. rewrite (waiting_no_listeners w Hi Haw). cbn.
        apply store_inv, Hi.
      - apply updates_inv; [apply store_inv, Hi | exact Haw]. }
    unfold Eff.exec. rewrite (microtasks_idle _ Hn). cbn [snd].
    apply (updates_refs n (with_battery (store rd) w)).
  - destruct Hi as [Hl Ht Hm Hr Ha Hg Hp Hj Hw].
    destruct w as [e b h a l]. destruct a as [m aw c r ec].
    destruct b as [bl bc bct bdt et ls].
    cbn in *. subst.
    destruct ec, r, c as [|[[]|]|e'], et; cbn; auto.
Qed.

Lemma bat_step_ref w ev cb :
  inv w -> ref_current w cb ->
  ref_current (step w ev) (latest_onChange cb [ev]).
Proof.
  intros Hi [H1 H2].
  destruct ev as [cb' | s | type rd |]; cbn [latest_onChange fold_left].
  - unfold step, Eff.exec, handle, refresh_effect, Eff.bind, Eff.gets. cbn.
    destruct (same_dep (onChangeDep (hook w)) cb') eqn:E; cbn.
    + apply same_dep_eq in E. split; congruence.
    + split; reflexivity.
  - destruct (step_refs w (Settle s) Hi) as [R1 R2]; [discriminate |].
    split; congruence.
  - destruct (step_refs w (BatteryEvent type rd) Hi) as [R1 R2];
      [discriminate |]. split; congruence.
  - destruct (step_refs w Unmount Hi) as [R1 R2]; [discriminate |].
    split; congruence.
Qed.

Lemma bat_latest_onChange_app cb evs1 evs2 :
  latest_onChange cb (evs1 ++ evs2)
  = latest_onChange (latest_onChange cb evs1) evs2.
Proof. apply fold_left_app. Qed.

Lemma bat_run_ref evs : forall w cb,
  inv w -> ref_current w cb ->
  ref_current (run w evs) (latest_onChange cb evs).
Proof.
  induction evs as [| ev evs IH]; intros w cb Hi Hr; [exact Hr |].
  change (ev :: evs) with ([ev] ++ evs).
  rewrite bat_latest_onChange_app, bat_run_app.
  apply IH; [apply step_inv, Hi | apply bat_step_ref; assumption].
Qed.

(** Every call made during a step goes to the callback the ref holds. *)
Definition made_with (cb : option Callback)
           (l : list (Callback * BatteryStatus)) : Prop :=
  Forall (fun c => cb = Some (fst c)) l.

Lemma after_update_calls w :
  exists l, calls (log (after_update w)) = calls (log w) ++ l
            /\ made_with (onChangeRef (hook w)) l.
Proof.
  unfold after_update. destruct (mounted (act w)).
  - cbn. eexists. split; [reflexivity |].
    destruct (onChangeRef (hook w)); repeat constructor.
  - exists []. rewrite app_nil_r. split; [reflexivity | constructor].
Qed.

Lemma updates_calls n : forall w,
  exists l, calls (log (updates n w)) = calls (log w) ++ l
            /\ made_with (onChangeRef (hook w)) l.
Proof.
  induction n as [| n IH]; intros w.
  - exists []. rewrite app_nil_r. split; [reflexivity | constructor].
  - cbn [updates]. destruct (IH (after_update w)) as (l2 & E2 & F2).
    destruct (after_update_calls w) as (l1 & E1 & F1).
    exists (l1 ++ l2). rewrite E2, E1, app_assoc. split; [reflexivity |].
    apply Forall_app. split; [exact F1 |].
    destruct (after_update_refs w) as [A _]. rewrite A in F2. exact F2.
Qed.

Lemma step_calls w ev :
  inv w ->
  exists l, calls (log (step w ev)) = calls (log w) ++ l
            /\ made_with (onChangeRef (hook w)) l.
Proof.
  intros Hi.
  assert (Hnil : forall w', calls (log w') = calls (log w) ->
            exists l, calls (log w') = calls (log w) ++ l
                      /\ made_with (onChangeRef (hook w)) l).
  { intros w' E. exists []. rewrite app_nil_r. split; [exact E | constructor]. }
  destruct ev as [cb | s | type rd |].
  - apply Hnil.
    unfold step, Eff.exec, handle, refresh_effect, Eff.bind, Eff.gets. cbn.
    destruct (negb (same_dep (onChangeDep (hook w)) cb)); reflexivity.
  - rewrite step_settle. destruct (awaiting (act w)) eqn:Haw;
      [| apply Hnil; reflexivity].
    clear Hnil.
    destruct Hi as [Hl Ht Hm Hr Ha Hg Hp Hj Hw].
    destruct w as [e b h a l]. destruct a as [m aw c r ec].
    destruct b as [bl bc bct bdt et ls]. destruct h as [st ref dep bref].
    destruct l as [pub cl co un].
    cbn in *. subst. specialize (Ha eq_refl). subst c.
    destruct s as [[v|]|err].
    + unfold settle_cleanup, Eff.exec. rewrite resume_invalid.
      exists []. rewrite app_nil_r. destruct ec, r; cbn;
        (split; [reflexivity | constructor]).
    + destruct ec, r, et, ref as [[id []]|]; cbn;
        try (exists []; rewrite app_nil_r;
             split; [reflexivity | constructor]);
        (eexists; split; [reflexivity | repeat constructor]).
    + exists []. rewrite app_nil_r. destruct ec, r; cbn;
        (split; [reflexivity | constructor]).
  - clear Hnil. rewrite step_event. set (n := List.length _).
    assert (Hn : inv (updates n (with_battery (store rd) w))).
    { destruct (awaiting (act w)) eqn:Haw.
      - subst n. rewrite (waiting_no_listeners w Hi Haw). cbn.
        apply store_inv, Hi.
      - apply updates_inv; [apply store_inv, Hi | exact Haw]. }
    unfold Eff.exec. rewrite (microtasks_idle _ Hn). cbn [snd].
    apply (updates_calls n (with_battery (store rd) w)).
  - apply Hnil.
    destruct Hi as [Hl Ht Hm Hr Ha Hg Hp Hj Hw].
    destruct w as [e b h a l]. destruct a as [m aw c r ec].
    destruct b as [bl bc bct bdt et ls].
    cbn in *. subst.
    destruct ec, r, c as [|[[]|]|e'], et; cbn; auto.
Qed.

(** *** Without the platform feature *)

Lemma bat_mount_without_feature e r t cb :
  window_defined e = false \/ getBattery_in_navigator e = false ->
  first_render cb (blank e r t cb)
  = (Eff.Normal tt,
     with_hook (fun h =>
       {| batteryStatus := unsupported; onChangeRef := cb;
          onChangeDep := cb; batteryRef := None |}) (blank e r t cb)).
Proof.
  destruct e as [wd gin g]. cbn.
  intros [-> | ->]; [| destruct wd]; reflexivity.
Qed.

(** *** The battery object *)

Lemma after_update_battery w : battery (after_update w) = battery w.
Proof. unfold after_update. destruct (mounted (act w)); reflexivity. Qed.

Lemma updates_battery n : forall w, battery (updates n w) = battery w.
Proof.
  induction n as [| n IH]; intros w; [reflexivity |].
  cbn [updates]. rewrite IH. apply after_update_battery.
Qed.

(** A step evaluated on a world whose shape is known. *)
Ltac evaluate_step :=
  match goal with
  | |- context [step ?W ?ev] =>
      let W' := eval vm_compute in (step W ev) in
      let H := fresh "Hstep" in
      assert (H : step W ev = W') by (vm_compute; reflexivity);
      rewrite H; clear H
  end.

Definition is_unmount (ev : Event) : bool :=
  match ev with Unmount => true | _ => false end.

Definition no_unmount (evs : list Event) : Prop :=
  Forall (fun ev => is_unmount ev = false) evs.

(** Outside the settlement of the awaited promise and the teardown, the
    variables of the activation do not change. *)
Lemma step_act w ev :
  inv w -> awaiting (act w) = false -> is_unmount ev = false ->
  act (step w ev) = act w.
Proof.
  intros Hi Haw Hev. destruct ev as [cb | s | type rd |]; [| | | discriminate].
  - unfold step, Eff.exec, handle, refresh_effect, Eff.bind, Eff.gets. cbn.
    destruct (negb (same_dep (onChangeDep (hook w)) cb)); reflexivity.
  - rewrite step_settle, Haw. reflexivity.
  - rewrite step_event. set (n := List.length _).
    assert (Hn : inv (updates n (with_battery (store rd) w)))
      by (apply updates_inv; [apply store_inv, Hi | exact Haw]).
    unfold Eff.exec. rewrite (microtasks_idle _ Hn). cbn [snd].
    rewrite updates_act. reflexivity.
Qed.

Lemma step_keeps_mounted w ev :
  inv w -> is_unmount ev = false ->
  mounted (act (step w ev)) = mounted (act w).
Proof.
  intros Hi Hev. destruct (awaiting (act w)) eqn:Haw.
  - destruct ev as [cb | s | type rd |]; [| | | discriminate].
    + unfold step, Eff.exec, handle, refresh_effect, Eff.bind, Eff.gets. cbn.
      destruct (negb (same_dep (onChangeDep (hook w)) cb)); reflexivity.
    + rewrite step_settle, Haw.
      destruct Hi as [Hl Ht Hm Hr Ha Hg Hp Hj Hw].
      destruct w as [e b h a l]. destruct a as [m aw c r ec].
      destruct b as [bl bc bct bdt et ls]. destruct h as [st ref dep bref].
      cbn in Hl, Ht, Hm, Hr, Ha, Hg, Hp, Hj, Hw, Haw. subst.
      specialize (Ha eq_refl). subst c.
      destruct s as [[v|]|err].
      * unfold settle_cleanup, Eff.exec. rewrite resume_invalid.
        destruct ec, r; reflexivity.
      * destruct ec, r, et, ref as [[id []]|]; reflexivity.
      * destruct ec, r; reflexivity.
    + rewrite step_event, (waiting_no_listeners w Hi Haw). cbn.
      unfold Eff.exec. rewrite (microtasks_idle _ (store_inv rd w Hi)).
      reflexivity.
  - rewrite (step_act w ev Hi Haw Hev). reflexivity.
Qed.

Lemma run_keeps_mounted evs : forall w,
  inv w -> no_unmount evs -> mounted (act (run w evs)) = mounted (act w).
Proof.
  induction evs as [| ev evs IH]; intros w Hi Hn; [reflexivity |].
  inversion Hn as [| ? ? Hev Hrest]; subst.
  cbn [run fold_left]. fold (run (step w ev) evs).
  rewrite (IH _ (step_inv w ev Hi) Hrest). apply step_keeps_mounted; assumption.
Qed.

Lemma step_eventTarget w ev :
  inv w -> b_eventTarget (battery (step w ev)) = b_eventTarget (battery w).
Proof.
  intros Hi. destruct ev as [cb | s | type rd |].
  - unfold step, Eff.exec, handle, refresh_effect, Eff.bind, Eff.gets. cbn.
    destruct (negb (same_dep (onChangeDep (hook w)) cb)); reflexivity.
  - rewrite step_settle. destruct (awaiting (act w)) eqn:Haw; [| reflexivity].
    destruct Hi as [Hl Ht Hm Hr Ha Hg Hp Hj Hw].
    destruct w as [e b h a l]. destruct a as [m aw c r ec].
    destruct b as [bl bc bct bdt et ls]. destruct h as [st ref dep bref].
    cbn in Hl, Ht, Hm, Hr, Ha, Hg, Hp, Hj, Hw, Haw. subst.
    specialize (Ha eq_refl). subst c.
    destruct s as [[v|]|err].
    + unfold settle_cleanup, Eff.exec. rewrite resume_invalid.
      destruct ec, r; reflexivity.
    + destruct ec, r, et, ref as [[id []]|]; reflexivity.
    + destruct ec, r; reflexivity.
  - rewrite step_event. set (n := List.length _).
    assert (Hn : inv (updates n (with_battery (store rd) w))).
    { destruct (awaiting (act w)) eqn:Haw.
      - subst n. rewrite (waiting_no_listeners w Hi Haw). cbn.
        apply store_inv, Hi.
      - apply updates_inv; [apply store_inv, Hi | exact Haw]. }
    unfold Eff.exec. rewrite (microtasks_idle _ Hn). cbn [snd].
    rewrite updates_battery. reflexivity.
  - destruct Hi as [Hl Ht Hm Hr Ha Hg Hp Hj Hw].
    destruct w as [e b h a l]. destruct a as [m aw c r ec].
    destruct b as [bl bc bct bdt et ls].
    cbn in Hl, Ht, Hm, Hr, Ha, Hg, Hp, Hj, Hw. subst.
    destruct ec, r, c as [|[[]|]|e'], et; reflexivity.
Qed.

Lemma run_eventTarget evs : forall w,
  inv w -> b_eventTarget (battery (run w evs)) = b_eventTarget (battery w).
Proof.
  induction evs as [| ev evs IH]; intros w Hi; [reflexivity |].
  cbn [run fold_left]. fold (run (step w ev) evs).
  rewrite (IH _ (step_inv w ev Hi)). apply step_eventTarget, Hi.
Qed.

Lemma mount_eventTarget e r t cb :
  b_eventTarget (battery (mount e r t cb)) = t.
Proof.
  destruct e as [wd gin [err|]]; destruct wd, gin; reflexivity.
Qed.

(** *** Readings *)

(** The status the hook derives from the attributes of the battery object:
    an attribute of the expected type is taken as it is, anything else
    gives the field's default. *)
Definition status_of (r : Reading) : BatteryStatus :=
  {| level := match r_level r with
              | VNumber x => x | _ => PrimFloat.one end;
     charging := match r_charging r with
                 | VBool c => c | _ => false end;
     chargingTime := match r_chargingTime r with
                     | VNumber x => x | _ => PrimFloat.infinity end;
     dischargingTime := match r_dischargingTime r with
                        | VNumber x => x | _ => PrimFloat.infinity end;
     supported := true |}.

Definition reading_of (b : BatteryManager) : Reading :=
  {| r_level := b_level b; r_charging := b_charging b;
     r_chargingTime := b_chargingTime b;
     r_dischargingTime := b_dischargingTime b |}.

(** The attribute values the platform reported last. *)
Definition latest_reading (r0 : Reading) (evs : list Event) : Reading :=
  fold_left (fun acc ev =>
               match ev with BatteryEvent _ r => r | _ => acc end) evs r0.

Lemma step_reading w ev :
  inv w ->
  reading_of (battery (step w ev))
  = latest_reading (reading_of (battery w)) [ev].
Proof.
  intros Hi. destruct ev as [cb | s | type rd |]; cbn [latest_reading fold_left].
  - unfold step, Eff.exec, handle, refresh_effect, Eff.bind, Eff.gets. cbn.
    destruct (negb (same_dep (onChangeDep (hook w)) cb)); reflexivity.
  - rewrite step_settle. destruct (awaiting (act w)) eqn:Haw; [| reflexivity].
    destruct Hi as [Hl Ht Hm Hr Ha Hg Hp Hj Hw].
    destruct w as [e b h a l]. destruct a as [m aw c r ec].
    destruct b as [bl bc bct bdt et ls]. destruct h as [st ref dep bref].
    cbn in Hl, Ht, Hm, Hr, Ha, Hg, Hp, Hj, Hw, Haw. subst.
    specialize (Ha eq_refl). subst c.
    destruct s as [[v|]|err].
    + unfold settle_cleanup, Eff.exec. rewrite resume_invalid.
      destruct ec, r; reflexivity.
    + destruct ec, r, et, ref as [[id []]|]; reflexivity.
    + destruct ec, r; reflexivity.
  - rewrite step_event. set (n := List.length _).
    assert (Hn : inv (updates n (with_battery (store rd) w))).
    { destruct (awaiting (act w)) eqn:Haw.
      - subst n. rewrite (waiting_no_listeners w Hi Haw). cbn.
        apply store_inv, Hi.
      - apply updates_inv; [apply store_inv, Hi | exact Haw]. }
    unfold Eff.exec. rewrite (microtasks_idle _ Hn). cbn [snd].
    rewrite updates_battery. destruct rd; reflexivity.
  - destruct Hi as [Hl Ht Hm Hr Ha Hg Hp Hj Hw].
    destruct w as [e b h a l]. destruct a as [m aw c r ec].
    destruct b as [bl bc bct bdt et ls].
    cbn in Hl, Ht, Hm, Hr, Ha, Hg, Hp, Hj, Hw. subst.
    destruct ec, r, c as [|[[]|]|e'], et; reflexivity.
Qed.

Lemma latest_reading_app r evs1 evs2 :
  latest_reading r (evs1 ++ evs2)
  = latest_reading (latest_reading r evs1) evs2.
Proof. apply fold_left_app. Qed.

Lemma run_reading evs : forall w,
  inv w ->
  reading_of (battery (run w evs))
  = latest_reading (reading_of (battery w)) evs.
Proof.
  induction evs as [| ev evs IH]; intros w Hi; [reflexivity |].
  change (ev :: evs) with ([ev] ++ evs).
  rewrite latest_reading_app, bat_run_app.
  change (run w [ev]) with (step w ev).
  rewrite (IH _ (step_inv w ev Hi)). f_equal. apply step_reading, Hi.
Qed.

Lemma mount_reading e r t cb : reading_of (battery (mount e r t cb)) = r.
Proof.
  destruct r. destruct e as [wd gin [err|]]; destruct wd, gin; reflexivity.
Qed.

Lemma newStatus_status_of w :
  newStatus RBattery w = status_of (reading_of (battery w)).
Proof. reflexivity. Qed.

(** *** The successful path *)

(** The callback, if there is one, returns normally. *)
Definition quiet_callback (cb : option Callback) : bool :=
  match cb with
  | Some f => negb (cb_throws f)
  | None => true
  end.

Definition battery_events : list string :=
  ["levelchange"; "chargingchange"; "chargingtimechange";
   "dischargingtimechange"].

Lemma settle_success w :
  inv w -> awaiting (act w) = true -> mounted (act w) = true ->
  b_eventTarget (battery w) = true ->
  quiet_callback (onChangeRef (hook w)) = true ->
  let w' := step w (Settle (Fulfill RBattery)) in
  let status := status_of (reading_of (battery w)) in
  batteryStatus (hook w') = status
  /\ published (log w') = [status]
  /\ calls (log w') = match onChangeRef (hook w) with
                      | Some f => [(f, status)]
                      | None => []
                      end
  /\ b_listeners (battery w') = four_listeners
  /\ mounted (act w') = true
  /\ console (log w') = [] /\ uncaught (log w') = []
  /\ awaiting (act w') = false.
Proof.
  intros Hi Haw Hmt Het Hq.
  destruct Hi as [Hl Ht Hm Hr Ha Hg Hp Hj Hw].
  destruct w as [e b h a l]. destruct a as [m aw c r ec].
  destruct b as [bl bc bct bdt et ls]. destruct h as [st ref dep bref].
  destruct l as [pub cl co un].
  cbn in Hl, Ht, Hm, Hr, Ha, Hg, Hp, Hj, Hw, Haw, Hmt, Het, Hq. subst.
  specialize (Ha eq_refl). specialize (Hr eq_refl).
  destruct (Hw eq_refl) as (E1 & E2 & E3 & E4 & E5). subst.
  cbn in Hl. subst ls. cbv zeta.
  destruct ref as [[id thr]|]; [destruct thr; [discriminate |] |];
    evaluate_step; repeat split.
Qed.

Lemma listeners_listening w :
  inv w -> b_listeners (battery w) = four_listeners -> listening w = true.
Proof.
  intros Hi Hl. rewrite (inv_listeners w Hi) in Hl.
  destruct (listening w); [reflexivity | discriminate].
Qed.

Lemma listening_not_awaiting w :
  inv w -> listening w = true -> awaiting (act w) = false.
Proof.
  intros Hi Hl. destruct (awaiting (act w)) eqn:Haw; [| reflexivity].
  unfold listening in Hl. rewrite (inv_awaiting w Hi Haw) in Hl.
  discriminate.
Qed.

Lemma step_keeps_listening w ev :
  inv w -> b_listeners (battery w) = four_listeners ->
  is_unmount ev = false ->
  b_listeners (battery (step w ev)) = four_listeners.
Proof.
  intros Hi Hl Hev.
  pose proof (listeners_listening w Hi Hl) as Hls.
  pose proof (listening_not_awaiting w Hi Hls) as Hna.
  rewrite (inv_listeners _ (step_inv w ev Hi)).
  unfold listening in *. rewrite (step_act w ev Hi Hna Hev), Hls.
  reflexivity.
Qed.

Lemma run_keeps_listening evs : forall w,
  inv w -> b_listeners (battery w) = four_listeners -> no_unmount evs ->
  b_listeners (battery (run w evs)) = four_listeners.
Proof.
  induction evs as [| ev evs IH]; intros w Hi Hl Hn; [exact Hl |].
  inversion Hn as [| ? ? Hev Hrest]; subst.
  cbn [run fold_left]. fold (run (step w ev) evs).
  apply IH; [apply step_inv, Hi | | exact Hrest].
  apply step_keeps_listening; assumption.
Qed.

(** With the four listeners in place, a battery event of one of the four
    types runs exactly one of them. *)
Lemma step_event_listening w type rd :
  inv w -> b_listeners (battery w) = four_listeners ->
  In type battery_events ->
  step w (BatteryEvent type rd) = after_update (with_battery (store rd) w).
Proof.
  intros Hi Hl Hin.
  pose proof (listening_not_awaiting w Hi (listeners_listening w Hi Hl)) as Hna.
  assert (Hn : inv (after_update (with_battery (store rd) w)))
    by (apply after_update_inv; [apply store_inv, Hi | exact Hna]).
  rewrite step_event, Hl.
  assert (Hone : List.length (EventTarget.listeners_for type four_listeners)
                 = 1%nat).
  { cbn in Hin. destruct Hin as [<- | [<- | [<- | [<- | []]]]]; reflexivity. }
  rewrite Hone. cbn [updates]. unfold Eff.exec.
  rewrite (microtasks_idle _ Hn). reflexivity.
Qed.

(** An event of any other type runs none. *)
Lemma step_event_other w type rd :
  inv w -> ~ In type battery_events ->
  step w (BatteryEvent type rd) = with_battery (store rd) w.
Proof.
  intros Hi Hnin.
  assert (Hzero : EventTarget.listeners_for type (b_listeners (battery w))
                  = []).
  { rewrite (inv_listeners w Hi). destruct (listening w); [| reflexivity].
    unfold EventTarget.listeners_for, four_listeners. cbn [filter fst].
    repeat match goal with
    | |- context [String.eqb ?a type] =>
        destruct (String.eqb_spec a type) as [E | _];
        [exfalso; apply Hnin; rewrite <- E; cbn; tauto |]
    end.
    reflexivity. }
  rewrite step_event, Hzero. cbn [List.length updates]. unfold Eff.exec.
  rewrite (microtasks_idle _ (store_inv rd w Hi)). reflexivity.
Qed.

Lemma listening_mounted w :
  inv w -> b_listeners (battery w) = four_listeners ->
  mounted (act w) = true.
Proof.
  intros Hi Hl.
  destruct (inv_target w Hi (listeners_listening w Hi Hl)) as [_ H].
  exact H.
Qed.

(** What a battery event of one of the four types does to a live
    subscription. *)
Lemma battery_event_publishes w type rd :
  inv w -> b_listeners (battery w) = four_listeners ->
  In type battery_events ->
  let w' := step w (BatteryEvent type rd) in
  batteryStatus (hook w') = status_of rd
  /\ published (log w') = published (log w) ++ [status_of rd]
  /\ calls (log w') = calls (log w) ++
                      match onChangeRef (hook w) with
                      | Some f => [(f, status_of rd)]
                      | None => []
                      end
  /\ uncaught (log w') = uncaught (log w) ++
                         match onChangeRef (hook w) with
                         | Some f => if cb_throws f
                                     then ["callback error"] else []
                         | None => []
                         end
  /\ b_listeners (battery w') = four_listeners.
Proof.
  intros Hi Hl Hin w'.
  pose proof (listening_mounted w Hi Hl) as Hm.
  assert (Hk : b_listeners (battery w') = four_listeners)
    by (apply step_keeps_listening; [exact Hi | exact Hl | reflexivity]).
  subst w'. rewrite (step_event_listening w type rd Hi Hl Hin) in *.
  unfold after_update. cbn [act with_battery mounted]. rewrite Hm.
  destruct rd as [l c ct dt]. cbn. repeat split.
  unfold after_update in Hk. cbn [act with_battery mounted] in Hk.
  rewrite Hm in Hk. exact Hk.
Qed.

(** *** The guards *)

(** With [mounted] false, [updateBatteryStatus] returns at once. *)
Lemma update_unmounted b w :
  mounted (act w) = false -> updateBatteryStatus b w = (Eff.Normal tt, w).
Proof.
  intros H. unfold updateBatteryStatus, Eff.bind, Eff.get. rewrite H.
  reflexivity.
Qed.

(** With [mounted] false, what is left of [initBattery] after the [await]
    (its [catch] block included) publishes nothing, calls nothing, and
    returns no cleanup closure. *)
Lemma resume_unmounted s w :
  mounted (act w) = false ->
  let out := Eff.try_catch (after_await s) on_error w in
  fst out = Eff.Normal None
  /\ observed (snd out) = observed w
  /\ b_listeners (battery (snd out)) = b_listeners (battery w).
Proof.
  intros H.
  destruct w as [e b h a l]. destruct a as [m aw c r ec].
  cbn in H. subst m. cbv zeta.
  destruct s as [[v|]|err].
  - rewrite resume_invalid. repeat split.
  - repeat split.
  - repeat split.
Qed.

(** *** Initialisation that gives up *)

Lemma step_failed_observed w ev :
  inv w -> cleanup (act w) = Fulfilled None ->
  observed (step w ev) = observed w.
Proof.
  intros Hi Hc.
  assert (Hnl : b_listeners (battery w) = []).
  { rewrite (inv_listeners w Hi). unfold listening. rewrite Hc. reflexivity. }
  assert (Hna : awaiting (act w) = false).
  { destruct (awaiting (act w)) eqn:E; [| reflexivity].
    rewrite (inv_awaiting w Hi E) in Hc. discriminate. }
  destruct ev as [cb | s | type rd |].
  - unfold step, Eff.exec, handle, refresh_effect, Eff.bind, Eff.gets. cbn.
    destruct (negb (same_dep (onChangeDep (hook w)) cb)); reflexivity.
  - rewrite step_settle, Hna. reflexivity.
  - rewrite step_event, Hnl. cbn [EventTarget.listeners_for filter map
                                   List.length updates].
    unfold Eff.exec. rewrite (microtasks_idle _ (store_inv rd w Hi)).
    reflexivity.
  - destruct w as [e b h a l]. destruct a as [m aw c r ec].
    cbn in Hc. subst c. destruct ec, r; reflexivity.
Qed.

Lemma run_failed_observed evs : forall w,
  inv w -> cleanup (act w) = Fulfilled None ->
  observed (run w evs) = observed w.
Proof.
  induction evs as [| ev evs IH]; intros w Hi Hc; [reflexivity |].
  destruct (step_failed w ev Hi Hc) as (_ & _ & _ & H4).
  cbn [run fold_left]. fold (run (step w ev) evs).
  rewrite (IH (step w ev) (step_inv w ev Hi) H4).
  apply step_failed_observed; assumption.
Qed.

(** The error that ends an initialisation whose promise was fulfilled with
    the battery object while the component was mounted: the one the
    callback throws, else the [TypeError] of a battery object that has no
    [addEventListener]. *)
Definition init_error (cb : option Callback) : string :=
  if quiet_callback cb
  then "TypeError: battery.addEventListener is not a function"
  else "callback error".

Lemma settle_init_fails w :
  inv w -> awaiting (act w) = true -> mounted (act w) = true ->
  b_eventTarget (battery w) && quiet_callback (onChangeRef (hook w)) = false ->
  let w' := step w (Settle (Fulfill RBattery)) in
  let status := status_of (reading_of (battery w)) in
  batteryStatus (hook w') = unsupported
  /\ published (log w') = [status; unsupported]
  /\ calls (log w') = match onChangeRef (hook w) with
                      | Some f => [(f, status)]
                      | None => []
                      end
  /\ console (log w') = [(warning, init_error (onChangeRef (hook w)))]
  /\ uncaught (log w') = []
  /\ cleanup (act w') = Fulfilled None.
Proof.
  intros Hi Haw Hmt Hbad.
  destruct Hi as [Hl Ht Hm Hr Ha Hg Hp Hj Hw].
  destruct w as [e b h a l]. destruct a as [m aw c r ec].
  destruct b as [bl bc bct bdt et ls]. destruct h as [st ref dep bref].
  destruct l as [pub cl co un].
  cbn in Hl, Ht, Hm, Hr, Ha, Hg, Hp, Hj, Hw, Haw, Hmt, Hbad. subst.
  specialize (Ha eq_refl). specialize (Hr eq_refl).
  destruct (Hw eq_refl) as (E1 & E2 & E3 & E4 & E5). subst.
  cbn in Hl. subst ls. cbv zeta.
  destruct et, ref as [[id []]|]; try discriminate;
    evaluate_step; repeat split.
Qed.

(** The promise was fulfilled with the battery object while the component
    was mounted, the object is an event target and the callback returned
    normally. *)
Definition succeeds (w : World) (s : Settlement) : bool :=
  match s with
  | Fulfill RBattery =>
      mounted (act w) && b_eventTarget (battery w)
      && quiet_callback (onChangeRef (hook w))
  | _ => false
  end.

Lemma settle_not_live w s :
  inv w -> awaiting (act w) = true -> succeeds w s = false ->
  batteryStatus (hook (step w (Settle s))) = unsupported
  /\ cleanup (act (step w (Settle s))) = Fulfilled None.
Proof.
  intros Hi Haw Hs.
  destruct s as [[v|]|err].
  - destruct (settle_failure w (Fulfill (RPrim v)) Hi Haw eq_refl)
      as (H1 & _ & H3 & _). auto.
  - cbn in Hs. destruct (mounted (act w)) eqn:Hm.
    + destruct (settle_init_fails w Hi Haw Hm Hs) as (H1 & _ & _ & _ & _ & H6).
      auto.
    + destruct (inv_waiting w Hi Haw) as (_ & _ & Hst & _).
      destruct (bat_step_quiet w (Settle (Fulfill RBattery)) Hi Hm)
        as [Ho _].
      unfold observed in Ho. injection Ho as H1 _ _ _.
      split; [rewrite H1; exact Hst |].
      rewrite step_settle, Haw.
      destruct Hi as [Hl Ht Hm' Hr Ha Hg Hp Hj Hw].
      destruct w as [e b h a l]. destruct a as [m aw c r ec].
      cbn in Hm, Haw, Ha. subst. specialize (Ha eq_refl). subst c.
      destruct r; reflexivity.
  - destruct (settle_failure w (Reject err) Hi Haw eq_refl)
      as (H1 & _ & H3 & _). auto.
Qed.

(** Once unmounted, always unmounted. *)
Lemma mounted_no_unmount evs : forall w,
  inv w -> mounted (act (run w evs)) = true -> no_unmount evs.
Proof.
  induction evs as [| ev evs IH]; intros w Hi Hm; [constructor |].
  cbn [run fold_left] in Hm. fold (run (step w ev) evs) in Hm.
  constructor; [| apply (IH (step w ev)); [apply step_inv, Hi | exact Hm]].
  destruct ev; try reflexivity.
  destruct (bat_run_quiet evs _ (step_inv w Unmount Hi)
              (step_unmount_unmounted w Hi)) as [_ H].
  rewrite H in Hm. discriminate.
Qed.

(** A history either has no settlement or a first one. *)
Lemma first_settle evs :
  no_settle evs
  \/ exists pre s post, evs = pre ++ Settle s :: post /\ no_settle pre.
Proof.
  induction evs as [| ev evs IH]; [left; constructor |].
  destruct ev as [cb | s | type rd |].
  - destruct IH as [H | (pre & s & post & E & H)].
    + left. constructor; [reflexivity | exact H].
    + right. exists (Render cb :: pre), s, post. rewrite E.
      split; [reflexivity | constructor; [reflexivity | exact H]].
  - right. exists [], s, evs. split; [reflexivity | constructor].
  - destruct IH as [H | (pre & s & post & E & H)].
    + left. constructor; [reflexivity | exact H].
    + right. exists (BatteryEvent type rd :: pre), s, post. rewrite E.
      split; [reflexivity | constructor; [reflexivity | exact H]].
  - destruct IH as [H | (pre & s & post & E & H)].
    + left. constructor; [reflexivity | exact H].
    + right. exists (Unmount :: pre), s, post. rewrite E.
      split; [reflexivity | constructor; [reflexivity | exact H]].
Qed.

(** After the settlement nothing is awaited any more, and a status with
    [supported: true] stays one. *)
Lemma step_keeps_supported w ev :
  inv w -> awaiting (act w) = false ->
  supported (batteryStatus (hook w)) = true ->
  awaiting (act (step w ev)) = false
  /\ supported (batteryStatus (hook (step w ev))) = true.
Proof.
  intros Hi Hna Hs. destruct ev as [cb | s | type rd |].
  - unfold step, Eff.exec, handle, refresh_effect, Eff.bind, Eff.gets. cbn.
    destruct (negb (same_dep (onChangeDep (hook w)) cb)); auto.
  - rewrite step_settle, Hna. auto.
  - rewrite step_event. set (n := List.length _).
    assert (Hn : inv (updates n (with_battery (store rd) w)))
      by (apply updates_inv; [apply store_inv, Hi | exact Hna]).
    unfold Eff.exec. rewrite (microtasks_idle _ Hn). cbn [snd].
    rewrite updates_act. split; [exact Hna |].
    assert (Hgen : forall k w0, supported (batteryStatus (hook w0)) = true ->
              supported (batteryStatus (hook (updates k w0))) = true).
    { induction k as [| k IH]; intros w0 H0; [exact H0 |].
      cbn [updates]. apply IH. unfold after_update.
      destruct (mounted (act w0)); [reflexivity | exact H0]. }
    apply Hgen. exact Hs.
  - destruct (step_keeps_promise w Unmount Hi eq_refl) as [_ Ha].
    rewrite Ha. split; [exact Hna |].
    pose proof (step_unmount_observed w Hi) as Ho. unfold observed in Ho.
    injection Ho as H1 _ _ _. rewrite H1. exact Hs.
Qed.

Lemma run_keeps_supported evs : forall w,
  inv w -> awaiting (act w) = false ->
  supported (batteryStatus (hook w)) = true ->
  supported (batteryStatus (hook (run w evs))) = true.
Proof.
  induction evs as [| ev evs IH]; intros w Hi Hna Hs; [exact Hs |].
  destruct (step_keeps_supported w ev Hi Hna Hs) as [H1 H2].
  cbn [run fold_left]. fold (run (step w ev) evs).
  apply IH; [apply step_inv, Hi | exact H1 | exact H2].
Qed.

(** The world in which the awaited promise settles, from the history. *)
Lemma before_settle e r t cb pre :
  window_defined e = true -> getBattery_in_navigator e = true ->
  getBattery e = GetBatteryPromise -> no_settle pre ->
  let w := run (mount e r t cb) pre in
  inv w /\ awaiting (act w) = true
  /\ b_eventTarget (battery w) = t
  /\ onChangeRef (hook w) = latest_onChange cb pre
  /\ reading_of (battery w) = latest_reading r pre.
Proof.
  intros Hwd Hgin Hg Hps w.
  assert (Hi : inv w) by apply run_inv, mount_inv.
  destruct (mount_awaiting e r t cb Hwd Hgin Hg) as [Ma _].
  destruct (run_keeps_promise pre _ (mount_inv e r t cb) Hps) as [_ Ha].
  destruct (bat_run_ref pre _ cb (mount_inv e r t cb)
              (bat_mount_ref e r t cb)) as [Hr _].
  split; [exact Hi|]. split; [unfold w; rewrite Ha; exact Ma|].
  split; [|split; [exact Hr|]].
  - unfold w. rewrite (run_eventTarget pre _ (mount_inv e r t cb)).
    apply mount_eventTarget.
  - unfold w. rewrite (run_reading pre _ (mount_inv e r t cb)).
    rewrite mount_reading. reflexivity.
Qed.

(** An initialisation that reaches the first status and then gives up. *)
Lemma init_gives_up e r t cb pre post :
  window_defined e = true -> getBattery_in_navigator e = true ->
  getBattery e = GetBatteryPromise ->
  no_settle pre -> no_unmount pre ->
  t && quiet_callback (latest_onChange cb pre) = false ->
  let w := run (mount e r t cb) (pre ++ Settle (Fulfill RBattery) :: post) in
  let status := status_of (latest_reading r pre) in
  batteryStatus (hook w) = unsupported
  /\ published (log w) = [status; unsupported]
  /\ calls (log w) = match latest_onChange cb pre with
                     | Some f => [(f, status)]
                     | None => []
                     end
  /\ console (log w) = [(warning, init_error (latest_onChange cb pre))]
  /\ uncaught (log w) = []
  /\ b_listeners (battery w) = [].
Proof.
  intros Hwd Hgin Hg Hps Hpu Hbad w status.
  destruct (before_settle e r t cb pre Hwd Hgin Hg Hps)
    as (Hi1 & Ha1 & Ht1 & Hr1 & Hrd1).
  set (w1 := run (mount e r t cb) pre) in *.
  assert (Hm1 : mounted (act w1) = true).
  { unfold w1. rewrite (run_keeps_mounted pre _ (mount_inv e r t cb) Hpu).
    apply (mount_awaiting e r t cb Hwd Hgin Hg). }
  assert (Hbad1 : b_eventTarget (battery w1)
                  && quiet_callback (onChangeRef (hook w1)) = false)
    by (rewrite Ht1, Hr1; exact Hbad).
  destruct (settle_init_fails w1 Hi1 Ha1 Hm1 Hbad1)
    as (S1 & S2 & S3 & S4 & S5 & S6).
  set (w2 := step w1 (Settle (Fulfill RBattery))) in *.
  assert (Hi2 : inv w2) by apply step_inv, Hi1.
  assert (Hw : w = run w2 post) by (unfold w; rewrite bat_run_app; reflexivity).
  pose proof (run_failed_observed post w2 Hi2 S6) as Ho.
  destruct (run_failed post w2 Hi2 S6) as (_ & F2 & _ & F4).
  rewrite <- Hw in Ho, F2, F4. unfold observed in Ho.
  injection Ho as O1 O2 O3 O4.
  rewrite O1, O2, O3, O4, F2, S1, S2, S3, S4, S5, Hr1, Hrd1.
  repeat split.
  assert (Hi : inv w) by apply run_inv, mount_inv.
  rewrite (inv_listeners w Hi). unfold listening. rewrite F4. reflexivity.
Qed.

(** *** A live subscription, from the history *)

(** The promise was fulfilled with the battery object while the component
    was mounted and the callback of the time returned normally; no
    teardown since. *)
Record live (e : Env) (t : bool) (cb : option Callback)
       (pre post : list Event) : Prop := {
  live_window : window_defined e = true;
  live_feature : getBattery_in_navigator e = true;
  live_promise : getBattery e = GetBatteryPromise;
  live_target : t = true;
  live_pre_settle : no_settle pre;
  live_pre_unmount : no_unmount pre;
  live_callback : quiet_callback (latest_onChange cb pre) = true;
  live_post : no_unmount post
}.

Lemma live_listening e r t cb pre post :
  live e t cb pre post ->
  let w := run (mount e r t cb)
               (pre ++ Settle (Fulfill RBattery) :: post) in
  inv w /\ b_listeners (battery w) = four_listeners
  /\ mounted (act w) = true.
Proof.
  intros [Hwd Hgin Hg Ht Hps Hpu Hcb Hpost] w.
  assert (Hi : inv w) by apply run_inv, mount_inv.
  split; [exact Hi |].
  set (w1 := run (mount e r t cb) pre).
  assert (Hi1 : inv w1) by apply run_inv, mount_inv.
  destruct (mount_awaiting e r t cb Hwd Hgin Hg) as [Ma Mm].
  assert (Ha1 : awaiting (act w1) = true).
  { destruct (run_keeps_promise pre _ (mount_inv e r t cb) Hps) as [_ H].
    fold w1 in H. rewrite H. exact Ma. }
  assert (Hm1 : mounted (act w1) = true).
  { unfold w1. rewrite (run_keeps_mounted pre _ (mount_inv e r t cb) Hpu).
    exact Mm. }
  assert (Ht1 : b_eventTarget (battery w1) = true).
  { unfold w1. rewrite (run_eventTarget pre _ (mount_inv e r t cb)).
    rewrite mount_eventTarget. exact Ht. }
  assert (Hq1 : quiet_callback (onChangeRef (hook w1)) = true).
  { destruct (bat_run_ref pre _ cb (mount_inv e r t cb)
                (bat_mount_ref e r t cb)) as [H _].
    fold w1 in H. rewrite H. exact Hcb. }
  destruct (settle_success w1 Hi1 Ha1 Hm1 Ht1 Hq1)
    as (_ & _ & _ & Hl2 & Hm2 & _).
  set (w2 := step w1 (Settle (Fulfill RBattery))) in *.
  assert (Hi2 : inv w2) by apply step_inv, Hi1.
  assert (Hw : w = run w2 post).
  { unfold w. rewrite bat_run_app. reflexivity. }
  rewrite Hw. split.
  - apply run_keeps_listening; assumption.
  - rewrite (run_keeps_mounted post w2 Hi2 Hpost). exact Hm2.
Qed.

End BatteryFacts.

Module IdleFacts.

Import Idle.
Local Open Scope N_scope.

Definition five_seconds : Config :=
  {| timeoutMs := 5000; events := default_events; initialState := false;
     interactive := true |}.

Example idle_after_six_seconds :
  let s := run five_seconds (activate five_seconds 0) [Elapse 6000] in
  isIdle s = true /\ callbacks s = [OnIdle].
Proof. split; reflexivity. Qed.

Example key_press_wakes :
  let s := run five_seconds (activate five_seconds 0)
               [Elapse 6000; Input "keydown"] in
  isIdle s = false /\ callbacks s = [OnIdle; OnActive]
  /\ transitions s = [BecameIdle; BecameActive].
Proof. repeat split. Qed.

Section Detector.

Variable c : Config.
Variable t0 : N.

(** Activated, and the first deadline has not elapsed: [e] milliseconds
    have passed. *)
Definition waiting (s : State) (e : N) : Prop :=
  isIdle s = false /\ deadline s = Some (t0 + timeoutMs c)
  /\ now s = t0 + e /\ e < timeoutMs c
  /\ listeners s = events c
  /\ callbacks s = [] /\ transitions s = [].

(** The first deadline has fired and nothing happened since. *)
Definition fired (s : State) : Prop :=
  isIdle s = true /\ deadline s = None
  /\ listeners s = events c
  /\ callbacks s = [OnIdle] /\ transitions s = [BecameIdle].

Lemma fired_step s ev :
  fired s -> no_activity c ev = true -> fired (step c s ev).
Proof.
  intros (Hi & Hd & Hl & Hc & Ht) Hev.
  destruct ev as [ms | name |]; cbn in *; [| | discriminate].
  - rewrite Hd. repeat split; assumption.
  - rewrite Hl. apply negb_true_iff in Hev. rewrite Hev.
    repeat split; assumption.
Qed.

Lemma fired_run evs : forall s,
  fired s -> Forall (fun ev => no_activity c ev = true) evs ->
  fired (run c s evs).
Proof.
  induction evs as [| ev evs IH]; intros s Hf Hq; [exact Hf |].
  inversion Hq as [| ? ? Hev Hrest]; subst.
  apply IH; [apply fired_step; assumption | exact Hrest].
Qed.

Lemma waiting_run evs : forall s e,
  waiting s e -> Forall (fun ev => no_activity c ev = true) evs ->
  (e + elapsed evs < timeoutMs c /\ waiting (run c s evs) (e + elapsed evs))
  \/ (timeoutMs c <= e + elapsed evs /\ fired (run c s evs)).
Proof.
  induction evs as [| ev evs IH]; intros s e Hw Hq.
  - left. cbn. rewrite N.add_0_r. split; [apply Hw | exact Hw].
  - inversion Hq as [| ? ? Hev Hrest]; subst.
    destruct Hw as (Hi & Hd & Hn & He & Hl & Hc & Ht).
    destruct ev as [ms | name |]; [| | discriminate].
    + cbn [run fold_left elapsed]. fold (run c (step c s (Elapse ms)) evs).
      cbn [step]. rewrite Hd.
      destruct (N.leb (t0 + timeoutMs c) (now s + ms)) eqn:E.
      * apply N.leb_le in E. right. split; [lia |].
        apply fired_run; [| exact Hrest].
        unfold deadline_fired. rewrite Hi. cbn.
        rewrite Hc, Ht. repeat split; assumption.
      * apply N.leb_gt in E.
        replace (e + (ms + elapsed evs)) with ((e + ms) + elapsed evs)
          by lia.
        apply IH; [| exact Hrest].
        repeat split; cbn; try assumption; lia.
    + cbn [run fold_left elapsed]. fold (run c (step c s (Input name)) evs).
      cbn [step]. cbn in Hev. rewrite Hl.
      apply negb_true_iff in Hev. rewrite Hev.
      apply IH; [| exact Hrest]. repeat split; assumption.
Qed.

Lemma activate_waiting :
  interactive c = true -> 0 < timeoutMs c -> waiting (activate c t0) 0.
Proof.
  intros Hi Hp. unfold activate. rewrite Hi.
  repeat split; cbn; try reflexivity; try lia.
Qed.

End Detector.

(** After an idle-to-active transition, at least a full timeout must pass
    before the next idle transition. *)
Section Active.

Variable c : Config.
Variable n0 : N.                      (* the time of the transition *)
Variable cbs : list Callback.
Variable trs : list Transition.

Definition active (s : State) (e : N) : Prop :=
  isIdle s = false /\ now s = n0 + e
  /\ (deadline s = None
      \/ exists d, deadline s = Some d /\ n0 + timeoutMs c <= d)
  /\ callbacks s = cbs /\ transitions s = trs.

Lemma active_run evs : forall s e,
  active s e -> e + elapsed evs < timeoutMs c ->
  active (run c s evs) (e + elapsed evs).
Proof.
  induction evs as [| ev evs IH]; intros s e Ha Hlt.
  - cbn. rewrite N.add_0_r. exact Ha.
  - destruct Ha as (Hi & Hn & Hd & Hc & Ht).
    cbn [run fold_left]. fold (run c (step c s ev) evs).
    destruct ev as [ms | name |]; cbn [elapsed] in *.
    + replace (e + (ms + elapsed evs)) with ((e + ms) + elapsed evs)
        by lia.
      apply IH; [| lia]. cbn [step].
      destruct Hd as [Hd | (d & Hd & Hle)]; rewrite Hd.
      * repeat split; cbn; try assumption; try lia. left. assumption.
      * destruct (N.leb d (now s + ms)) eqn:E.
        { apply N.leb_le in E. lia. }
        repeat split; cbn; try assumption; try lia.
        right. exists d. split; assumption.
    + apply IH; [| exact Hlt]. cbn [step].
      destruct (existsb (String.eqb name) (listeners s)).
      * unfold tracked_event. rewrite Hi.
        repeat split; cbn; try assumption.
        right. eexists. split; [reflexivity | lia].
      * repeat split; assumption.
    + apply IH; [| exact Hlt].
      repeat split; cbn; try assumption. left. reflexivity.
Qed.

End Active.

Lemma tracked_input_listens name l :
  In name l -> existsb (String.eqb name) l = true.
Proof.
  intros H. apply existsb_exists. exists name. split; [exact H |].
  apply String.eqb_refl.
Qed.

End IdleFacts.

Module GeolocationFacts.

Import Geolocation.

Definition one_shot_off : Options :=
  {| enabled := false; watch := false; enableHighAccuracy := false;
     timeout := 5000%N; maximumAge := 0%N |}.

Definition one_shot_on : Options :=
  {| enabled := true; watch := false; enableHighAccuracy := false;
     timeout := 5000%N; maximumAge := 0%N |}.

Definition somewhere : Coordinates :=
  {| latitude := 40.75%float; longitude := (-74)%float;
     accuracy := 20%float; altitude := None; altitudeAccuracy := None;
     heading := None; speed := None |}.

Example enabled_requests_once :
  let m := mount true one_shot_on in
  useGeolocation m = Loading
  /\ requests m = [GetCurrentPosition one_shot_on].
Proof. split; reflexivity. Qed.

Example late_callback_ignored :
  let m := run (mount true one_shot_on)
               [Configure one_shot_off; PlatformSuccess somewhere] in
  useGeolocation m = Disabled.
Proof. reflexivity. Qed.

(** Nothing outstanding, nothing requested so far, gate closed. *)
Definition dormant (m : Machine) : Prop :=
  enabled (options m) = false /\ state m = Disabled
  /\ pending m = false /\ watching m = false /\ requests m = [].

Lemma mount_dormant inter o : enabled o = false -> dormant (mount inter o).
Proof.
  intros H. unfold mount. rewrite H. repeat split; cbn; assumption.
Qed.

Lemma step_dormant m ev :
  dormant m -> keeps_disabled ev = true -> dormant (step m ev).
Proof.
  intros (He & Hs & Hp & Hw & Hr) Hev.
  destruct ev as [o | | c | e |]; cbn in *.
  - apply negb_true_iff in Hev. rewrite Hev. unfold cancel. rewrite Hw.
    repeat split; cbn; assumption.
  - rewrite He. repeat split; assumption.
  - rewrite Hp, Hw. cbn. repeat split; assumption.
  - rewrite Hp, Hw. cbn. repeat split; assumption.
  - unfold cancel. rewrite Hw. repeat split; cbn; assumption.
Qed.

Lemma run_dormant evs : forall m,
  dormant m -> Forall (fun ev => keeps_disabled ev = true) evs ->
  dormant (run m evs).
Proof.
  induction evs as [| ev evs IH]; intros m Hd Hq; [exact Hd |].
  inversion Hq as [| ? ? Hev Hrest]; subst.
  apply IH; [apply step_dormant; assumption | exact Hrest].
Qed.

End GeolocationFacts.

Module DeviceDetectFacts.

Import DeviceDetect.

Definition iphone_ua : string :=
  "Mozilla/5.0 (iPhone; CPU iPhone OS 14_0 like Mac OS X)".

Definition android_phone_ua : string :=
  "Mozilla/5.0 (Linux; Android 10; Pixel 3) AppleWebKit/537.36 (KHTML, like Gecko) Chrome/88.0 Mobile Safari/537.36".

Definition ipad_ua : string :=
  "Mozilla/5.0 (iPad; CPU OS 14_0 like Mac OS X)".

Example android_phone_is_mobile :
  let r := classify android_phone_ua in
  tablet_pattern android_phone_ua = true
  /\ isMobile r = true /\ isTablet r = false
  /\ isAndroid r = true /\ isLinux r = false.
Proof. repeat split. Qed.

Example ipad_is_tablet :
  let r := classify ipad_ua in
  isTablet r = true /\ isMobile r = false /\ isIOS r = true
  /\ isMacOS r = false.
Proof. repeat split. Qed.






End DeviceDetectFacts.

(* ===================================================================== *)
(** * Part III: the properties of the specification *)
(* ===================================================================== *)

Module NetworkLifecycle.

Import Js JsFacts NetworkSpeed NetworkSpeedFacts.

(** C1: for every change notification delivered by the connection object
    the hook is subscribed to, [useNetworkSpeed] publishes one snapshot
    whose four fields are all read from the object as the notification
    finds it, and then invokes the [onChange] of the latest render, if
    there is one, exactly once with that very snapshot. *)
Theorem notification_publishes_whole_snapshot :
  forall e h cb evs conn r,
    window_defined e = true -> connection_in_navigator e = true ->
    select_conn e = Some conn -> ~ In Unmount evs ->
    let w := run (mount e h cb) evs in
    let w' := step w (Notify conn r) in
    let snapshot :=
      {| effectiveType := reading_or (r_effectiveType r) (VString "unknown");
         downlink := reading_or (r_downlink r) (VNumber PrimFloat.zero);
         rtt := reading_or (r_rtt r) (VNumber PrimFloat.zero);
         saveData := reading_or (r_saveData r) (VBool false) |} in
    useNetworkSpeed w' = snapshot
    /\ published w' = published w ++ [snapshot]
    /\ calls w' = calls w ++ match latest_onChange cb evs with
                             | Some f => [(f, snapshot)]
                             | None => []
                             end.
Proof.
  intros e h cb evs conn r Hw Hc Hs Hn w w' snapshot.
  destruct (notify_subscribed e h cb evs conn r Hw Hc Hs Hn)
    as (H1 & H2 & H3 & _).
  fold w w' in H1, H2, H3.
  assert (Hsnap : snapshot_of r = snapshot).
  { unfold snapshot_of, snapshot. rewrite !or_reading_or. reflexivity. }
  rewrite Hsnap in H1, H2, H3. unfold useNetworkSpeed. auto.
Qed.

Lemma notification_publishes_whole_snapshot_witness :
  let browser :=
    {| window_defined := true; connection_in_navigator := true;
       nav_connection := None; nav_mozConnection := Some 7;
       nav_webkitConnection := None |} in
  let first := {| cb_id := 1; cb_throws := false |} in
  let second := {| cb_id := 2; cb_throws := false |} in
  let w := run (mount browser (fun _ => wifi) (Some first))
               [Render (Some second)] in
  let w' := step w (Notify 7
                      {| r_effectiveType := VString "2g";
                         r_downlink := VNumber 0.25%float;
                         r_rtt := VUndefined;
                         r_saveData := VBool true |}) in
  let snapshot :=
    {| effectiveType := VString "2g"; downlink := VNumber 0.25%float;
       rtt := VNumber 0%float; saveData := VBool true |} in
  useNetworkSpeed w' = snapshot
  /\ published w' = [snapshot]
  /\ calls w' = [(second, snapshot)].
Proof.
  intros browser first second w w' snapshot.
  assert (Hn : ~ In Unmount [Render (Some second)])
    by (intros [H | []]; discriminate H).
  pose proof (notification_publishes_whole_snapshot
                browser (fun _ => wifi) (Some first)
                [Render (Some second)] 7
                {| r_effectiveType := VString "2g";
                   r_downlink := VNumber 0.25%float;
                   r_rtt := VUndefined;
                   r_saveData := VBool true |}
                eq_refl eq_refl eq_refl Hn) as H.
  vm_compute in H. vm_compute. exact H.
Defined.

End NetworkLifecycle.

Module BatteryLifecycle.

Import Js JsFacts Battery BatteryFacts.







End BatteryLifecycle.

(** Properties that hold of both monitor hooks.  The names of the battery
    monitor are used as they are, those of the connection-quality monitor
    with their module. *)
Module Lifecycle.

Import Js JsFacts Battery BatteryFacts.

(** C2: once the teardown of a monitor hook has run, nothing that happens
    afterwards (a platform notification, the late settlement of the
    [getBattery()] promise, a render) publishes a snapshot into the
    component state or invokes [onChange].  In [useBattery] each publish
    path is guarded on its own: with [mounted] false,
    [updateBatteryStatus] returns at once, and what is left of
    [initBattery] after its [await], the [catch] block included, publishes
    nothing, calls nothing and registers nothing. *)
Theorem nothing_published_after_teardown :
  forall e h cb evs1 evs2 e' r t cb' bevs1 bevs2 w b s,
    mounted (act w) = false ->
    let n1 := NetworkSpeed.run (NetworkSpeed.mount e h cb)
                (evs1 ++ [NetworkSpeed.Unmount]) in
    let n2 := NetworkSpeed.run n1 evs2 in
    let b1 := run (mount e' r t cb') (bevs1 ++ [Unmount]) in
    let b2 := run b1 bevs2 in
    let out := Eff.try_catch (after_await s) on_error w in
    (NetworkSpeed.useNetworkSpeed n2 = NetworkSpeed.useNetworkSpeed n1
     /\ NetworkSpeed.published n2 = NetworkSpeed.published n1
     /\ NetworkSpeed.calls n2 = NetworkSpeed.calls n1)
    /\ (useBattery b2 = useBattery b1
        /\ published (log b2) = published (log b1)
        /\ calls (log b2) = calls (log b1))
    /\ updateBatteryStatus b w = (Eff.Normal tt, w)
    /\ (fst out = Eff.Normal None
        /\ useBattery (snd out) = useBattery w
        /\ published (log (snd out)) = published (log w)
        /\ calls (log (snd out)) = calls (log w)
        /\ b_listeners (battery (snd out)) = b_listeners (battery w)).
Proof.
  intros e h cb evs1 evs2 e' r t cb' bevs1 bevs2 w b s Hu n1 n2 b1 b2 out.
  split; [| split; [| split]].
  - assert (Hok : NetworkSpeedFacts.listeners_ok n1)
      by apply NetworkSpeedFacts.reachable_ok.
    assert (Hc : NetworkSpeed.effectCleanup n1 = None).
    { unfold n1. rewrite NetworkSpeedFacts.net_run_app.
      apply NetworkSpeedFacts.step_unmount_cleanup. }
    destruct (NetworkSpeedFacts.net_run_quiet evs2 n1 Hok Hc) as [Ho _].
    fold n2 in Ho. unfold NetworkSpeedFacts.observed in Ho.
    injection Ho as H1 H2 H3 _. unfold NetworkSpeed.useNetworkSpeed. auto.
  - assert (Hi : inv b1) by apply run_inv, mount_inv.
    assert (Hm : mounted (act b1) = false).
    { unfold b1. rewrite bat_run_app.
      apply step_unmount_unmounted, run_inv, mount_inv. }
    destruct (bat_run_quiet bevs2 b1 Hi Hm) as [Ho _].
    fold b2 in Ho. unfold observed in Ho.
    injection Ho as H1 H2 H3 _. unfold useBattery. auto.
  - apply update_unmounted, Hu.
  - destruct (resume_unmounted s w Hu) as (R1 & R2 & R3).
    fold out in R1, R2, R3. unfold observed in R2.
    injection R2 as H1 H2 H3 _. unfold useBattery. auto.
Qed.

Lemma nothing_published_after_teardown_witness :
  let n2 := NetworkSpeed.run
              (NetworkSpeed.mount NetworkSpeedFacts.browser
                 (fun _ => NetworkSpeedFacts.wifi)
                 (Some NetworkSpeedFacts.cb1))
              ([NetworkSpeed.Notify 0 NetworkSpeedFacts.slow]
               ++ [NetworkSpeed.Unmount]
               ++ [NetworkSpeed.Notify 0 NetworkSpeedFacts.wifi]) in
  let b2 := run (mount browser half true (Some cb1))
                ([Settle (Fulfill RBattery)] ++ [Unmount]
                 ++ [BatteryEvent "levelchange" low;
                     Settle (Reject "late"); Render None]) in
  let slow :=
    {| NetworkSpeed.effectiveType := VString "2g";
       NetworkSpeed.downlink := VNumber 0.25%float;
       NetworkSpeed.rtt := VNumber 1800%float;
       NetworkSpeed.saveData := VBool true |} in
  let half :=
    {| level := 0.5%float; charging := true; chargingTime := 1200%float;
       dischargingTime := infinity; supported := true |} in
  (NetworkSpeed.useNetworkSpeed n2 = slow
   /\ NetworkSpeed.published n2 = [slow]
   /\ NetworkSpeed.calls n2
      = [({| cb_id := 1; cb_throws := false |}, slow)])
  /\ (useBattery b2 = half
      /\ published (log b2) = [half]
      /\ calls (log b2) = [({| cb_id := 1; cb_throws := false |}, half)]).
Proof.
  intros n2 b2 slow half'.
  pose proof (nothing_published_after_teardown
                NetworkSpeedFacts.browser (fun _ => NetworkSpeedFacts.wifi)
                (Some NetworkSpeedFacts.cb1)
                [NetworkSpeed.Notify 0 NetworkSpeedFacts.slow]
                [NetworkSpeed.Notify 0 NetworkSpeedFacts.wifi]
                browser half true (Some cb1)
                [Settle (Fulfill RBattery)]
                [BatteryEvent "levelchange" low; Settle (Reject "late");
                 Render None]
                (run (mount browser half true (Some cb1)) [Unmount])
                RBattery (Fulfill RBattery) eq_refl) as H.
  vm_compute in H. destruct H as (H1 & H2 & _).
  vm_compute. split; [exact H1 | exact H2].
Defined.

(** C4: where there is no [window], or the platform feature is absent from
    [navigator], each hook renders without an error, returns its
    documented default, now and after anything that may happen later, and
    registers no listener. *)
Theorem safe_defaults_without_platform :
  forall e h cb evs e' r t cb' bevs,
    (NetworkSpeed.window_defined e = false
     \/ NetworkSpeed.connection_in_navigator e = false) ->
    (window_defined e' = false \/ getBattery_in_navigator e' = false) ->
    let n := NetworkSpeed.run (NetworkSpeed.mount e h cb) evs in
    let b := run (mount e' r t cb') bevs in
    (fst (NetworkSpeed.first_render cb
            (NetworkSpeed.blank e (fun o => NetworkSpeed.fresh (h o))))
     = Eff.Normal tt
     /\ NetworkSpeed.useNetworkSpeed n
        = {| NetworkSpeed.effectiveType := VString "unknown";
             NetworkSpeed.downlink := VNumber PrimFloat.zero;
             NetworkSpeed.rtt := VNumber PrimFloat.zero;
             NetworkSpeed.saveData := VBool false |}
     /\ (forall o, NetworkSpeed.c_listeners (NetworkSpeed.heap n o) = [])
     /\ NetworkSpeed.published n = []
     /\ NetworkSpeed.uncaught n = [])
    /\ (fst (first_render cb' (blank e' r t cb')) = Eff.Normal tt
        /\ useBattery b
           = {| level := PrimFloat.one; charging := false;
                chargingTime := PrimFloat.infinity;
                dischargingTime := PrimFloat.infinity;
                supported := false |}
        /\ b_listeners (battery b) = []
        /\ published (log b) = []
        /\ uncaught (log b) = []).
Proof.
  intros e h cb evs e' r t cb' bevs He He' n b. split.
  - pose proof (NetworkSpeedFacts.net_mount_without_feature e h cb He) as Hm.
    assert (Hw : NetworkSpeed.mount e h cb
                 = snd (NetworkSpeed.first_render cb
                          (NetworkSpeed.blank e
                             (fun o => NetworkSpeed.fresh (h o)))))
      by reflexivity.
    rewrite Hm in Hw. cbn [snd] in Hw.
    assert (Hok : NetworkSpeedFacts.listeners_ok (NetworkSpeed.mount e h cb))
      by apply NetworkSpeedFacts.mount_listeners_ok.
    assert (Hc : NetworkSpeed.effectCleanup (NetworkSpeed.mount e h cb) = None)
      by (rewrite Hw; reflexivity).
    destruct (NetworkSpeedFacts.net_run_quiet evs _ Hok Hc) as [Ho Hc2].
    fold n in Ho, Hc2. unfold NetworkSpeedFacts.observed in Ho.
    rewrite Hw in Ho. cbn in Ho. injection Ho as H1 H2 H3 H4.
    split; [rewrite Hm; reflexivity |].
    split; [exact H1 |]. split; [| split; [exact H2 | exact H4]].
    intros o. unfold n in *.
    rewrite (NetworkSpeedFacts.reachable_ok e h cb evs o).
    unfold NetworkSpeedFacts.expected_listeners. rewrite Hc2.
    reflexivity.
  - pose proof (bat_mount_without_feature e' r t cb' He') as Hm.
    assert (Hw : mount e' r t cb'
                 = snd (first_render cb' (blank e' r t cb')))
      by reflexivity.
    rewrite Hm in Hw. cbn [snd] in Hw.
    assert (Hi : inv (mount e' r t cb')) by apply mount_inv.
    assert (Hu : mounted (act (mount e' r t cb')) = false)
      by (rewrite Hw; reflexivity).
    destruct (bat_run_quiet bevs _ Hi Hu) as [Ho Hu2].
    fold b in Ho, Hu2. unfold observed in Ho.
    rewrite Hw in Ho. cbn in Ho. injection Ho as H1 H2 H3 H4.
    split; [rewrite Hm; reflexivity |].
    split; [exact H1 |]. split; [| split; [exact H2 | exact H4]].
    apply unmounted_no_listeners; [apply run_inv, mount_inv | exact Hu2].
Qed.

Lemma safe_defaults_without_platform_witness :
  let no_window :=
    {| NetworkSpeed.window_defined := false;
       NetworkSpeed.connection_in_navigator := true;
       NetworkSpeed.nav_connection := Some 0;
       NetworkSpeed.nav_mozConnection := None;
       NetworkSpeed.nav_webkitConnection := None |} in
  let no_feature :=
    {| window_defined := true; getBattery_in_navigator := false;
       getBattery := GetBatteryPromise |} in
  let n := NetworkSpeed.run
             (NetworkSpeed.mount no_window (fun _ => NetworkSpeedFacts.wifi)
                (Some NetworkSpeedFacts.cb1))
             [NetworkSpeed.Notify 0 NetworkSpeedFacts.slow] in
  let b := run (mount no_feature half true (Some cb1))
               [Settle (Fulfill RBattery); BatteryEvent "levelchange" low] in
  (NetworkSpeed.useNetworkSpeed n
   = {| NetworkSpeed.effectiveType := VString "unknown";
        NetworkSpeed.downlink := VNumber 0%float;
        NetworkSpeed.rtt := VNumber 0%float;
        NetworkSpeed.saveData := VBool false |}
   /\ NetworkSpeed.c_listeners (NetworkSpeed.heap n 0) = []
   /\ NetworkSpeed.published n = [])
  /\ (useBattery b
      = {| level := 1%float; charging := false; chargingTime := infinity;
           dischargingTime := infinity; supported := false |}
      /\ b_listeners (battery b) = []
      /\ published (log b) = []).
Proof.
  intros no_window no_feature n b.
  pose proof (safe_defaults_without_platform
                no_window (fun _ => NetworkSpeedFacts.wifi)
                (Some NetworkSpeedFacts.cb1)
                [NetworkSpeed.Notify 0 NetworkSpeedFacts.slow]
                no_feature half true (Some cb1)
                [Settle (Fulfill RBattery); BatteryEvent "levelchange" low]
                (or_introl eq_refl) (or_intror eq_refl)) as H.
  destruct H as ((_ & H1 & H2 & H3 & _) & (_ & H4 & H5 & H6 & _)).
  specialize (H2 0%nat).
  vm_compute in H1, H2, H3, H4, H5, H6. vm_compute.
  split; [split; [exact H1 | split; [exact H2 | exact H3]]
         | split; [exact H4 | split; [exact H5 | exact H6]]].
Defined.

(** C5: every listener an activation registered is gone once its teardown
    has run, whatever happens afterwards; and what the teardown removes is
    what the activation added: the ['change'] listener of
    [useNetworkSpeed], on the connection object it was added to, and the
    four battery listeners of [useBattery]. *)
Theorem listeners_released_at_teardown :
  forall e0 h0 c0 evs0 evs0' o e0' r0 t0 c0' bevs0 bevs0'
         e h cb evs conn e' r cb' pre post,
    NetworkSpeed.window_defined e = true ->
    NetworkSpeed.connection_in_navigator e = true ->
    NetworkSpeed.select_conn e = Some conn ->
    NetworkSpeedFacts.no_unmount evs ->
    window_defined e' = true -> getBattery_in_navigator e' = true ->
    getBattery e' = GetBatteryPromise ->
    no_settle pre -> no_unmount pre ->
    quiet_callback (latest_onChange cb' pre) = true ->
    no_unmount post ->
    (* after the teardown, in any environment and after any history *)
    NetworkSpeed.c_listeners
      (NetworkSpeed.heap
         (NetworkSpeed.run (NetworkSpeed.mount e0 h0 c0)
            (evs0 ++ NetworkSpeed.Unmount :: evs0')) o) = []
    /\ b_listeners
         (battery (run (mount e0' r0 t0 c0')
                     (bevs0 ++ Unmount :: bevs0'))) = []
    (* before it, with a connection object *)
    /\ NetworkSpeed.c_listeners
         (NetworkSpeed.heap
            (NetworkSpeed.run (NetworkSpeed.mount e h cb) evs) conn)
       = [("change", NetworkSpeed.HandleChange conn)]
    (* before it, with a battery object *)
    /\ b_listeners
         (battery (run (mount e' r true cb')
                     (pre ++ Settle (Fulfill RBattery) :: post)))
       = [("levelchange", HandleLevelChange);
          ("chargingchange", HandleChargingChange);
          ("chargingtimechange", HandleChargingTimeChange);
          ("dischargingtimechange", HandleDischargingTimeChange)].
Proof.
  intros e0 h0 c0 evs0 evs0' o e0' r0 t0 c0' bevs0 bevs0'
         e h cb evs conn e' r cb' pre post
         Hw Hc Hs Hn Hw' Hg' Hp' Hps Hpu Hq Hpost.
  split; [| split; [| split]].
  - rewrite NetworkSpeedFacts.net_run_app.
    set (n0 := NetworkSpeed.run (NetworkSpeed.mount e0 h0 c0) evs0).
    assert (Hok : NetworkSpeedFacts.listeners_ok n0)
      by apply NetworkSpeedFacts.reachable_ok.
    cbn [NetworkSpeed.run fold_left].
    fold (NetworkSpeed.run (NetworkSpeed.step n0 NetworkSpeed.Unmount) evs0').
    pose proof (NetworkSpeedFacts.step_listeners_ok n0 NetworkSpeed.Unmount
                  Hok) as Hok1.
    destruct (NetworkSpeedFacts.net_run_quiet evs0' _ Hok1
                (NetworkSpeedFacts.step_unmount_cleanup n0)) as [_ Hcl].
    rewrite (NetworkSpeedFacts.run_listeners_ok evs0' _ Hok1 o).
    unfold NetworkSpeedFacts.expected_listeners. rewrite Hcl. reflexivity.
  - rewrite bat_run_app.
    set (b0 := run (mount e0' r0 t0 c0') bevs0).
    assert (Hi : inv b0) by apply run_inv, mount_inv.
    cbn [run fold_left]. fold (run (step b0 Unmount) bevs0').
    pose proof (step_inv b0 Unmount Hi) as Hi1.
    destruct (bat_run_quiet bevs0' _ Hi1 (step_unmount_unmounted b0 Hi))
      as [_ Hu].
    apply unmounted_no_listeners; [apply run_inv, Hi1 | exact Hu].
  - rewrite (NetworkSpeedFacts.reachable_ok e h cb evs conn).
    unfold NetworkSpeedFacts.expected_listeners.
    rewrite (NetworkSpeedFacts.subscribed e h cb evs conn Hw Hc Hs Hn).
    rewrite Nat.eqb_refl. reflexivity.
  - assert (Hlive : live e' true cb' pre post)
      by (constructor; auto).
    destruct (live_listening e' r true cb' pre post Hlive) as (_ & Hl & _).
    exact Hl.
Qed.

Lemma listeners_released_at_teardown_witness :
  let n := NetworkSpeed.mount NetworkSpeedFacts.browser
             (fun _ => NetworkSpeedFacts.wifi) (Some NetworkSpeedFacts.cb1) in
  let b := mount browser half true (Some cb1) in
  NetworkSpeed.c_listeners
    (NetworkSpeed.heap
       (NetworkSpeed.run n [NetworkSpeed.Notify 0 NetworkSpeedFacts.slow]) 0)
  = [("change", NetworkSpeed.HandleChange 0)]
  /\ NetworkSpeed.c_listeners
       (NetworkSpeed.heap
          (NetworkSpeed.run n
             ([NetworkSpeed.Notify 0 NetworkSpeedFacts.slow]
              ++ NetworkSpeed.Unmount
                 :: [NetworkSpeed.Notify 0 NetworkSpeedFacts.wifi])) 0)
     = []
  /\ b_listeners
       (battery (run b ([Render None] ++ Settle (Fulfill RBattery)
                        :: [BatteryEvent "levelchange" low])))
     = [("levelchange", HandleLevelChange);
        ("chargingchange", HandleChargingChange);
        ("chargingtimechange", HandleChargingTimeChange);
        ("dischargingtimechange", HandleDischargingTimeChange)]
  /\ b_listeners
       (battery (run b ([Settle (Fulfill RBattery)]
                        ++ Unmount :: [BatteryEvent "levelchange" low])))
     = [].
Proof.
  intros n b.
  assert (H1 : NetworkSpeedFacts.no_unmount
                 [NetworkSpeed.Notify 0 NetworkSpeedFacts.slow])
    by (repeat constructor).
  assert (H2 : no_settle [Render None]) by (repeat constructor).
  assert (H3 : no_unmount [Render None]) by (repeat constructor).
  assert (H4 : no_unmount [BatteryEvent "levelchange" low])
    by (repeat constructor).
  pose proof (listeners_released_at_teardown
                NetworkSpeedFacts.browser (fun _ => NetworkSpeedFacts.wifi)
                (Some NetworkSpeedFacts.cb1)
                [NetworkSpeed.Notify 0 NetworkSpeedFacts.slow]
                [NetworkSpeed.Notify 0 NetworkSpeedFacts.wifi] 0%nat
                browser half true (Some cb1)
                [Settle (Fulfill RBattery)]
                [BatteryEvent "levelchange" low]
                NetworkSpeedFacts.browser (fun _ => NetworkSpeedFacts.wifi)
                (Some NetworkSpeedFacts.cb1)
                [NetworkSpeed.Notify 0 NetworkSpeedFacts.slow] 0%nat
                browser half (Some cb1) [Render None]
                [BatteryEvent "levelchange" low]
                eq_refl eq_refl eq_refl H1 eq_refl eq_refl eq_refl
                H2 H3 eq_refl H4) as (A & B & C & D).
  vm_compute in A, B, C, D. vm_compute.
  split; [exact C | split; [exact A | split; [exact D | exact B]]].
Defined.

(** C10: the [onChange] a notification invokes is the one of the latest
    render (the ref is refreshed after every render that supplies another
    callback), not the one captured when the listener was registered: a
    change notification of the connection object, and a battery event of
    one of the four types, call it exactly once with the snapshot they
    publish, and no step of either hook ever calls anything else. *)
Theorem latest_onChange_is_called :
  forall e0 h0 c0 evs0 ev0 e0' r0 t0 c0' bevs0 bev0
         e h cb evs conn rd e' r cb' pre post type rd',
    NetworkSpeed.window_defined e = true ->
    NetworkSpeed.connection_in_navigator e = true ->
    NetworkSpeed.select_conn e = Some conn ->
    NetworkSpeedFacts.no_unmount evs ->
    window_defined e' = true -> getBattery_in_navigator e' = true ->
    getBattery e' = GetBatteryPromise ->
    no_settle pre -> no_unmount pre ->
    quiet_callback (latest_onChange cb' pre) = true ->
    no_unmount post ->
    In type ["levelchange"; "chargingchange"; "chargingtimechange";
             "dischargingtimechange"] ->
    let n0 := NetworkSpeed.run (NetworkSpeed.mount e0 h0 c0) evs0 in
    let b0 := run (mount e0' r0 t0 c0') bevs0 in
    let n := NetworkSpeed.run (NetworkSpeed.mount e h cb) evs in
    let n' := NetworkSpeed.step n (NetworkSpeed.Notify conn rd) in
    let bevs := pre ++ Settle (Fulfill RBattery) :: post in
    let b := run (mount e' r true cb') bevs in
    let b' := step b (BatteryEvent type rd') in
    (* whatever a step calls is the callback of the latest render *)
    (exists l,
        NetworkSpeed.calls (NetworkSpeed.step n0 ev0)
        = NetworkSpeed.calls n0 ++ l
        /\ Forall (fun c => NetworkSpeed.latest_onChange c0 evs0
                            = Some (fst c)) l)
    /\ (exists l,
           calls (log (step b0 bev0)) = calls (log b0) ++ l
           /\ Forall (fun c => latest_onChange c0' bevs0 = Some (fst c)) l)
    (* and a notification does call it, once *)
    /\ NetworkSpeed.calls n'
       = NetworkSpeed.calls n
         ++ match NetworkSpeed.latest_onChange cb evs with
            | Some f => [(f, NetworkSpeed.useNetworkSpeed n')]
            | None => []
            end
    /\ calls (log b')
       = calls (log b)
         ++ match latest_onChange cb' bevs with
            | Some f => [(f, useBattery b')]
            | None => []
            end.
Proof.
  intros e0 h0 c0 evs0 ev0 e0' r0 t0 c0' bevs0 bev0
         e h cb evs conn rd e' r cb' pre post type rd'
         Hw Hc Hs Hn Hw' Hg' Hp' Hps Hpu Hq Hpost Hin n0 b0 n n' bevs b b'.
  split; [| split; [| split]].
  - destruct (NetworkSpeedFacts.net_step_calls n0 ev0
                (NetworkSpeedFacts.reachable_ok e0 h0 c0 evs0))
      as (l & E & F).
    exists l. split; [exact E |].
    destruct (NetworkSpeedFacts.net_run_ref evs0 _ c0
                (NetworkSpeedFacts.mount_listeners_ok e0 h0 c0)
                (NetworkSpeedFacts.net_mount_ref e0 h0 c0)) as [Hr _].
    fold n0 in Hr. unfold NetworkSpeedFacts.made_with in F.
    rewrite Hr in F. exact F.
  - destruct (step_calls b0 bev0 (run_inv bevs0 _ (mount_inv e0' r0 t0 c0')))
      as (l & E & F).
    exists l. split; [exact E |].
    destruct (bat_run_ref bevs0 _ c0' (mount_inv e0' r0 t0 c0')
                (bat_mount_ref e0' r0 t0 c0')) as [Hr _].
    fold b0 in Hr. unfold made_with in F. rewrite Hr in F. exact F.
  - assert (Hnin : ~ In NetworkSpeed.Unmount evs)
      by apply NetworkSpeedFacts.no_unmount_not_in, Hn.
    destruct (NetworkSpeedFacts.notify_subscribed
                e h cb evs conn rd Hw Hc Hs Hnin) as (S1 & _ & S3 & _).
    fold n n' in S1, S3. unfold NetworkSpeed.useNetworkSpeed.
    rewrite S3, S1. reflexivity.
  - assert (Hlive : live e' true cb' pre post) by (constructor; auto).
    destruct (live_listening e' r true cb' pre post Hlive) as (Hi & Hl & _).
    fold bevs b in Hi, Hl.
    destruct (battery_event_publishes b type rd' Hi Hl Hin)
      as (P1 & _ & P3 & _).
    fold b' in P1, P3.
    destruct (bat_run_ref bevs _ cb' (mount_inv e' r true cb')
                (bat_mount_ref e' r true cb')) as [Hr _].
    fold b in Hr. rewrite Hr in P3. unfold useBattery.
    rewrite P3, P1. reflexivity.
Qed.

Lemma latest_onChange_is_called_witness :
  let first := {| cb_id := 1; cb_throws := false |} in
  let second := {| cb_id := 2; cb_throws := false |} in
  let n' := NetworkSpeed.run
              (NetworkSpeed.mount NetworkSpeedFacts.browser
                 (fun _ => NetworkSpeedFacts.wifi) (Some first))
              [NetworkSpeed.Render (Some second);
               NetworkSpeed.Notify 0 NetworkSpeedFacts.slow] in
  let b' := run (mount browser half true (Some first))
                [Settle (Fulfill RBattery); Render (Some second);
                 BatteryEvent "chargingchange" low] in
  NetworkSpeed.calls n'
  = [(second,
      {| NetworkSpeed.effectiveType := VString "2g";
         NetworkSpeed.downlink := VNumber 0.25%float;
         NetworkSpeed.rtt := VNumber 1800%float;
         NetworkSpeed.saveData := VBool true |})]
  /\ calls (log b')
     = [(first,
         {| level := 0.5%float; charging := true;
            chargingTime := 1200%float; dischargingTime := infinity;
            supported := true |});
        (second,
         {| level := 0.125%float; charging := false;
            chargingTime := infinity; dischargingTime := 900%float;
            supported := true |})].
Proof.
  intros first second n' b'.
  assert (H1 : NetworkSpeedFacts.no_unmount
                 [NetworkSpeed.Render (Some second)])
    by (repeat constructor).
  assert (H2 : no_settle []) by constructor.
  assert (H3 : no_unmount []) by constructor.
  assert (H4 : no_unmount [Render (Some second)]) by (repeat constructor).
  assert (H5 : In "chargingchange"
                 ["levelchange"; "chargingchange"; "chargingtimechange";
                  "dischargingtimechange"])
    by (right; left; reflexivity).
  pose proof (latest_onChange_is_called
                NetworkSpeedFacts.browser (fun _ => NetworkSpeedFacts.wifi)
                (Some first) [] (NetworkSpeed.Render None)
                browser half true (Some first) [] (Render None)
                NetworkSpeedFacts.browser (fun _ => NetworkSpeedFacts.wifi)
                (Some first) [NetworkSpeed.Render (Some second)] 0%nat
                NetworkSpeedFacts.slow
                browser half (Some first) [] [Render (Some second)]
                "chargingchange" low
                eq_refl eq_refl eq_refl H1 eq_refl eq_refl eq_refl
                H2 H3 eq_refl H4 H5) as (_ & _ & C & D).
  vm_compute in C, D. vm_compute. split; [exact C | exact D].
Defined.

End Lifecycle.

Module IdleContract.

Import Idle IdleFacts.
Local Open Scope N_scope.

(** C6: with a positive timeout, once no tracked event has fired for at
    least the timeout after activation, the idle flag has become true
    exactly once and [onIdle] has fired exactly once; a tracked event in
    an idle state makes the state active and fires [onActive] exactly
    once, and no further idle transition or callback can follow before a
    full timeout has passed again. *)
Theorem idle_once_then_active_once :
  forall c t0 quiet s name later,
    interactive c = true -> 0 < timeoutMs c ->
    Forall (fun ev => no_activity c ev = true) quiet ->
    timeoutMs c <= elapsed quiet ->
    isIdle s = true -> In name (listeners s) ->
    elapsed later < timeoutMs c ->
    let s1 := run c (activate c t0) quiet in
    let s2 := step c s (Input name) in
    let s3 := run c s2 later in
    (isIdle s1 = true /\ callbacks s1 = [OnIdle]
     /\ transitions s1 = [BecameIdle])
    /\ (isIdle s2 = false /\ callbacks s2 = callbacks s ++ [OnActive]
        /\ transitions s2 = transitions s ++ [BecameActive])
    /\ (isIdle s3 = false /\ callbacks s3 = callbacks s2
        /\ transitions s3 = transitions s2).
Proof.
  intros c t0 quiet s name later Hi Hp Hq Hle Hidle Hin Hlt s1 s2 s3.
  split; [| split].
  - destruct (waiting_run c t0 quiet (activate c t0) 0
                (activate_waiting c t0 Hi Hp) Hq) as [[Hlt' _] | [_ Hf]].
    + lia.
    + destruct Hf as (F1 & _ & _ & F4 & F5). auto.
  - subst s2. cbn [step].
    rewrite (tracked_input_listens name (listeners s) Hin).
    unfold tracked_event. rewrite Hidle. cbn. auto.
  - assert (Ha : active c (now s2) (callbacks s2) (transitions s2) s2 0).
    { subst s2. cbn [step].
      rewrite (tracked_input_listens name (listeners s) Hin).
      unfold tracked_event. rewrite Hidle.
      repeat split; cbn; try lia; try reflexivity.
      right. eexists. split; [reflexivity | lia]. }
    destruct (active_run c (now s2) (callbacks s2) (transitions s2)
                later s2 0 Ha Hlt) as (A1 & _ & _ & A4 & A5).
    fold s3 in A1, A4, A5. auto.
Qed.

Lemma idle_once_then_active_once_witness :
  let c := {| timeoutMs := 5000;
              events := ["mousemove"; "mousedown"; "keydown"; "touchstart";
                         "scroll"];
              initialState := false; interactive := true |} in
  let s1 := run c (activate c 0) [Elapse 6000] in
  let s2 := step c s1 (Input "keydown") in
  let s3 := run c s2 [Elapse 1000; Input "scroll"; Elapse 3999] in
  (isIdle s1 = true /\ callbacks s1 = [OnIdle]
   /\ transitions s1 = [BecameIdle])
  /\ (isIdle s2 = false /\ callbacks s2 = [OnIdle; OnActive]
      /\ transitions s2 = [BecameIdle; BecameActive])
  /\ (isIdle s3 = false /\ callbacks s3 = [OnIdle; OnActive]
      /\ transitions s3 = [BecameIdle; BecameActive]).
Proof.
  intros c s1 s2 s3.
  assert (Hq : Forall (fun ev => no_activity c ev = true) [Elapse 6000])
    by (repeat constructor).
  assert (Hin : In "keydown" (listeners s1))
    by (vm_compute; tauto).
  pose proof (idle_once_then_active_once
                c 0 [Elapse 6000] s1 "keydown"
                [Elapse 1000; Input "scroll"; Elapse 3999]
                eq_refl eq_refl Hq) as H.
  assert (Hle : timeoutMs c <= elapsed [Elapse 6000])
    by (vm_compute; discriminate).
  assert (Hlt : elapsed [Elapse 1000; Input "scroll"; Elapse 3999]
                < timeoutMs c) by reflexivity.
  specialize (H Hle eq_refl Hin Hlt).
  vm_compute in H. vm_compute. exact H.
Defined.

End IdleContract.

Module GeolocationContract.

Import Geolocation GeolocationFacts.

(** C7: with [enabled] false, and for as long as it stays false, the
    geolocation accessor issues no platform position request and its
    state is [{loading: false, error: null, coordinates: null}], whatever
    else happens. *)
Theorem disabled_geolocation_stays_disabled :
  forall inter o evs,
    enabled o = false ->
    Forall (fun ev => keeps_disabled ev = true) evs ->
    let m := run (mount inter o) evs in
    useGeolocation m
    = {| loading := false; error := None; coordinates := None |}
    /\ requests m = [].
Proof.
  intros inter o evs He Hq m.
  destruct (run_dormant evs (mount inter o) (mount_dormant inter o He) Hq)
    as (_ & Hs & _ & _ & Hr).
  split; [exact Hs | exact Hr].
Qed.

Lemma disabled_geolocation_stays_disabled_witness :
  let off := {| enabled := false; watch := true;
                enableHighAccuracy := true; timeout := 5000%N;
                maximumAge := 0%N |} in
  let m := run (mount true off)
               [Retry; PlatformSuccess somewhere; Configure off;
                PlatformError {| code := 3; message := "timeout" |}] in
  useGeolocation m
  = {| loading := false; error := None; coordinates := None |}
  /\ requests m = [].
Proof.
  intros off m.
  assert (Hq : Forall (fun ev => keeps_disabled ev = true)
                 [Retry; PlatformSuccess somewhere; Configure off;
                  PlatformError {| code := 3; message := "timeout" |}])
    by (repeat constructor).
  pose proof (disabled_geolocation_stays_disabled true off
                [Retry; PlatformSuccess somewhere; Configure off;
                 PlatformError {| code := 3; message := "timeout" |}]
                eq_refl Hq) as H.
  vm_compute in H. vm_compute. exact H.
Defined.

End GeolocationContract.

Module DeviceDetectContract.

Import DeviceDetect DeviceDetectFacts.



End DeviceDetectContract.

(* ===================================================================== *)
(** * Part IV: further properties of the two monitors *)
(* ===================================================================== *)

Module NetworkBehaviour.

Import Js JsFacts NetworkSpeed NetworkSpeedFacts.

(** A value a consumer can use without a check: not [undefined], not
    [null], not [NaN], not the empty string. *)
Definition present (v : value) : Prop :=
  match v with
  | VUndefined => False
  | VNull => False
  | VBool _ => True
  | VNumber x => PrimFloat.eqb x x = true
  | VString s => s <> ""
  end.

Definition well_formed (i : NetworkSpeedInfo) : Prop :=
  present (effectiveType i) /\ present (downlink i)
  /\ present (rtt i) /\ present (saveData i).

Lemma or_present v d : present d -> present (Js.or v d).
Proof.
  intros Hd. unfold Js.or. destruct (truthy v) eqn:E; [| exact Hd].
  destruct v as [| | b | x | s]; cbn in E |- *; try discriminate.
  - exact I.
  - apply negb_true_iff, orb_false_iff in E. destruct E as [_ E].
    unfold PrimFloat.is_nan in E. apply negb_false_iff in E. exact E.
  - apply negb_true_iff in E. apply String.eqb_neq in E. exact E.
Qed.

Lemma read_info_well_formed c : well_formed (read_info c).
Proof.
  unfold well_formed, read_info. cbn.
  repeat split; apply or_present; cbn; try reflexivity; try exact I.
  discriminate.
Qed.

Lemma default_well_formed : well_formed defaultInfo.
Proof. repeat split; cbn; try reflexivity; discriminate. Qed.

(** All the snapshots of a world. *)
Definition snapshots_ok (w : World) : Prop :=
  well_formed (networkInfo w)
  /\ Forall well_formed (published w)
  /\ Forall (fun c => well_formed (snd c)) (calls w).

Lemma mount_snapshots_ok e h cb : snapshots_ok (mount e h cb).
Proof.
  assert (Hi : well_formed (networkInfo (mount e h cb))).
  { destruct e as [wd cin c1 c2 c3].
    destruct wd, cin; try apply default_well_formed;
      destruct c1 as [a|]; [| destruct c2 as [a|]; [| destruct c3 as [a|]]];
      try apply (read_info_well_formed (fresh (h a)));
      apply default_well_formed. }
  assert (Hp : published (mount e h cb) = [] /\ calls (mount e h cb) = []).
  { destruct e as [wd cin c1 c2 c3].
    destruct wd, cin; try (split; reflexivity);
      destruct c1 as [a|]; [| destruct c2 as [a|]; [| destruct c3 as [a|]]];
      split; reflexivity. }
  destruct Hp as [Hp Hc]. unfold snapshots_ok. rewrite Hp, Hc.
  split; [exact Hi | split; constructor].
Qed.

Lemma step_snapshots_ok w ev :
  listeners_ok w -> snapshots_ok w -> snapshots_ok (step w ev).
Proof.
  intros Hok Hs. destruct ev as [cb | o r |].
  - unfold step, Eff.exec, handle, refresh_effect, Eff.bind, Eff.gets. cbn.
    destruct (negb (same_dep (onChangeDep w) cb)); exact Hs.
  - rewrite (step_notify w o r Hok).
    assert (Hst : snapshots_ok (stored o r w)) by exact Hs.
    destruct (effectCleanup w) as [c|]; [destruct (Nat.eqb o c) |];
      try exact Hst.
    destruct Hs as (Hi & Hp & Hc).
    unfold snapshots_ok, after_handleChange.
    cbn [networkInfo published calls stored set_heap onChangeRef].
    pose proof (read_info_well_formed
                  (update_obj o (store r (heap w o)) (heap w) o)) as Hr.
    split; [exact Hr | split].
    + apply Forall_app. split; [exact Hp | constructor; [exact Hr | constructor]].
    + apply Forall_app. split; [exact Hc |].
      destruct (onChangeRef w); constructor; [exact Hr | constructor].
  - unfold step, Eff.exec, handle, run_cleanup, Eff.bind, Eff.gets.
    destruct (effectCleanup w); exact Hs.
Qed.

Lemma run_snapshots_ok evs : forall w,
  listeners_ok w -> snapshots_ok w -> snapshots_ok (run w evs).
Proof.
  induction evs as [| ev evs IH]; intros w Hok Hs; [exact Hs |].
  apply IH; [apply step_listeners_ok, Hok | apply step_snapshots_ok; assumption].
Qed.

(** X1: no snapshot [useNetworkSpeed] returns, publishes or hands to
    [onChange] has a field that is [undefined], [null], [NaN] or the empty
    string, whatever the platform object holds. *)
Theorem snapshots_are_well_formed :
  forall e h cb evs,
    let w := run (mount e h cb) evs in
    well_formed (useNetworkSpeed w)
    /\ Forall well_formed (published w)
    /\ Forall (fun c => well_formed (snd c)) (calls w).
Proof.
  intros e h cb evs w.
  apply (run_snapshots_ok evs (mount e h cb)
           (mount_listeners_ok e h cb) (mount_snapshots_ok e h cb)).
Qed.






(** X3: when ['connection'] is a key of [navigator] but none of
    [connection], [mozConnection], [webkitConnection] holds an object, the
    hook returns the default snapshot, warns about nothing, registers no
    listener, and nothing that happens later changes that. *)
Theorem feature_key_without_object :
  forall e h cb evs o,
    select_conn e = None ->
    let w := run (mount e h cb) evs in
    useNetworkSpeed w
    = {| effectiveType := VString "unknown";
         downlink := VNumber PrimFloat.zero;
         rtt := VNumber PrimFloat.zero; saveData := VBool false |}
    /\ published w = [] /\ calls w = []
    /\ c_listeners (heap w o) = []
    /\ console (mount e h cb) = [].
Proof.
  intros e h cb evs o Hs w.
  assert (Hm : effectCleanup (mount e h cb) = None
               /\ observed (mount e h cb) = (defaultInfo, [], [], [])
               /\ console (mount e h cb) = []).
  { destruct e as [wd cin c1 c2 c3]. unfold select_conn in Hs. cbn in Hs.
    destruct c1; [discriminate |]. destruct c2; [discriminate |].
    subst c3. destruct wd, cin; repeat split. }
  destruct Hm as (Hc & Ho & Hco).
  destruct (net_run_quiet evs _ (mount_listeners_ok e h cb) Hc) as [Hq Hc2].
  fold w in Hq, Hc2. rewrite Ho in Hq. unfold observed in Hq.
  injection Hq as H1 H2 H3 _. unfold useNetworkSpeed.
  rewrite H1, H2, H3.
  repeat split; [| exact Hco].
  unfold w. rewrite (reachable_ok e h cb evs o).
  unfold expected_listeners. fold w. rewrite Hc2. reflexivity.
Qed.

Lemma feature_key_without_object_witness :
  let e := {| window_defined := true; connection_in_navigator := true;
              nav_connection := None; nav_mozConnection := None;
              nav_webkitConnection := None |} in
  let w := run (mount e (fun _ => wifi) (Some cb1)) [Notify 0 slow] in
  useNetworkSpeed w
  = {| effectiveType := VString "unknown"; downlink := VNumber 0%float;
       rtt := VNumber 0%float; saveData := VBool false |}
  /\ published w = [] /\ calls w = []
  /\ c_listeners (heap w 0) = [].
Proof.
  intros e w.
  pose proof (feature_key_without_object e (fun _ => wifi) (Some cb1)
                [Notify 0 slow] 0 eq_refl) as H.
  vm_compute in H. destruct H as (H1 & H2 & H3 & H4 & _).
  vm_compute. auto.
Defined.

(** X4: a change notification of a connection object other than the one
    the hook subscribed to publishes nothing and calls nothing: the
    listener is registered on the selected object only. *)
Theorem foreign_notification_is_ignored :
  forall e h cb evs conn o r,
    select_conn e = Some conn -> o <> conn ->
    let w := run (mount e h cb) evs in
    let w' := step w (Notify o r) in
    useNetworkSpeed w' = useNetworkSpeed w
    /\ published w' = published w
    /\ calls w' = calls w
    /\ c_listeners (heap w o) = [].
Proof.
  intros e h cb evs conn o r Hs Hne w w'.
  pose proof (reachable_ok e h cb evs) as Hok. fold w in Hok.
  assert (Hc : effectCleanup w = None \/ effectCleanup w = Some conn).
  { assert (Hm : effectCleanup (mount e h cb) = None
                 \/ effectCleanup (mount e h cb) = Some conn).
    { destruct e as [wd cin c1 c2 c3].
      destruct wd, cin; try (left; reflexivity).
      right. apply mount_subscribes; auto. }
    assert (Hgen : forall evs' w0, listeners_ok w0 ->
              (effectCleanup w0 = None \/ effectCleanup w0 = Some conn) ->
              effectCleanup (run w0 evs') = None
              \/ effectCleanup (run w0 evs') = Some conn).
    { induction evs' as [| ev evs' IH]; intros w0 Hok0 H0; [exact H0 |].
      cbn [run fold_left]. fold (run (step w0 ev) evs').
      apply IH; [apply step_listeners_ok, Hok0 |].
      destruct ev as [cb' | o' r' |].
      - rewrite step_keeps_cleanup by (assumption || discriminate). exact H0.
      - rewrite step_keeps_cleanup by (assumption || discriminate). exact H0.
      - left. apply step_unmount_cleanup. }
    apply Hgen; [apply mount_listeners_ok | exact Hm]. }
  assert (Hneq : Nat.eqb o conn = false) by (apply Nat.eqb_neq, Hne).
  subst w'. rewrite (step_notify w o r Hok).
  rewrite (Hok o). unfold expected_listeners.
  destruct Hc as [-> | ->]; [| rewrite Hneq]; repeat split.
Qed.

Lemma foreign_notification_is_ignored_witness :
  let w := mount browser (fun _ => wifi) (Some cb1) in
  let w' := step w (Notify 5 slow) in
  useNetworkSpeed w'
  = {| effectiveType := VString "4g"; downlink := VNumber 10%float;
       rtt := VNumber 50%float; saveData := VBool false |}
  /\ published w' = [] /\ calls w' = [].
Proof.
  intros w w'.
  assert (Hne : 5%nat <> 0%nat) by discriminate.
  pose proof (foreign_notification_is_ignored browser (fun _ => wifi)
                (Some cb1) [] 0 5 slow eq_refl Hne) as H.
  vm_compute in H. destruct H as (H1 & H2 & H3 & _).
  vm_compute. auto.
Defined.

(** X5: an [onChange] that throws does not keep the snapshot from being
    published ([setNetworkInfo] comes first) and does not end the
    subscription; [handleChange] has no handler of its own, so the error
    reaches the platform's event dispatch. *)
Theorem throwing_onChange_still_publishes :
  forall e h cb evs conn r r' f,
    window_defined e = true -> connection_in_navigator e = true ->
    select_conn e = Some conn -> ~ In Unmount evs ->
    latest_onChange cb evs = Some f -> cb_throws f = true ->
    let w := run (mount e h cb) evs in
    let w1 := step w (Notify conn r) in
    let w2 := step w1 (Notify conn r') in
    useNetworkSpeed w1 = expected_snapshot r
    /\ uncaught w1 = uncaught w ++ ["callback error"]
    /\ useNetworkSpeed w2 = expected_snapshot r'
    /\ calls w2
       = calls w ++ [(f, expected_snapshot r); (f, expected_snapshot r')].
Proof.
  intros e h cb evs conn r r' f Hw Hc Hs Hn Hl Ht w w1 w2.
  destruct (notify_subscribed e h cb evs conn r Hw Hc Hs Hn)
    as (A1 & _ & A3 & A4 & _).
  fold w w1 in A1, A3, A4. rewrite Hl in A3, A4. rewrite Ht in A4.
  assert (Hn2 : ~ In Unmount (evs ++ [Notify conn r])).
  { intros Hin. apply in_app_or in Hin. destruct Hin as [Hin | [Hin | []]];
      [exact (Hn Hin) | discriminate Hin]. }
  destruct (notify_subscribed e h cb (evs ++ [Notify conn r]) conn r'
              Hw Hc Hs Hn2) as (B1 & _ & B3 & _).
  rewrite net_run_app in B1, B3.
  change (run (run (mount e h cb) evs) [Notify conn r]) with w1 in B1, B3.
  fold w2 in B1, B3.
  rewrite net_latest_onChange_app in B3. cbn [latest_onChange fold_left] in B3.
  rewrite Hl in B3. unfold useNetworkSpeed.
  rewrite A1, A4, B1, B3, A3, <- app_assoc, !snapshot_of_expected.
  repeat split.
Qed.

Lemma throwing_onChange_still_publishes_witness :
  let thrower := {| cb_id := 9; cb_throws := true |} in
  let w := mount browser (fun _ => wifi) (Some thrower) in
  let w2 := run w [Notify 0 slow; Notify 0 wifi] in
  useNetworkSpeed w2
  = {| effectiveType := VString "4g"; downlink := VNumber 10%float;
       rtt := VNumber 50%float; saveData := VBool false |}
  /\ calls w2
     = [(thrower,
         {| effectiveType := VString "2g"; downlink := VNumber 0.25%float;
            rtt := VNumber 1800%float; saveData := VBool true |});
        (thrower,
         {| effectiveType := VString "4g"; downlink := VNumber 10%float;
            rtt := VNumber 50%float; saveData := VBool false |})].
Proof.
  intros thrower w w2.
  assert (Hn : ~ In Unmount []) by (intros []).
  pose proof (throwing_onChange_still_publishes browser (fun _ => wifi)
                (Some thrower) [] 0 slow wifi thrower
                eq_refl eq_refl eq_refl Hn eq_refl eq_refl) as H.
  vm_compute in H. destruct H as (_ & _ & H3 & H4).
  vm_compute. auto.
Defined.

(** Every render supplies a callback. *)
Definition supplies (ev : Event) : bool :=
  match ev with
  | Render None => false
  | _ => true
  end.

Definition mirrored (w : World) : Prop :=
  (exists f, onChangeRef w = Some f)
  /\ map snd (calls w) = published w.

Lemma step_mirrored w ev :
  listeners_ok w -> supplies ev = true -> mirrored w -> mirrored (step w ev).
Proof.
  intros Hok Hev [[f Hf] Hm]. destruct ev as [[g|] | o r |];
    try discriminate.
  - unfold step, Eff.exec, handle, refresh_effect, Eff.bind, Eff.gets.
    cbn [negb orb].
    destruct (negb (same_dep (onChangeDep w) (Some g)));
      split; cbn; eauto.
  - rewrite (step_notify w o r Hok).
    destruct (effectCleanup w) as [c|]; [destruct (Nat.eqb o c) |];
      try (split; cbn; eauto; fail).
    unfold mirrored, after_handleChange.
    cbn [published calls stored set_heap onChangeRef]. rewrite Hf.
    split; [eauto |]. rewrite map_app, Hm. reflexivity.
  - unfold step, Eff.exec, handle, run_cleanup, Eff.bind, Eff.gets.
    destruct (effectCleanup w); split; eauto.
Qed.

Lemma run_mirrored evs : forall w,
  listeners_ok w -> Forall (fun ev => supplies ev = true) evs ->
  mirrored w -> mirrored (run w evs).
Proof.
  induction evs as [| ev evs IH]; intros w Hok Hs Hm; [exact Hm |].
  inversion Hs as [| ? ? Hev Hrest]; subst.
  apply IH; [apply step_listeners_ok, Hok | exact Hrest |].
  apply step_mirrored; assumption.
Qed.

(** X6: where an [onChange] is supplied at every render, the snapshots it
    has received are exactly the snapshots published through
    [setNetworkInfo], in the same order: each publish is followed by one
    call with the same object, and there is no call without a publish. *)
Theorem onChange_mirrors_published :
  forall e h f evs,
    Forall (fun ev => supplies ev = true) evs ->
    let w := run (mount e h (Some f)) evs in
    map snd (calls w) = published w.
Proof.
  intros e h f evs Hs w.
  assert (Hm : mirrored (mount e h (Some f))).
  { destruct (net_mount_ref e h (Some f)) as [Hr _].
    split; [eauto |].
    destruct e as [wd cin c1 c2 c3].
    destruct wd, cin; try reflexivity;
      destruct c1 as [a|]; [| destruct c2 as [a|]; [| destruct c3 as [a|]]];
      reflexivity. }
  destruct (run_mirrored evs _ (mount_listeners_ok e h (Some f)) Hs Hm)
    as [_ H].
  exact H.
Qed.

Lemma onChange_mirrors_published_witness :
  let w := run (mount browser (fun _ => wifi) (Some cb1))
               [Notify 0 slow; Render (Some cb2); Notify 0 wifi; Unmount;
                Notify 0 slow] in
  map snd (calls w)
  = [{| effectiveType := VString "2g"; downlink := VNumber 0.25%float;
        rtt := VNumber 1800%float; saveData := VBool true |};
     {| effectiveType := VString "4g"; downlink := VNumber 10%float;
        rtt := VNumber 50%float; saveData := VBool false |}]
  /\ published w = map snd (calls w).
Proof.
  intros w.
  assert (Hs : Forall (fun ev => supplies ev = true)
                 [Notify 0 slow; Render (Some cb2); Notify 0 wifi; Unmount;
                  Notify 0 slow]) by (repeat constructor).
  pose proof (onChange_mirrors_published browser (fun _ => wifi) cb1
                [Notify 0 slow; Render (Some cb2); Notify 0 wifi; Unmount;
                 Notify 0 slow] Hs) as H.
  vm_compute in H. vm_compute. split; [reflexivity | exact H].
Defined.

End NetworkBehaviour.

Module BatteryBehaviour.

Import Js JsFacts Battery BatteryFacts.

(** The history in which [initBattery] runs to its end: the feature is
    there, [navigator.getBattery()] returns a promise, the first settlement
    fulfils it with a battery object that is an event target, the component
    is still mounted then, and the [onChange] of the time, if any, returns
    normally. *)
Definition initialised (e : Env) (t : bool) (cb : option Callback)
  (evs : list Event) : Prop :=
  window_defined e = true /\ getBattery_in_navigator e = true
  /\ getBattery e = GetBatteryPromise /\ t = true
  /\ exists pre post,
       evs = pre ++ Settle (Fulfill RBattery) :: post
       /\ no_settle pre /\ no_unmount pre
       /\ quiet_callback (latest_onChange cb pre) = true.

Lemma without_feature_unsupported e r t cb evs :
  window_defined e = false \/ getBattery_in_navigator e = false ->
  batteryStatus (hook (run (mount e r t cb) evs)) = unsupported.
Proof.
  intros He.
  pose proof (bat_mount_without_feature e r t cb He) as Hm.
  assert (Hw : mount e r t cb = snd (first_render cb (blank e r t cb)))
    by reflexivity.
  rewrite Hm in Hw. cbn [snd] in Hw.
  assert (Hu : mounted (act (mount e r t cb)) = false)
    by (rewrite Hw; reflexivity).
  destruct (bat_run_quiet evs _ (mount_inv e r t cb) Hu) as [Ho _].
  unfold observed in Ho. injection Ho as H1 _ _ _.
  rewrite H1, Hw. reflexivity.
Qed.

Lemma supported_initialised e r t cb evs :
  supported (batteryStatus (hook (run (mount e r t cb) evs))) = true ->
  initialised e t cb evs.
Proof.
  intros Hs.
  destruct (window_defined e) eqn:Hwd.
  2:{ rewrite (without_feature_unsupported e r t cb evs (or_introl Hwd)) in Hs.
      discriminate. }
  destruct (getBattery_in_navigator e) eqn:Hgin.
  2:{ rewrite (without_feature_unsupported e r t cb evs (or_intror Hgin)) in Hs.
      discriminate. }
  destruct (getBattery e) as [err |] eqn:Hg.
  { destruct (mount_sync_throw e r t cb err Hwd Hgin Hg) as (M1 & _ & M3 & _).
    destruct (run_failed evs _ (mount_inv e r t cb) M3) as (F1 & _).
    rewrite F1, M1 in Hs. discriminate. }
  destruct (first_settle evs) as [Hns | (pre & s & post & -> & Hps)].
  { destruct (before_settle e r t cb evs Hwd Hgin Hg Hns) as (Hi & Ha & _).
    destruct (inv_waiting _ Hi Ha) as (_ & _ & Hst & _).
    rewrite Hst in Hs. discriminate. }
  destruct (before_settle e r t cb pre Hwd Hgin Hg Hps)
    as (Hi1 & Ha1 & Ht1 & Hr1 & _).
  rewrite bat_run_app in Hs.
  set (w1 := run (mount e r t cb) pre) in *.
  cbn [run fold_left] in Hs. fold (run (step w1 (Settle s)) post) in Hs.
  destruct (succeeds w1 s) eqn:Hok.
  - destruct s as [[v|]|err]; try discriminate.
    cbn in Hok. apply andb_true_iff in Hok. destruct Hok as [Hok Hq].
    apply andb_true_iff in Hok. destruct Hok as [Hm Het].
    rewrite Ht1 in Het. rewrite Hr1 in Hq.
    repeat (split; [reflexivity || assumption |]).
    exists pre, post. split; [reflexivity |]. split; [exact Hps |].
    split; [| exact Hq].
    apply (mounted_no_unmount pre _ (mount_inv e r t cb)). exact Hm.
  - destruct (settle_not_live w1 s Hi1 Ha1 Hok) as [N1 N2].
    destruct (run_failed post _ (step_inv w1 (Settle s) Hi1) N2) as (F1 & _).
    rewrite F1, N1 in Hs. discriminate.
Qed.

Lemma initialised_supported e r t cb evs :
  initialised e t cb evs ->
  supported (batteryStatus (hook (run (mount e r t cb) evs))) = true.
Proof.
  intros (Hwd & Hgin & Hg & Ht & pre & post & -> & Hps & Hpu & Hq).
  destruct (before_settle e r t cb pre Hwd Hgin Hg Hps)
    as (Hi1 & Ha1 & Ht1 & Hr1 & _).
  rewrite bat_run_app.
  set (w1 := run (mount e r t cb) pre) in *.
  assert (Hm1 : mounted (act w1) = true).
  { unfold w1. rewrite (run_keeps_mounted pre _ (mount_inv e r t cb) Hpu).
    apply (mount_awaiting e r t cb Hwd Hgin Hg). }
  rewrite Ht in Ht1. rewrite <- Hr1 in Hq.
  destruct (settle_success w1 Hi1 Ha1 Hm1 Ht1 Hq)
    as (S1 & _ & _ & _ & _ & _ & _ & S8).
  cbn [run fold_left]. fold (run (step w1 (Settle (Fulfill RBattery))) post).
  apply run_keeps_supported;
    [apply step_inv, Hi1 | exact S8 | rewrite S1; reflexivity].
Qed.

(** X7: the status the hook returns has [supported: true] exactly when
    [initBattery] ran to its end: the feature test passed, the promise of
    [navigator.getBattery()] was fulfilled, the first time it settled and
    before any teardown, with a battery object that takes listeners, and the
    [onChange] of that moment returned normally.  In every other history,
    whatever the later events, [supported] is false. *)
Theorem supported_exactly_when_initialised :
  forall e r t cb evs,
    supported (useBattery (run (mount e r t cb) evs)) = true
    <-> initialised e t cb evs.
Proof.
  intros e r t cb evs. unfold useBattery. split.
  - apply supported_initialised.
  - apply initialised_supported.
Qed.

Lemma supported_exactly_when_initialised_witness :
  supported (useBattery
               (run (mount browser half true (Some cb1))
                    [Render (Some cb2); BatteryEvent "levelchange" low;
                     Settle (Fulfill RBattery); Unmount])) = true
  /\ ~ initialised browser true (Some cb1)
         [Unmount; Settle (Fulfill RBattery)]
  /\ useBattery (run (mount browser half true (Some cb1))
                     [Unmount; Settle (Fulfill RBattery)])
     = {| level := 1%float; charging := false; chargingTime := infinity;
          dischargingTime := infinity; supported := false |}.
Proof.
  split; [| split].
  - apply (proj2 (supported_exactly_when_initialised browser half true
                    (Some cb1)
                    [Render (Some cb2); BatteryEvent "levelchange" low;
                     Settle (Fulfill RBattery); Unmount])).
    repeat (split; [reflexivity |]).
    exists [Render (Some cb2); BatteryEvent "levelchange" low], [Unmount].
    split; [reflexivity |].
    split; [repeat constructor |]. split; [repeat constructor | reflexivity].
  - intros H.
    apply (proj2 (supported_exactly_when_initialised browser half true
                    (Some cb1) [Unmount; Settle (Fulfill RBattery)])) in H.
    vm_compute in H. discriminate.
  - vm_compute. reflexivity.
Defined.

(** X8: an [onChange] that throws while [initBattery] reports the first
    status ends the monitoring.  The status was already published and
    handed to the callback; the error lands in the [catch] block of
    [initBattery], which logs it with [console.warn] and publishes the
    default status again; no listener is ever registered, the error does
    not escape, and no later event changes any of this. *)
Theorem throwing_onChange_ends_initialisation :
  forall e r cb pre post f,
    window_defined e = true -> getBattery_in_navigator e = true ->
    getBattery e = GetBatteryPromise ->
    no_settle pre -> no_unmount pre ->
    latest_onChange cb pre = Some f -> cb_throws f = true ->
    let w := run (mount e r true cb)
                 (pre ++ Settle (Fulfill RBattery) :: post) in
    let first := status_of (latest_reading r pre) in
    useBattery w = unsupported
    /\ published (log w) = [first; unsupported]
    /\ calls (log w) = [(f, first)]
    /\ console (log w) = [("Error accessing battery status:", "callback error")]
    /\ uncaught (log w) = []
    /\ b_listeners (battery w) = [].
Proof.
  intros e r cb pre post f Hwd Hgin Hg Hps Hpu Hf Hthr w first.
  assert (Hbad : true && quiet_callback (latest_onChange cb pre) = false)
    by (rewrite Hf; cbn; rewrite Hthr; reflexivity).
  destruct (init_gives_up e r true cb pre post Hwd Hgin Hg Hps Hpu Hbad)
    as (H1 & H2 & H3 & H4 & H5 & H6).
  fold w in H1, H2, H3, H4, H5, H6. unfold init_error in H4.
  rewrite Hf in H3, H4. cbn [quiet_callback] in H4. rewrite Hthr in H4.
  repeat split; assumption.
Qed.

Lemma throwing_onChange_ends_initialisation_witness :
  let thrower := {| cb_id := 9; cb_throws := true |} in
  let w := run (mount browser half true (Some cb1))
               ([Render (Some thrower)]
                ++ Settle (Fulfill RBattery)
                   :: [BatteryEvent "levelchange" low; Render (Some cb1);
                       BatteryEvent "chargingchange" low]) in
  useBattery w
  = {| level := 1%float; charging := false; chargingTime := infinity;
       dischargingTime := infinity; supported := false |}
  /\ published (log w)
     = [{| level := 0.5%float; charging := true; chargingTime := 1200%float;
           dischargingTime := infinity; supported := true |};
        {| level := 1%float; charging := false; chargingTime := infinity;
           dischargingTime := infinity; supported := false |}]
  /\ calls (log w)
     = [(thrower,
         {| level := 0.5%float; charging := true; chargingTime := 1200%float;
            dischargingTime := infinity; supported := true |})]
  /\ console (log w) = [("Error accessing battery status:", "callback error")]
  /\ uncaught (log w) = []
  /\ b_listeners (battery w) = [].
Proof.
  intros thrower w.
  assert (Hps : no_settle [Render (Some thrower)]) by (repeat constructor).
  assert (Hpu : no_unmount [Render (Some thrower)]) by (repeat constructor).
  pose proof (throwing_onChange_ends_initialisation browser half (Some cb1)
                [Render (Some thrower)]
                [BatteryEvent "levelchange" low; Render (Some cb1);
                 BatteryEvent "chargingchange" low]
                thrower eq_refl eq_refl eq_refl Hps Hpu eq_refl eq_refl) as H.
  vm_compute in H. vm_compute. exact H.
Defined.

(** X9: a battery object that has no [addEventListener].  The validation
    of [initBattery] lets it through, so its first status is published and
    handed to [onChange]; the first [addEventListener] call then throws a
    [TypeError], which the [catch] block logs before it publishes the
    default status again.  The consumer has seen [supported: true] once and
    ends with [supported: false]. *)
Theorem battery_without_listeners_is_published_once :
  forall e r cb pre post,
    window_defined e = true -> getBattery_in_navigator e = true ->
    getBattery e = GetBatteryPromise ->
    no_settle pre -> no_unmount pre ->
    quiet_callback (latest_onChange cb pre) = true ->
    let w := run (mount e r false cb)
                 (pre ++ Settle (Fulfill RBattery) :: post) in
    let first := status_of (latest_reading r pre) in
    useBattery w = unsupported
    /\ published (log w) = [first; unsupported]
    /\ calls (log w) = match latest_onChange cb pre with
                       | Some f => [(f, first)]
                       | None => []
                       end
    /\ console (log w)
       = [("Error accessing battery status:",
           "TypeError: battery.addEventListener is not a function")]
    /\ uncaught (log w) = []
    /\ b_listeners (battery w) = [].
Proof.
  intros e r cb pre post Hwd Hgin Hg Hps Hpu Hq w first.
  destruct (init_gives_up e r false cb pre post Hwd Hgin Hg Hps Hpu eq_refl)
    as (H1 & H2 & H3 & H4 & H5 & H6).
  fold w in H1, H2, H3, H4, H5, H6. unfold init_error in H4.
  rewrite Hq in H4.
  repeat split; assumption.
Qed.

Lemma battery_without_listeners_is_published_once_witness :
  let w := run (mount browser half false (Some cb1))
               ([BatteryEvent "levelchange" low; Render (Some cb2)]
                ++ Settle (Fulfill RBattery)
                   :: [BatteryEvent "levelchange" half]) in
  useBattery w
  = {| level := 1%float; charging := false; chargingTime := infinity;
       dischargingTime := infinity; supported := false |}
  /\ published (log w)
     = [{| level := 0.125%float; charging := false; chargingTime := infinity;
           dischargingTime := 900%float; supported := true |};
        {| level := 1%float; charging := false; chargingTime := infinity;
           dischargingTime := infinity; supported := false |}]
  /\ calls (log w)
     = [(cb2,
         {| level := 0.125%float; charging := false; chargingTime := infinity;
            dischargingTime := 900%float; supported := true |})]
  /\ console (log w)
     = [("Error accessing battery status:",
         "TypeError: battery.addEventListener is not a function")]
  /\ uncaught (log w) = []
  /\ b_listeners (battery w) = [].
Proof.
  intros w.
  assert (Hps : no_settle [BatteryEvent "levelchange" low; Render (Some cb2)])
    by (repeat constructor).
  assert (Hpu : no_unmount [BatteryEvent "levelchange" low; Render (Some cb2)])
    by (repeat constructor).
  pose proof (battery_without_listeners_is_published_once browser half
                (Some cb1)
                [BatteryEvent "levelchange" low; Render (Some cb2)]
                [BatteryEvent "levelchange" half]
                eq_refl eq_refl eq_refl Hps Hpu eq_refl) as H.
  vm_compute in H. vm_compute. exact H.
Defined.

(** *** Battery events on a live subscription *)

Lemma event_keeps_console w type rd :
  inv w -> b_listeners (battery w) = four_listeners ->
  In type battery_events ->
  console (log (step w (BatteryEvent type rd))) = console (log w).
Proof.
  intros Hi Hl Hin. rewrite (step_event_listening w type rd Hi Hl Hin).
  unfold after_update. cbn [act with_battery mounted].
  destruct (mounted (act w)); reflexivity.
Qed.

(** X10: which battery events reach the hook.  On a live subscription an
    event of one of the four types [levelchange], [chargingchange],
    [chargingtimechange], [dischargingtimechange] publishes exactly one new
    status, read from the battery object at that moment, whichever of the
    four it is; an event of any other type publishes nothing and calls
    nothing, even though the attributes of the battery object changed. *)
Theorem only_the_four_event_types_publish :
  forall e r t cb pre post type rd,
    live e t cb pre post ->
    let w := run (mount e r t cb)
                 (pre ++ Settle (Fulfill RBattery) :: post) in
    let w' := step w (BatteryEvent type rd) in
    (In type ["levelchange"; "chargingchange"; "chargingtimechange";
              "dischargingtimechange"] ->
     useBattery w' = status_of rd
     /\ published (log w') = published (log w) ++ [status_of rd])
    /\ (~ In type ["levelchange"; "chargingchange"; "chargingtimechange";
                   "dischargingtimechange"] ->
        useBattery w' = useBattery w
        /\ published (log w') = published (log w)
        /\ calls (log w') = calls (log w)
        /\ reading_of (battery w') = rd).
Proof.
  intros e r t cb pre post type rd Hlive w w'.
  destruct (live_listening e r t cb pre post Hlive) as (Hi & Hl & _).
  fold w in Hi, Hl. split.
  - intros Hin.
    destruct (battery_event_publishes w type rd Hi Hl Hin) as (H1 & H2 & _).
    split; assumption.
  - intros Hnin. unfold w'.
    rewrite (step_event_other w type rd Hi Hnin).
    repeat split. destruct rd; reflexivity.
Qed.

Lemma only_the_four_event_types_publish_witness :
  let odd := {| r_level := VString "0.3"; r_charging := VUndefined;
                r_chargingTime := VNumber 60%float;
                r_dischargingTime := VNull |} in
  let w := run (mount browser half true (Some cb1))
               ([] ++ Settle (Fulfill RBattery) :: []) in
  (useBattery (step w (BatteryEvent "chargingtimechange" odd))
   = {| level := 1%float; charging := false; chargingTime := 60%float;
        dischargingTime := infinity; supported := true |}
   /\ published (log (step w (BatteryEvent "chargingtimechange" odd)))
      = [{| level := 0.5%float; charging := true; chargingTime := 1200%float;
            dischargingTime := infinity; supported := true |};
         {| level := 1%float; charging := false; chargingTime := 60%float;
            dischargingTime := infinity; supported := true |}])
  /\ (useBattery (step w (BatteryEvent "change" low))
      = {| level := 0.5%float; charging := true; chargingTime := 1200%float;
           dischargingTime := infinity; supported := true |}
      /\ published (log (step w (BatteryEvent "change" low)))
         = [{| level := 0.5%float; charging := true;
               chargingTime := 1200%float;
               dischargingTime := infinity; supported := true |}]
      /\ calls (log (step w (BatteryEvent "change" low)))
         = [(cb1, {| level := 0.5%float; charging := true;
                     chargingTime := 1200%float;
                     dischargingTime := infinity; supported := true |})]).
Proof.
  intros odd w.
  assert (Hlive : live browser true (Some cb1) [] []).
  { constructor; try reflexivity; constructor. }
  split.
  - pose proof (proj1 (only_the_four_event_types_publish browser half true
                         (Some cb1) [] [] "chargingtimechange" odd Hlive))
      as H.
    assert (Hin : In "chargingtimechange"
                    ["levelchange"; "chargingchange"; "chargingtimechange";
                     "dischargingtimechange"])
      by (right; right; left; reflexivity).
    specialize (H Hin). vm_compute in H. vm_compute. exact H.
  - pose proof (proj2 (only_the_four_event_types_publish browser half true
                         (Some cb1) [] [] "change" low Hlive)) as H.
    assert (Hnin : ~ In "change"
                     ["levelchange"; "chargingchange"; "chargingtimechange";
                      "dischargingtimechange"]).
    { intros [E | [E | [E | [E | []]]]]; discriminate. }
    destruct (H Hnin) as (H1 & H2 & H3 & _).
    vm_compute in H1, H2, H3. vm_compute. repeat split; assumption.
Defined.

(** X11: an [onChange] that throws during a battery event.  Unlike the
    call made while [initBattery] runs, this one is made from an event
    listener, outside any [try]: the new status is published, the callback
    is called with it, the error escapes to the platform, nothing is
    logged with [console.warn], and the four listeners stay registered. *)
Theorem throwing_onChange_in_event_escapes :
  forall e r t cb pre post type rd f,
    live e t cb pre post ->
    latest_onChange cb (pre ++ Settle (Fulfill RBattery) :: post) = Some f ->
    cb_throws f = true ->
    In type ["levelchange"; "chargingchange"; "chargingtimechange";
             "dischargingtimechange"] ->
    let w := run (mount e r t cb)
                 (pre ++ Settle (Fulfill RBattery) :: post) in
    let w' := step w (BatteryEvent type rd) in
    useBattery w' = status_of rd
    /\ published (log w') = published (log w) ++ [status_of rd]
    /\ calls (log w') = calls (log w) ++ [(f, status_of rd)]
    /\ uncaught (log w') = uncaught (log w) ++ ["callback error"]
    /\ console (log w') = console (log w)
    /\ b_listeners (battery w') = b_listeners (battery w)
    /\ List.length (b_listeners (battery w')) = 4%nat.
Proof.
  intros e r t cb pre post type rd f Hlive Hf Hthr Hin w w'.
  destruct (live_listening e r t cb pre post Hlive) as (Hi & Hl & _).
  fold w in Hi, Hl.
  destruct (bat_run_ref (pre ++ Settle (Fulfill RBattery) :: post) _ cb
              (mount_inv e r t cb) (bat_mount_ref e r t cb)) as [Hr _].
  fold w in Hr. rewrite Hf in Hr.
  destruct (battery_event_publishes w type rd Hi Hl Hin)
    as (H1 & H2 & H3 & H4 & H5).
  rewrite Hr in H3, H4. rewrite Hthr in H4.
  pose proof (event_keeps_console w type rd Hi Hl Hin) as H6.
  fold w' in H1, H2, H3, H4, H5, H6.
  repeat (split; [assumption |]).
  split; [rewrite H5, Hl; reflexivity | rewrite H5; reflexivity].
Qed.

Lemma throwing_onChange_in_event_escapes_witness :
  let thrower := {| cb_id := 9; cb_throws := true |} in
  let w := run (mount browser half true (Some cb1))
               ([] ++ Settle (Fulfill RBattery) :: [Render (Some thrower)]) in
  let w' := step w (BatteryEvent "levelchange" low) in
  useBattery w'
  = {| level := 0.125%float; charging := false; chargingTime := infinity;
       dischargingTime := 900%float; supported := true |}
  /\ calls (log w')
     = [(cb1, {| level := 0.5%float; charging := true;
                 chargingTime := 1200%float;
                 dischargingTime := infinity; supported := true |});
        (thrower, {| level := 0.125%float; charging := false;
                     chargingTime := infinity;
                     dischargingTime := 900%float; supported := true |})]
  /\ uncaught (log w') = ["callback error"]
  /\ console (log w') = []
  /\ List.length (b_listeners (battery w')) = 4%nat.
Proof.
  intros thrower w w'.
  assert (Hlive : live browser true (Some cb1) [] [Render (Some thrower)]).
  { constructor; try reflexivity; repeat constructor. }
  assert (Hin : In "levelchange"
                  ["levelchange"; "chargingchange"; "chargingtimechange";
                   "dischargingtimechange"]) by (left; reflexivity).
  pose proof (throwing_onChange_in_event_escapes browser half true (Some cb1)
                [] [Render (Some thrower)] "levelchange" low thrower
                Hlive eq_refl eq_refl Hin) as H.
  destruct H as (H1 & _ & H3 & H4 & H5 & _ & H7).
  vm_compute in H1, H3, H4, H5, H7. vm_compute.
  repeat split; assumption.
Defined.

(** *** What [onChange] gets to see *)

(** Every render supplies a callback. *)
Definition supplies (ev : Event) : bool :=
  match ev with
  | Render None => false
  | _ => true
  end.

(** The callback has received the published statuses that carry
    [supported: true], in order, and nothing else. *)
Definition told (w : World) : Prop :=
  map snd (calls (log w)) = filter supported (published (log w)).

Lemma told_after_update w f :
  onChangeRef (hook w) = Some f -> told w -> told (after_update w).
Proof.
  intros Hf Hm. unfold told, after_update.
  destruct (mounted (act w)); [| exact Hm].
  cbn [hook log onChangeRef calls published]. rewrite Hf.
  rewrite map_app, filter_app, Hm. reflexivity.
Qed.

Lemma told_updates n : forall w f,
  onChangeRef (hook w) = Some f -> told w -> told (updates n w).
Proof.
  induction n as [| n IH]; intros w f Hf H; [exact H |].
  cbn [updates]. apply (IH _ f).
  - destruct (after_update_refs w) as [A _]. rewrite A. exact Hf.
  - apply (told_after_update w f); assumption.
Qed.

Lemma told_step w ev f :
  inv w -> onChangeRef (hook w) = Some f -> told w -> told (step w ev).
Proof.
  intros Hi Hf H. destruct ev as [g | s | type rd |].
  - unfold step, Eff.exec, handle, refresh_effect, Eff.bind, Eff.gets.
    cbn [negb orb].
    destruct (negb (same_dep (onChangeDep (hook w)) g)); exact H.
  - rewrite step_settle. destruct (awaiting (act w)) eqn:Haw; [| exact H].
    destruct Hi as [Hl Ht Hm Hr Ha Hg Hp Hj Hw].
    destruct w as [e b h a l]. destruct a as [m aw c r ec].
    destruct b as [bl bc bct bdt et ls]. destruct h as [st ref dep bref].
    destruct l as [pub cl co un].
    cbn in Hl, Ht, Hm, Hr, Ha, Hg, Hp, Hj, Hw, Haw, Hf. subst.
    specialize (Ha eq_refl).
    destruct (Hw eq_refl) as (E1 & E2 & E3 & E4 & E5). subst.
    cbn in Hl. subst ls. unfold told.
    destruct f as [id thr].
    destruct s as [[v|]|err].
    + unfold settle_cleanup, Eff.exec. rewrite resume_invalid.
      destruct ec, r; reflexivity.
    + destruct ec, r, et, thr; vm_compute; reflexivity.
    + destruct ec, r; reflexivity.
  - rewrite step_event. set (n := List.length _).
    assert (Hn : inv (updates n (with_battery (store rd) w))).
    { destruct (awaiting (act w)) eqn:Haw.
      - subst n. rewrite (waiting_no_listeners w Hi Haw). cbn.
        apply store_inv, Hi.
      - apply updates_inv; [apply store_inv, Hi | exact Haw]. }
    unfold Eff.exec. rewrite (microtasks_idle _ Hn). cbn [snd].
    apply (told_updates n _ f); [exact Hf | exact H].
  - pose proof (step_unmount_observed w Hi) as Ho. unfold observed in Ho.
    injection Ho as _ O2 O3 _. unfold told. rewrite O2, O3. exact H.
Qed.

Lemma told_run evs : forall w f,
  inv w -> Forall (fun ev => supplies ev = true) evs ->
  ref_current w (Some f) -> told w -> told (run w evs).
Proof.
  induction evs as [| ev evs IH]; intros w f Hi Hs Hrc H; [exact H |].
  inversion Hs as [| ? ? Hev Hrest]; subst.
  cbn [run fold_left]. fold (run (step w ev) evs).
  pose proof (bat_step_ref w ev (Some f) Hi Hrc) as Hn.
  assert (Hg : exists g, latest_onChange (Some f) [ev] = Some g).
  { destruct ev as [[g|] | s | type rd |]; try discriminate; cbn; eauto. }
  destruct Hg as [g Hg]. rewrite Hg in Hn.
  apply (IH _ g); [apply step_inv, Hi | exact Hrest | exact Hn |].
  apply (told_step w ev f); [exact Hi | apply Hrc | exact H].
Qed.

(** X12: where an [onChange] is supplied at every render, the statuses it
    has received are exactly the published statuses that carry
    [supported: true], in the order of publication.  So every reading of
    the battery reaches the callback, and the default status that the
    [catch] block of [initBattery] publishes never does. *)
Theorem onChange_hears_the_supported_statuses :
  forall e r t f evs,
    Forall (fun ev => supplies ev = true) evs ->
    let w := run (mount e r t (Some f)) evs in
    map snd (calls (log w)) = filter supported (published (log w)).
Proof.
  intros e r t f evs Hs w.
  apply (told_run evs _ f);
    [apply mount_inv | exact Hs | apply bat_mount_ref |].
  destruct e as [wd gin [err|]]; destruct wd, gin; reflexivity.
Qed.

Lemma onChange_hears_the_supported_statuses_witness :
  let w := run (mount browser half false (Some cb1))
               [BatteryEvent "levelchange" low; Settle (Fulfill RBattery);
                BatteryEvent "levelchange" half] in
  map snd (calls (log w))
  = [{| level := 0.125%float; charging := false; chargingTime := infinity;
        dischargingTime := 900%float; supported := true |}]
  /\ published (log w)
     = [{| level := 0.125%float; charging := false; chargingTime := infinity;
           dischargingTime := 900%float; supported := true |};
        {| level := 1%float; charging := false; chargingTime := infinity;
           dischargingTime := infinity; supported := false |}]
  /\ filter supported (published (log w)) = map snd (calls (log w)).
Proof.
  intros w.
  assert (Hs : Forall (fun ev => supplies ev = true)
                 [BatteryEvent "levelchange" low; Settle (Fulfill RBattery);
                  BatteryEvent "levelchange" half]) by (repeat constructor).
  pose proof (onChange_hears_the_supported_statuses browser half false cb1
                [BatteryEvent "levelchange" low; Settle (Fulfill RBattery);
                 BatteryEvent "levelchange" half] Hs) as H.
  vm_compute in H. vm_compute.
  split; [reflexivity | split; [reflexivity | symmetry; exact H]].
Defined.

End BatteryBehaviour.
